(** * SafeFlow reactive system: subject, transaction manager, transactional store

  A shallow embedding of the TypeScript sources

  - [safeflow-reactive/src/reactive/subject.ts]          (module [Subject]),
  - [safeflow-reactive/src/transaction/transaction-manager.ts] (module [TM]),
  - [safeflow-reactive/src/store/transactional-store.ts] (modules [Store], [StoreTx]),
  - [src/transaction/transaction-manager.ts]             (modules [Core], [CoreAsync]),
  - [src/reactive/subject.ts] and
    [src/infrastructure/crud-operations.ts]              (module [CRUD]),

  over a small model of the JavaScript heap (module [JS]).  Objects live in
  a heap and are handled through references, so that the aliasing created
  by the spread operator, by snapshots and by shared context objects is
  visible in the model. *)

From Stdlib Require Import ZArith Lia.
From stdpp Require Import base option list gmap strings pretty.

Local Open Scope Z_scope.

(** ** JavaScript values, objects and the heap *)

Module JS.

(** A heap address of a plain object. *)
Definition loc := nat.

(** Values.  Numbers are the integers among the JS numbers; strings are
    ASCII. *)
Inductive value :=
| VUndefined
| VNull
| VBool (b : bool)
| VNum (n : Z)
| VStr (s : string)
| VRef (l : loc).

(** The own enumerable properties of a plain object.  The order of the
    keys is not recorded. *)
Abbreviation obj := (gmap string value).

Abbreviation heap := (gmap loc obj).

(** [ToBoolean]. *)
Definition truthy (v : value) : bool :=
  match v with
  | VUndefined | VNull => false
  | VBool b => b
  | VNum n => negb (n =? 0)
  | VStr s => negb (String.eqb s "")
  | VRef _ => true
  end.

(** The own properties of a string: its characters under their index. *)
Fixpoint string_props (i : nat) (s : string) : obj :=
  match s with
  | EmptyString => ∅
  | String c s' => <[pretty i := VStr (String c EmptyString)]> (string_props (S i) s')
  end.

(** [{...v}]: the own properties that a spread of [v] copies.  [undefined],
    [null], numbers and booleans contribute nothing. *)
Definition props (h : heap) (v : value) : obj :=
  match v with
  | VRef l => default ∅ (h !! l)
  | VStr s => string_props 0 s
  | _ => ∅
  end.

(** [{...a, ...b}]: properties of [b] override those of [a]. *)
Definition spread2 (h : heap) (a b : value) : obj := props h b ∪ props h a.

(** [v.k] for an own property [k]; reading a property that the value lacks
    gives [undefined].  Inherited properties are not modelled. *)
Definition get (h : heap) (v : value) (k : string) : value :=
  match v with
  | VStr s =>
      if String.eqb k "length" then VNum (Z.of_nat (String.length s))
      else default VUndefined (props h v !! k)
  | _ => default VUndefined (props h v !! k)
  end.

(** [v.k = x], for a reference [v] to an object. *)
Definition assign (h : heap) (v : value) (k : string) (x : value) : heap :=
  match v with
  | VRef l =>
      match h !! l with
      | Some o => <[l := <[k := x]> o]> h
      | None => h
      end
  | _ => h
  end.

(** Allocation of an object literal. *)
Definition alloc (o : obj) (h : heap) : loc * heap :=
  let l := fresh (dom h) in (l, <[l := o]> h).

(** Exceptions.  The messages of the [Error] objects of the sources are
    kept as constructors. *)
Inductive exn :=
| ErrNotFound (id : nat)            (* Transaction <id> not found *)
| ErrNotPending (id : nat)          (* Transaction <id> is not in PENDING state *)
| ErrTimeout (id : nat) (ms : Z)    (* Transaction <id> timed out after <ms>ms *)
| ErrNoActive (what : string)       (* No active transaction to <what> *)
| ErrUser (tag : nat)               (* thrown by user code *)
| TypeError.

(** The completion of a call: a normal return or a thrown exception. *)
Inductive completion (A : Type) :=
| Normal (a : A)
| Throw (e : exn).
Arguments Normal {A} a.
Arguments Throw {A} e.

End JS.

Export JS.

(** ** A state-and-exception monad

  Side effects performed before a [throw] are kept, as in JavaScript. *)

Section Monad.
Context {S : Type}.

Definition M (A : Type) : Type := S -> completion A * S.

Definition ret {A} (a : A) : M A := fun s => (Normal a, s).

Definition throw {A} (e : exn) : M A := fun s => (Throw e, s).

Definition bind {A B} (m : M A) (k : A -> M B) : M B :=
  fun s => match m s with
           | (Normal a, s') => k a s'
           | (Throw e, s') => (Throw e, s')
           end.

(** [try { m } catch (e) { h e }] *)
Definition try_catch {A} (m : M A) (h : exn -> M A) : M A :=
  fun s => match m s with
           | (Normal a, s') => (Normal a, s')
           | (Throw e, s') => h e s'
           end.

Definition gets {A} (f : S -> A) : M A := fun s => (Normal (f s), s).

Definition modify (f : S -> S) : M unit := fun s => (Normal tt, f s).

End Monad.

Arguments M : clear implicits.

Declare Scope js_scope.
Delimit Scope js_scope with js.
Notation "'let*' x ':=' m 'in' k" := (bind m (fun x => k))
  (at level 10, x pattern, m at level 100, k at level 200) : js_scope.

Local Open Scope js_scope.

(** What the outside world sees of a run: the invocations of user callbacks
    and of transaction bodies, the console, and the exceptions that reach
    the top of a timer callback. *)
Inductive event :=
| CalledNext (o : nat) (v : value)      (* observer [o].next(v) *)
| CalledError (o : nat) (e : value)     (* observer [o].error(e) *)
| CalledComplete (o : nat)              (* observer [o].complete() *)
| ConsoleError (msg : string)
| ConsoleLog (msg : string)
| BodyCalled (ctx : nat)                (* fn(context) *)
| Uncaught (e : exn).

(** ** reactive/subject.ts *)

Module Subject.

(** An observer object: its identity (observers are compared by reference)
    and, for each of its three callbacks, whether the callback throws.  The
    callbacks have no other effect than being recorded in the trace. *)
Record Observer := mkObserver {
  oid : nat;
  next_throws : bool;
  error_throws : bool;
  complete_throws : bool
}.

(** The three shapes of the arguments of [subscribe].  For the first and the
    last, [subscribe] builds a new observer object; [o] is its identity. *)
Inductive subscribe_args :=
| ArgFunction (o : nat) (next_throws : bool) (error complete : option bool)
| ArgObserver (ob : Observer)
| ArgNone (o : nat).

Record SafeFlowSubscription := mkSubscription {
  _closed : bool;
  onUnsubscribe : nat   (* the observer captured by the closure *)
}.

Record SafeFlowSubject := mkSubject {
  observers : list Observer;
  _isClosed : bool;
  lastValue : value;
  _hasValue : bool
}.

(** [new SafeFlowSubject()] *)
Definition new : SafeFlowSubject :=
  {| observers := []; _isClosed := false; lastValue := VUndefined; _hasValue := false |}.

(** The state on which the methods run: the subject and the trace. *)
Abbreviation St := (SafeFlowSubject * list event)%type.

Definition emit (e : event) : M St unit :=
  modify (fun '(s, tr) => (s, tr ++ [e])).

(** The observer that [subscribe] registers (lines 56-75); [error || noop]
    and [complete || noop] never throw when the callback is missing. *)
Definition make_observer (a : subscribe_args) : Observer :=
  match a with
  | ArgFunction o n e c =>
      {| oid := o; next_throws := n;
         error_throws := default false e; complete_throws := default false c |}
  | ArgObserver ob => ob
  | ArgNone o =>
      {| oid := o; next_throws := false; error_throws := false; complete_throws := false |}
  end.

(** [v !== undefined] *)
Definition is_defined (v : value) : bool :=
  match v with VUndefined => false | _ => true end.

(** A call of a callback outside any [try]: recorded, and the callback's
    exception propagates. *)
Definition call (e : event) (o : nat) (throws : bool) : M St unit :=
  let* _ := emit e in
  if throws then throw (ErrUser o) else ret tt.

Definition subscribe (a : subscribe_args) : M St SafeFlowSubscription :=
  let observer := make_observer a in
  let* _ := modify (fun '(s, tr) =>
    ({| observers := observers s ++ [observer]; _isClosed := _isClosed s;
        lastValue := lastValue s; _hasValue := _hasValue s |}, tr)) in
  let* s := gets fst in
  let* _ := (if _hasValue s && is_defined (lastValue s)
             then call (CalledNext (oid observer) (lastValue s)) (oid observer)
                       (next_throws observer)
             else ret tt) in
  let* _ := (if _isClosed s
             then call (CalledComplete (oid observer)) (oid observer)
                       (complete_throws observer)
             else ret tt) in
  ret {| _closed := false; onUnsubscribe := oid observer |}.

(** [indexOf] followed by [splice(index, 1)]: the first occurrence of the
    observer goes. *)
Fixpoint remove_first (o : nat) (l : list Observer) : list Observer :=
  match l with
  | [] => []
  | x :: l' => if Nat.eqb (oid x) o then l' else x :: remove_first o l'
  end.

Definition unsubscribe (sub : SafeFlowSubscription) : M St SafeFlowSubscription :=
  if _closed sub then ret sub
  else
    let* _ := modify (fun '(s, tr) =>
      ({| observers := remove_first (onUnsubscribe sub) (observers s);
          _isClosed := _isClosed s; lastValue := lastValue s;
          _hasValue := _hasValue s |}, tr)) in
    ret {| _closed := true; onUnsubscribe := onUnsubscribe sub |}.

(** One round of the loop [for (const observer of this.observers) try {...}
    catch (err) { console.error(...) }].  The loop runs over the array of
    the subject itself; the callbacks of the model neither subscribe nor
    unsubscribe, so that the array does not change under the loop. *)
Definition deliver (ev : nat -> event) (throws : Observer -> bool) (msg : string)
    (l : list Observer) : list event :=
  flat_map (fun o => ev (oid o) :: (if throws o then [ConsoleError msg] else [])) l.

Definition next (v : value) : M St unit :=
  let* s := gets fst in
  if _isClosed s then ret tt
  else
    modify (fun '(s, tr) =>
      ({| observers := observers s; _isClosed := _isClosed s;
          lastValue := v; _hasValue := true |},
       tr ++ deliver (fun o => CalledNext o v) next_throws
                     "Error in observer.next:" (observers s))).

Definition error (err : value) : M St unit :=
  let* s := gets fst in
  if _isClosed s then ret tt
  else
    modify (fun '(s, tr) =>
      ({| observers := []; _isClosed := true;
          lastValue := lastValue s; _hasValue := _hasValue s |},
       tr ++ deliver (fun o => CalledError o err) error_throws
                     "Error in observer.error:" (observers s))).

Definition complete : M St unit :=
  let* s := gets fst in
  if _isClosed s then ret tt
  else
    modify (fun '(s, tr) =>
      ({| observers := []; _isClosed := true;
          lastValue := lastValue s; _hasValue := _hasValue s |},
       tr ++ deliver CalledComplete complete_throws
                     "Error in observer.complete:" (observers s))).

Definition getValue (s : SafeFlowSubject) : value := lastValue s.
Definition hasValue (s : SafeFlowSubject) : bool := _hasValue s.
Definition isClosed (s : SafeFlowSubject) : bool := _isClosed s.
Definition getObserverCount (s : SafeFlowSubject) : nat := length (observers s).

End Subject.

(** ** transaction/transaction-manager.ts (safeflow-reactive) *)

Module TM.

Inductive TransactionStatus := PENDING | COMMITTED | ROLLED_BACK.

Inductive IsolationLevel :=
| READ_UNCOMMITTED | READ_COMMITTED | REPEATABLE_READ | SERIALIZABLE.

(** Every field is optional; [None] is a field that the caller left out. *)
Record TransactionOptions := mkOptions {
  timeout : option Z;
  autoRetry : option bool;
  maxRetries : option Z;
  retryDelay : option Z;
  optimisticLocking : option bool;
  isolationLevel : option IsolationLevel
}.

(** The default of the parameter [options]: [{}]. *)
Definition no_options : TransactionOptions :=
  {| timeout := None; autoRetry := None; maxRetries := None; retryDelay := None;
     optimisticLocking := None; isolationLevel := None |}.

Definition DEFAULT_TRANSACTION_OPTIONS : TransactionOptions :=
  {| timeout := Some 30000;
     autoRetry := Some false;
     maxRetries := Some 3;
     retryDelay := Some 1000;
     optimisticLocking := Some false;
     isolationLevel := Some READ_COMMITTED |}.

Definition override {A} (d o : option A) : option A :=
  match o with Some x => Some x | None => d end.

(** [{ ...d, ...o }] *)
Definition merge (d o : TransactionOptions) : TransactionOptions :=
  {| timeout := override (timeout d) (timeout o);
     autoRetry := override (autoRetry d) (autoRetry o);
     maxRetries := override (maxRetries d) (maxRetries o);
     retryDelay := override (retryDelay d) (retryDelay o);
     optimisticLocking := override (optimisticLocking d) (optimisticLocking o);
     isolationLevel := override (isolationLevel d) (isolationLevel o) |}.

(** Truthiness of an optional number and of an optional boolean. *)
Definition truthy_num (n : option Z) : bool :=
  match n with Some n => negb (n =? 0) | None => false end.

Definition truthy_bool (b : option bool) : bool := default false b.

(** [n > k] for an optional number; [undefined > k] is false. *)
Definition gt_num (n : option Z) (k : Z) : bool :=
  match n with Some n => k <? n | None => false end.

Record TransactionMetadata := mkMetadata {
  id : nat;
  startTime : Z;
  endTime : option Z;
  status : TransactionStatus;
  options : TransactionOptions
}.

Record TransactionContext := mkContext {
  metadata : TransactionMetadata;
  data : value
}.

Inductive operation_type := create | read | update | delete.

Record TransactionOperation := mkOperation {
  type : operation_type;
  target : string;
  op_data : option value;
  timestamp : Z
}.

Record TransactionLog := mkLog {
  transactionId : nat;
  operations : list TransactionOperation
}.

(** A transaction body [fn]: the completion of its [k]-th invocation,
    counted from 0 over the whole run.  A body has no effect on the manager
    other than through its completion: it does not end the transaction in
    which it runs, nor any other.  (Bodies that act on the manager are those
    of [ManagerOver] below.) *)
Definition Body := nat -> completion value.

(** What [executeTransaction] hands back: a plain value, or the promise
    that the retry path creates. *)
Inductive result :=
| RValue (v : value)
| RPromise (p : nat).

Inductive promise_state :=
| Pending
| Fulfilled (v : value)
| Rejected (e : exn)
| Follows (p : nat).   (* resolved with another promise *)

(** The two closures that the manager passes to [setTimeout]. *)
Inductive timer_callback :=
| Watchdog (id : nat) (context : nat) (ms : Z)
| Retry (fn : Body) (options : TransactionOptions) (retriesLeft : Z) (promise : nat).

Record timer := mkTimer {
  due : Z;
  callback : timer_callback
}.

(** The manager ([activeTransactions], [transactionLogs]) together with
    what it runs on: the heap of plain objects, the context objects (by
    address: they are shared between the manager and its callers and
    mutated in place), the source of [uuidv4()], the clock of [Date.now()],
    the timers of [setTimeout], the promises, and the trace. *)
Record World := mkWorld {
  heap : gmap loc obj;
  contexts : gmap nat TransactionContext;
  activeTransactions : gmap nat nat;
  transactionLogs : list TransactionLog;
  uuid : nat;
  now : Z;
  timers : list timer;
  promises : gmap nat promise_state;
  trace : list event
}.

Definition empty_world : World :=
  {| heap := ∅; contexts := ∅; activeTransactions := ∅; transactionLogs := [];
     uuid := 0; now := 0; timers := []; promises := ∅; trace := [] |}.

Definition set_heap (h : gmap loc obj) (w : World) : World :=
  {| heap := h; contexts := contexts w; activeTransactions := activeTransactions w;
     transactionLogs := transactionLogs w; uuid := uuid w; now := now w;
     timers := timers w; promises := promises w; trace := trace w |}.

Definition set_contexts (c : gmap nat TransactionContext) (w : World) : World :=
  {| heap := heap w; contexts := c; activeTransactions := activeTransactions w;
     transactionLogs := transactionLogs w; uuid := uuid w; now := now w;
     timers := timers w; promises := promises w; trace := trace w |}.

Definition set_active (a : gmap nat nat) (w : World) : World :=
  {| heap := heap w; contexts := contexts w; activeTransactions := a;
     transactionLogs := transactionLogs w; uuid := uuid w; now := now w;
     timers := timers w; promises := promises w; trace := trace w |}.

Definition set_logs (l : list TransactionLog) (w : World) : World :=
  {| heap := heap w; contexts := contexts w; activeTransactions := activeTransactions w;
     transactionLogs := l; uuid := uuid w; now := now w;
     timers := timers w; promises := promises w; trace := trace w |}.

Definition set_uuid (u : nat) (w : World) : World :=
  {| heap := heap w; contexts := contexts w; activeTransactions := activeTransactions w;
     transactionLogs := transactionLogs w; uuid := u; now := now w;
     timers := timers w; promises := promises w; trace := trace w |}.

Definition set_now (t : Z) (w : World) : World :=
  {| heap := heap w; contexts := contexts w; activeTransactions := activeTransactions w;
     transactionLogs := transactionLogs w; uuid := uuid w; now := t;
     timers := timers w; promises := promises w; trace := trace w |}.

Definition set_timers (t : list timer) (w : World) : World :=
  {| heap := heap w; contexts := contexts w; activeTransactions := activeTransactions w;
     transactionLogs := transactionLogs w; uuid := uuid w; now := now w;
     timers := t; promises := promises w; trace := trace w |}.

Definition set_promises (p : gmap nat promise_state) (w : World) : World :=
  {| heap := heap w; contexts := contexts w; activeTransactions := activeTransactions w;
     transactionLogs := transactionLogs w; uuid := uuid w; now := now w;
     timers := timers w; promises := p; trace := trace w |}.

Definition set_trace (t : list event) (w : World) : World :=
  {| heap := heap w; contexts := contexts w; activeTransactions := activeTransactions w;
     transactionLogs := transactionLogs w; uuid := uuid w; now := now w;
     timers := timers w; promises := promises w; trace := t |}.

(** [setTimeout(cb, ms)].  Delays below 1 and above 2^31-1 count as 1, as in
    Node.js. *)
Definition clamp_delay (ms : Z) : Z :=
  if (ms <? 1) || (2147483647 <? ms) then 1 else ms.

Definition setTimeout (cb : timer_callback) (ms : Z) : M World unit :=
  modify (fun w =>
    set_timers (timers w ++ [{| due := now w + clamp_delay ms; callback := cb |}]) w).

Definition set_status (s : TransactionStatus) (t : Z) (c : TransactionContext)
    : TransactionContext :=
  {| metadata := {| id := id (metadata c); startTime := startTime (metadata c);
                    endTime := Some t; status := s;
                    options := options (metadata c) |};
     data := data c |}.

Definition set_data (d : value) (c : TransactionContext) : TransactionContext :=
  {| metadata := metadata c; data := d |}.

Definition is_pending (s : TransactionStatus) : bool :=
  match s with PENDING => true | _ => false end.

Definition beginTransaction (options : TransactionOptions) : M World nat :=
  let mergedOptions := merge DEFAULT_TRANSACTION_OPTIONS options in
  let* i := gets uuid in
  let* _ := modify (fun w => set_uuid (S i) w) in
  let* t := gets now in
  let metadata :=
    {| id := i; startTime := t; endTime := None; status := PENDING;
       options := mergedOptions |} in
  (* data: {} *)
  let* d := (fun w => let '(d, h) := alloc ∅ (heap w) in (Normal d, set_heap h w)) in
  let* context := gets (fun w => fresh (dom (contexts w))) in
  let* _ := modify (fun w =>
    set_contexts (<[context := {| metadata := metadata; data := VRef d |}]> (contexts w)) w) in
  let* _ := modify (fun w => set_active (<[i := context]> (activeTransactions w)) w) in
  let* _ := (if truthy_num (timeout mergedOptions)
             then setTimeout (Watchdog i context (default 0 (timeout mergedOptions)))
                             (default 0 (timeout mergedOptions))
             else ret tt) in
  ret context.

(** The common body of [commitTransaction] and [rollbackTransaction], which
    differ in the status that they write.  A [context] that is no object
    makes the read of [context.metadata] fail. *)
Definition finish (s : TransactionStatus) (context : nat) : M World unit :=
  let* w := gets (fun w => w) in
  match contexts w !! context with
  | None => throw TypeError
  | Some cx =>
      let i := id (metadata cx) in
      match activeTransactions w !! i with
      | None => throw (ErrNotFound i)
      | Some transaction =>
          match contexts w !! transaction with
          | None => throw TypeError
          | Some tx =>
              if negb (is_pending (status (metadata tx))) then throw (ErrNotPending i)
              else
                let* _ := modify (fun w =>
                  set_contexts (<[transaction := set_status s (now w) tx]> (contexts w)) w) in
                modify (fun w => set_active (base.delete i (activeTransactions w)) w)
          end
      end
  end.

Definition commitTransaction (context : nat) : M World unit := finish COMMITTED context.

Definition rollbackTransaction (context : nat) : M World unit := finish ROLLED_BACK context.

Definition is_body_call (e : event) : bool :=
  match e with BodyCalled _ => true | _ => false end.

(** The number of invocations of a body so far. *)
Definition body_calls (tr : list event) : nat := length (filter is_body_call tr).

(** [fn(context)] *)
Definition call_body (fn : Body) (context : nat) : M World value :=
  fun w =>
    (fn (body_calls (trace w)), set_trace (trace w ++ [BodyCalled context]) w).

(** [new Promise(executor)], for an executor that only sets a timer. *)
Definition new_promise : M World nat :=
  let* p := gets (fun w => fresh (dom (promises w))) in
  let* _ := modify (fun w => set_promises (<[p := Pending]> (promises w)) w) in
  ret p.

Definition retryTransaction (fn : Body) (options : TransactionOptions) (retriesLeft : Z)
    : M World result :=
  try_catch
    (let* context := beginTransaction options in
     let* r := call_body fn context in
     let* _ := commitTransaction context in
     ret (RValue r))
    (fun error =>
       if (1 <? retriesLeft) && truthy_num (retryDelay options) then
         let* p := new_promise in
         let* _ := setTimeout (Retry fn options (retriesLeft - 1) p)
                              (default 0 (retryDelay options)) in
         ret (RPromise p)
       else throw error).

(** [options.autoRetry && options.maxRetries && options.maxRetries > 0],
    on the options as the caller passed them (line 140). *)
Definition retry_enabled (options : TransactionOptions) : bool :=
  truthy_bool (autoRetry options) && truthy_num (maxRetries options)
  && gt_num (maxRetries options) 0.

Definition executeTransaction (fn : Body) (options : TransactionOptions) : M World result :=
  let* context := beginTransaction options in
  try_catch
    (let* r := call_body fn context in
     let* _ := commitTransaction context in
     ret (RValue r))
    (fun error =>
       let* _ := rollbackTransaction context in
       if retry_enabled options
       then retryTransaction fn options (default 0 (maxRetries options))
       else throw error).

(** [logOperation]: the log of the transaction is the first one with its
    id; a missing log is pushed at the end. *)
Fixpoint append_operation (i : nat) (op : TransactionOperation) (l : list TransactionLog)
    : list TransactionLog :=
  match l with
  | [] => [{| transactionId := i; operations := [op] |}]
  | x :: l' =>
      if Nat.eqb (transactionId x) i
      then {| transactionId := i; operations := operations x ++ [op] |} :: l'
      else x :: append_operation i op l'
  end.

Definition logOperation (i : nat) (op : TransactionOperation) : M World unit :=
  modify (fun w => set_logs (append_operation i op (transactionLogs w)) w).

Definition getTransactionLogs (w : World) : list TransactionLog := transactionLogs w.

(** [Array.from(this.activeTransactions.values())]: the context objects of
    the active set, in the order in which their keys were inserted.  The
    keys are the ids that [uuidv4()] hands out, here from the counter
    [uuid], and no id is inserted twice: the order of insertion is the
    order of the ids. *)
Definition getActiveTransactions (w : World) : list nat :=
  omap (fun i => activeTransactions w !! i) (seq 0 (uuid w)).

Definition isTransactionActive (i : nat) (w : World) : bool :=
  bool_decide (is_Some (activeTransactions w !! i)).

Definition clearTransactionLogs : M World unit := modify (set_logs []).

(** *** Timers

    The closure that [beginTransaction] schedules (lines 58-64): the throw
    happens in a timer callback, where nothing catches it. *)
Definition watchdog (i context : nat) (ms : Z) : M World unit :=
  let* w := gets (fun w => w) in
  match activeTransactions w !! i with
  | Some transaction =>
      if default false ((fun tx => is_pending (status (metadata tx))) <$>
                          contexts w !! transaction)
      then let* _ := rollbackTransaction context in throw (ErrTimeout i ms)
      else ret tt
  | None => ret tt
  end.

(** [resolve(result)] and [reject(retryError)] of the promise of the retry
    path. *)
Definition settle (p : nat) (s : promise_state) : M World unit :=
  modify (fun w => set_promises (<[p := s]> (promises w)) w).

(** The closure that [retryTransaction] schedules (lines 169-176). *)
Definition retry_later (fn : Body) (options : TransactionOptions) (retriesLeft : Z)
    (p : nat) : M World unit :=
  try_catch
    (let* r := retryTransaction fn options retriesLeft in
     match r with
     | RValue v => settle p (Fulfilled v)
     | RPromise q => settle p (Follows q)
     end)
    (fun retryError => settle p (Rejected retryError)).

Definition run_callback (cb : timer_callback) : M World unit :=
  match cb with
  | Watchdog i context ms => watchdog i context ms
  | Retry fn options retriesLeft p => retry_later fn options retriesLeft p
  end.

(** The timer that fires next: the earliest one, and among equals the one
    that was set first. *)
Fixpoint earliest (l : list timer) : option Z :=
  match l with
  | [] => None
  | t :: l' =>
      match earliest l' with
      | Some d => Some (Z.min (due t) d)
      | None => Some (due t)
      end
  end.

Fixpoint take (d : Z) (l : list timer) : option (timer * list timer) :=
  match l with
  | [] => None
  | t :: l' =>
      if due t =? d then Some (t, l')
      else match take d l' with
           | Some (x, r) => Some (x, t :: r)
           | None => None
           end
  end.

(** One turn of the event loop: time passes until the next timer is due and
    its callback runs; an exception that escapes it is reported. *)
Definition tick (w : World) : option World :=
  match earliest (timers w) with
  | None => None
  | Some d =>
      match take d (timers w) with
      | None => None
      | Some (t, rest) =>
          let w1 := set_now (Z.max (now w) (due t)) (set_timers rest w) in
          match run_callback (callback t) w1 with
          | (Normal _, w2) => Some w2
          | (Throw e, w2) => Some (set_trace (trace w2 ++ [Uncaught e]) w2)
          end
      end
  end.

(** At most [n] turns of the event loop. *)
Fixpoint run (n : nat) (w : World) : World :=
  match n with
  | O => w
  | S n' => match tick w with Some w' => run n' w' | None => w end
  end.

(** The state of a promise, through the promises that it follows. *)
Fixpoint promise_outcome (n : nat) (w : World) (p : nat) : promise_state :=
  match promises w !! p with
  | Some (Follows q) =>
      match n with O => Pending | S n' => promise_outcome n' w q end
  | Some s => s
  | None => Pending
  end.

End TM.

(** ** store/transactional-store.ts *)

Module Store.
Import TM.

(** [state] and [initialState] are references: both are created by a spread
    in the constructor. *)
Record SafeFlowStore := mkStore {
  state : loc;
  initialState : loc;
  subject : Subject.SafeFlowSubject
}.

(** The store and the world of its transaction manager.  The field
    [transactionManager] of the store refers to the manager of [world]. *)
Record Sys := mkSys {
  store : SafeFlowStore;
  world : World
}.

Definition set_state (l : loc) (s : Sys) : Sys :=
  {| store := {| state := l; initialState := initialState (store s);
                 subject := subject (store s) |};
     world := world s |}.

Definition with_world {A} (m : M World A) : M Sys A :=
  fun s => let '(r, w) := m (world s) in (r, {| store := store s; world := w |}).

Definition with_subject {A} (m : M Subject.St A) : M Sys A :=
  fun s =>
    let '(r, (sj, tr)) := m (subject (store s), trace (world s)) in
    (r, {| store := {| state := state (store s); initialState := initialState (store s);
                       subject := sj |};
           world := set_trace tr (world s) |}).

(** An object literal. *)
Definition literal (o : gmap loc obj -> obj) : M Sys loc :=
  with_world (fun w => let '(l, h) := alloc (o (heap w)) (heap w) in (Normal l, set_heap h w)).

(** [new SafeFlowStore(initialState, transactionManager)], on the world of
    the manager ([transactionManager || new TransactionManager()]). *)
Definition new (initial : value) (w : World) : Sys :=
  let '(i, h1) := alloc (props (heap w) initial) (heap w) in
  let '(s, h2) := alloc (props h1 initial) h1 in
  {| store := {| state := s; initialState := i; subject := Subject.new |};
     world := set_heap h2 w |}.

Definition getState : M Sys value :=
  let* st := gets (fun s => state (store s)) in
  let* l := literal (fun h => props h (VRef st)) in
  ret (VRef l).

(** [this.subject.next(this.getState())], the statement that ends
    [setState], [resetState], [commitTransaction] and [rollbackTransaction]. *)
Definition publish : M Sys unit :=
  let* v := getState in
  with_subject (Subject.next v).

Definition setState (partial : value) : M Sys unit :=
  let* st := gets (fun s => state (store s)) in
  let* l := literal (fun h => spread2 h (VRef st) partial) in
  let* _ := modify (set_state l) in
  publish.

Definition resetState : M Sys unit :=
  let* i := gets (fun s => initialState (store s)) in
  let* l := literal (fun h => props h (VRef i)) in
  let* _ := modify (set_state l) in
  publish.

Definition subscribe (a : Subject.subscribe_args) : M Sys Subject.SafeFlowSubscription :=
  with_subject (Subject.subscribe a).

(** [context.data = v] *)
Definition assign_data (context : nat) (v : value) : M Sys unit :=
  with_world (fun w =>
    match contexts w !! context with
    | Some cx => (Normal tt, set_contexts (<[context := set_data v cx]> (contexts w)) w)
    | None => (Throw TypeError, w)
    end).

Definition beginTransaction (options : TransactionOptions) : M Sys nat :=
  let* context := with_world (TM.beginTransaction options) in
  let* st := gets (fun s => state (store s)) in
  let* snapshot := literal (fun h => props h (VRef st)) in
  let* d := literal (fun _ => {["snapshot" := VRef snapshot]}) in
  let* _ := assign_data context (VRef d) in
  ret context.

Definition commitTransaction (context : nat) : M Sys unit :=
  let* _ := with_world (TM.commitTransaction context) in
  publish.

(** [if (context.data && context.data.snapshot) this.state = {...context.data.snapshot}] *)
Definition restore (context : nat) : M Sys unit :=
  let* w := gets world in
  match contexts w !! context with
  | None => throw TypeError
  | Some cx =>
      if truthy (data cx) && truthy (get (heap w) (data cx) "snapshot") then
        let* l := literal (fun h => props h (get h (data cx) "snapshot")) in
        modify (set_state l)
      else ret tt
  end.

Definition rollbackTransaction (context : nat) : M Sys unit :=
  let* _ := restore context in
  let* _ := with_world (TM.rollbackTransaction context) in
  publish.

Definition getTransactionLogs (s : Sys) : list TransactionLog :=
  TM.getTransactionLogs (world s).

End Store.

(** ** src/transaction/transaction-manager.ts (SafeFlow framework)

    The manager of the framework keeps the current transaction and a stack
    of the enclosing ones. *)

Module Core.

Inductive TransactionStatus := PENDING | COMMITTED | ROLLED_BACK.

(** [TransactionContext] of core/types.ts. *)
Record TransactionContext := mkContext {
  id : nat;
  status : TransactionStatus;
  startTime : Z;
  endTime : option Z
}.

(** The manager ([currentTransaction], [transactionStack]: references to
    context objects) and what it runs on: the context objects, [uuidv4()],
    the clock, the console. *)
Record World := mkWorld {
  contexts : gmap nat TransactionContext;
  currentTransaction : option nat;
  transactionStack : list nat;
  uuid : nat;
  now : Z;
  console : list event
}.

Definition empty_world : World :=
  {| contexts := ∅; currentTransaction := None; transactionStack := [];
     uuid := 0; now := 0; console := [] |}.

Definition log (msg : string) : M World unit :=
  modify (fun w =>
    {| contexts := contexts w; currentTransaction := currentTransaction w;
       transactionStack := transactionStack w; uuid := uuid w; now := now w;
       console := console w ++ [ConsoleLog msg] |}).

(** [Array.prototype.pop]: the last element goes, and is returned. *)
Definition pop (l : list nat) : option nat * list nat := (last l, removelast l).

Definition getCurrentTransaction (w : World) : option nat := currentTransaction w.

Definition beginTransaction : M World nat :=
  (* if (this.currentTransaction) this.transactionStack.push(this.currentTransaction) *)
  let* _ := modify (fun w =>
    match currentTransaction w with
    | Some c =>
        {| contexts := contexts w; currentTransaction := currentTransaction w;
           transactionStack := transactionStack w ++ [c]; uuid := uuid w; now := now w;
           console := console w |}
    | None => w
    end) in
  let* i := gets uuid in
  let* c := gets (fun w => fresh (dom (contexts w))) in
  let* _ := modify (fun w =>
    {| contexts := <[c := {| id := i; status := PENDING; startTime := now w;
                            endTime := None |}]> (contexts w);
       currentTransaction := Some c;
       transactionStack := transactionStack w; uuid := S i; now := now w;
       console := console w |}) in
  let* _ := log ("Transaction " +:+ pretty i +:+ " started") in
  ret c.

(** The common body of [commit] and [rollback]. *)
Definition finish (s : TransactionStatus) (what verb : string) : M World unit :=
  let* w := gets (fun w => w) in
  match currentTransaction w with
  | None => throw (ErrNoActive what)
  | Some c =>
      match contexts w !! c with
      | None => throw TypeError
      | Some cx =>
          let* _ := modify (fun w =>
            {| contexts := <[c := {| id := id cx; status := s; startTime := startTime cx;
                                    endTime := Some (now w) |}]> (contexts w);
               currentTransaction := currentTransaction w;
               transactionStack := transactionStack w; uuid := uuid w; now := now w;
               console := console w |}) in
          let* _ := log ("Transaction " +:+ pretty (id cx) +:+ " " +:+ verb) in
          (* this.currentTransaction = this.transactionStack.pop() *)
          modify (fun w =>
            {| contexts := contexts w;
               currentTransaction := fst (pop (transactionStack w));
               transactionStack := snd (pop (transactionStack w));
               uuid := uuid w; now := now w; console := console w |})
      end
  end.

Definition commit : M World unit := finish COMMITTED "commit" "committed".

Definition rollback : M World unit := finish ROLLED_BACK "roll back" "rolled back".

(** [executeWithinTransaction], for an action that runs to completion
    without giving way to another task of the event loop. *)
Definition executeWithinTransaction (action : M World value) : M World value :=
  let* transaction := beginTransaction in
  try_catch
    (let* r := action in
     let* _ := commit in
     ret r)
    (fun error =>
       let* _ := rollback in
       throw error).

End Core.

(** ** Closed forms of the effects, and the scenarios of the properties *)

Module Effects.
Import TM.

(** The context object that [beginTransaction] creates in [w]. *)
Definition new_context (options : TransactionOptions) (w : World) : TransactionContext :=
  {| metadata := {| id := uuid w; startTime := now w; endTime := None; status := PENDING;
                    options := merge DEFAULT_TRANSACTION_OPTIONS options |};
     data := VRef (fresh (dom (heap w))) |}.

(** The world after [beginTransaction]. *)
Definition began (options : TransactionOptions) (w : World) : World :=
  let c := fresh (dom (contexts w)) in
  let t := timeout (merge DEFAULT_TRANSACTION_OPTIONS options) in
  {| heap := <[fresh (dom (heap w)) := ∅]> (heap w);
     contexts := <[c := new_context options w]> (contexts w);
     activeTransactions := <[uuid w := c]> (activeTransactions w);
     transactionLogs := transactionLogs w;
     uuid := S (uuid w);
     now := now w;
     timers := timers w ++
       (if truthy_num t
        then [{| due := now w + clamp_delay (default 0 t);
                 callback := Watchdog (uuid w) c (default 0 t) |}]
        else []);
     promises := promises w;
     trace := trace w |}.

(** The world after a successful [commitTransaction] or
    [rollbackTransaction] of the transaction [i], registered as the object
    [transaction]. *)
Definition finished (s : TransactionStatus) (i transaction : nat) (tx : TransactionContext)
    (w : World) : World :=
  set_active (base.delete i (activeTransactions w))
    (set_contexts (<[transaction := set_status s (now w) tx]> (contexts w)) w).

(** The world after [fn(context)]. *)
Definition called (c : nat) (w : World) : World :=
  set_trace (trace w ++ [BodyCalled c]) w.

(** The world after the first attempt of [executeTransaction], when the
    body throws: the context is rolled back. *)
Definition failed_attempt (options : TransactionOptions) (w : World) : World :=
  let c := fresh (dom (contexts w)) in
  finished ROLLED_BACK (uuid w) c (new_context options w) (called c (began options w)).

(** The world after the [try] block of [retryTransaction], when the body
    throws. *)
Definition failed_retry (options : TransactionOptions) (w : World) : World :=
  called (fresh (dom (contexts w))) (began options w).

(** The options [{autoRetry: true, maxRetries: N}]. *)
Definition retry_options (N : Z) : TransactionOptions :=
  {| timeout := None; autoRetry := Some true; maxRetries := Some N; retryDelay := None;
     optimisticLocking := None; isolationLevel := None |}.

(** The options [{autoRetry: true, maxRetries: N, retryDelay: d}]. *)
Definition retry_options_delay (N d : Z) : TransactionOptions :=
  {| timeout := None; autoRetry := Some true; maxRetries := Some N; retryDelay := Some d;
     optimisticLocking := None; isolationLevel := None |}.

(** The options [{timeout: 0, autoRetry: true, maxRetries: N, retryDelay: d}]:
    no watchdog, and an explicit delay. *)
Definition patient_options (N d : Z) : TransactionOptions :=
  {| timeout := Some 0; autoRetry := Some true; maxRetries := Some N; retryDelay := Some d;
     optimisticLocking := None; isolationLevel := None |}.

(** The options [{autoRetry: true}]. *)
Definition autoRetry_only : TransactionOptions :=
  {| timeout := None; autoRetry := Some true; maxRetries := None; retryDelay := None;
     optimisticLocking := None; isolationLevel := None |}.

(** A body that throws at every invocation; [err k] is what the [k]-th
    invocation throws. *)
Definition always_fails (err : nat -> exn) : Body := fun k => Throw (err k).

(** A body that throws twice and then returns [v]. *)
Definition fails_twice (v : value) : Body :=
  fun k => if (k <? 2)%nat then Throw (ErrUser k) else Normal v.

End Effects.

(** Closed forms and scenarios for the store. *)

Module StoreEffects.
Import TM Store.

(** The properties of the object that [getState()] returns. *)
Definition getState_props (s : Sys) : obj :=
  match getState s with
  | (Normal v, s') => props (heap (world s')) v
  | (Throw _, _) => ∅
  end.

(** The system after an object literal [o]. *)
Definition allocated (o : obj) (s : Sys) : Sys :=
  {| store := store s;
     world := set_heap (<[fresh (dom (heap (world s))) := o]> (heap (world s))) (world s) |}.

(** The system after [this.subject.next(this.getState())], for an open
    subject. *)
Definition published (s : Sys) : Sys :=
  let l := fresh (dom (heap (world s))) in
  {| store :=
       {| state := state (store s); initialState := initialState (store s);
          subject :=
            {| Subject.observers := Subject.observers (subject (store s));
               Subject._isClosed := false;
               Subject.lastValue := VRef l;
               Subject._hasValue := true |} |};
     world :=
       set_trace
         (trace (world s) ++
          Subject.deliver (fun o => CalledNext o (VRef l)) Subject.next_throws
            "Error in observer.next:" (Subject.observers (subject (store s))))
         (set_heap (<[l := props (heap (world s)) (VRef (state (store s)))]>
                      (heap (world s))) (world s)) |}.

(** A sequence of [setState] calls. *)
Fixpoint setStates (partials : list value) : M Sys unit :=
  match partials with
  | [] => ret tt
  | p :: ps => let* _ := setState p in setStates ps
  end.

(** What a store operation leaves alone: the objects of the heap, the
    manager and its contexts, the observers; the subject stays open. *)
Definition frame (s s' : Sys) : Prop :=
  heap (world s) ⊆ heap (world s') /\
  contexts (world s') = contexts (world s) /\
  activeTransactions (world s') = activeTransactions (world s) /\
  Subject._isClosed (subject (store s')) = false /\
  Subject.observers (subject (store s')) = Subject.observers (subject (store s)).

(** The statement [v.k = x] of a caller of the store. *)
Definition caller_assigns (v : value) (k : string) (x : value) (s : Sys) : Sys :=
  {| store := store s; world := set_heap (assign (heap (world s)) v k x) (world s) |}.

(** Several such statements on the same object, in order. *)
Fixpoint caller_assigns_all (v : value) (kxs : list (string * value)) (s : Sys) : Sys :=
  match kxs with
  | [] => s
  | (k, x) :: kxs' => caller_assigns_all v kxs' (caller_assigns v k x s)
  end.

(** [getState().k1.k2] *)
Definition getState_nested (k1 k2 : string) (s : Sys) : value :=
  match getState s with
  | (Normal v, s') => get (heap (world s')) (get (heap (world s')) v k1) k2
  | (Throw _, _) => VUndefined
  end.

(** [const v = getState(); v.k1.k2 = x] *)
Definition mutate_nested (k1 k2 : string) (x : value) (s : Sys) : Sys :=
  match getState s with
  | (Normal v, s') => caller_assigns (get (heap (world s')) v k1) k2 x s'
  | (Throw _, s') => s'
  end.

(** The values of the property [k] with which the observer [o] was
    notified, in order, read in the heap of [s]: the store writes to no
    object once it exists, so that the published copies are there as they
    were published. *)
Definition notified (o : nat) (k : string) (s : Sys) : list value :=
  omap (fun e => match e with
                 | CalledNext o' v =>
                     if Nat.eqb o' o then Some (get (heap (world s)) v k) else None
                 | _ => None
                 end) (trace (world s)).

End StoreEffects.


(** Closed forms for the manager of the framework. *)

Module CoreEffects.
Import Core.

(** The context object that [beginTransaction] creates in [w]. *)
Definition new_context (w : World) : TransactionContext :=
  {| id := uuid w; status := PENDING; startTime := now w; endTime := None |}.

(** The world after [beginTransaction]. *)
Definition began (w : World) : World :=
  {| contexts := <[fresh (dom (contexts w)) := new_context w]> (contexts w);
     currentTransaction := Some (fresh (dom (contexts w)));
     transactionStack :=
       transactionStack w ++
       match currentTransaction w with Some c => [c] | None => [] end;
     uuid := S (uuid w);
     now := now w;
     console := console w ++
                [ConsoleLog ("Transaction " +:+ pretty (uuid w) +:+ " started")] |}.

(** The world after [commit] or [rollback] of the current transaction [c]. *)
Definition finished (s : TransactionStatus) (verb : string) (c : nat)
    (cx : TransactionContext) (w : World) : World :=
  {| contexts := <[c := {| id := id cx; status := s; startTime := startTime cx;
                          endTime := Some (now w) |}]> (contexts w);
     currentTransaction := last (transactionStack w);
     transactionStack := removelast (transactionStack w);
     uuid := uuid w;
     now := now w;
     console := console w ++
                [ConsoleLog ("Transaction " +:+ pretty (id cx) +:+ " " +:+ verb)] |}.

End CoreEffects.

(** The concrete situations at which the properties are exercised. *)

Module Scenario.
Import TM Store Effects StoreEffects.

(** A new subject after [complete()]. *)
Definition completed : Subject.SafeFlowSubject :=
  (Subject.complete (Subject.new, [])).2.1.

(** A new subject after [next(1)]. *)
Definition holding_one : Subject.SafeFlowSubject :=
  (Subject.next (VNum 1) (Subject.new, [])).2.1.

(** A world whose heap holds the object [{count: 0}], at address 0. *)
Definition counter_world : World :=
  set_heap {[ 0%nat := {["count" := VNum 0]} ]} empty_world.

(** [new SafeFlowStore({count: 0})] *)
Definition counter_store : Sys := Store.new (VRef 0%nat) counter_world.

(** The end-to-end scenario: [setState({count: 1}); setState({count: 2});
    subscribe(fn); ctx = beginTransaction(); setState({count: 99})], with
    [fn] as observer 7. *)
Definition before_rollback : M Sys nat :=
  let* p1 := literal (fun _ => {["count" := VNum 1]}) in
  let* _ := setState (VRef p1) in
  let* p2 := literal (fun _ => {["count" := VNum 2]}) in
  let* _ := setState (VRef p2) in
  let* _ := subscribe (Subject.ArgFunction 7 false None None) in
  let* ctx := Store.beginTransaction no_options in
  let* p3 := literal (fun _ => {["count" := VNum 99]}) in
  let* _ := setState (VRef p3) in
  ret ctx.

(** ... followed by [rollbackTransaction(ctx)]. *)
Definition rollback_scenario : M Sys unit :=
  let* ctx := before_rollback in
  Store.rollbackTransaction ctx.

(** A store with a subscriber, and a context that comes from the manager's
    own [beginTransaction]. *)
Definition subscribed_store : Sys :=
  (subscribe (Subject.ArgFunction 7 false None None) counter_store).2.

Definition manager_context : Sys :=
  (with_world (TM.beginTransaction no_options) subscribed_store).2.

(** A store whose state holds a nested object: [{user: {name: 1}}]. *)
Definition nested_world : World :=
  set_heap {[ 0%nat := {["name" := VNum 1]}; 1%nat := {["user" := VRef 0%nat]} ]}
    empty_world.

Definition nested_store : Sys := Store.new (VRef 1%nat) nested_world.

(** The manager of the framework with one transaction open. *)
Definition core_outer : Core.World := (Core.beginTransaction Core.empty_world).2.

End Scenario.

(** ** Further observations and situations *)

Module Observed.
Import Subject.

(** The calls of [next], of [complete] and of [error] among some events:
    which observer, and with what. *)
Definition next_calls (evs : list event) : list (nat * value) :=
  omap (fun e => match e with CalledNext o v => Some (o, v) | _ => None end) evs.

Definition complete_calls (evs : list event) : list nat :=
  omap (fun e => match e with CalledComplete o => Some o | _ => None end) evs.

Definition error_calls (evs : list event) : list (nat * value) :=
  omap (fun e => match e with CalledError o v => Some (o, v) | _ => None end) evs.

(** A subject with two observers: 1, whose [next] throws, and 2. *)
Definition two_observers : SafeFlowSubject :=
  {| observers := [make_observer (ArgFunction 1 true None None); make_observer (ArgNone 2)];
     _isClosed := false; lastValue := VUndefined; _hasValue := false |}.

End Observed.

(** Consistency of the manager of safeflow-reactive, and its logs. *)

Module Invariant.
Import TM.

(** The manager is consistent when the active set holds exactly the PENDING
    contexts, each under its id, and the ids are those that [uuidv4()] has
    handed out, one per context. *)
Definition consistent (w : World) : Prop :=
  (forall i c, activeTransactions w !! i = Some c ->
     exists cx, contexts w !! c = Some cx /\ id (metadata cx) = i /\
                status (metadata cx) = PENDING) /\
  (forall c cx, contexts w !! c = Some cx -> status (metadata cx) = PENDING ->
     activeTransactions w !! id (metadata cx) = Some c) /\
  (forall c cx, contexts w !! c = Some cx -> (id (metadata cx) < uuid w)%nat) /\
  (forall c1 c2 cx1 cx2, contexts w !! c1 = Some cx1 -> contexts w !! c2 = Some cx2 ->
     id (metadata cx1) = id (metadata cx2) -> c1 = c2).

(** A computation of the manager keeps the consistency. *)
Definition keeps {A} (m : M World A) : Prop :=
  forall w, consistent w -> consistent (m w).2.

(** [this.transactionLogs.find(log => log.transactionId === i)?.operations],
    with [[]] for a missing log. *)
Definition operations_of (i : nat) (logs : list TransactionLog) : list TransactionOperation :=
  match find (fun l => Nat.eqb (transactionId l) i) logs with
  | Some l => operations l
  | None => []
  end.

(** The manager after one [beginTransaction()]. *)
Definition one_open : World := (beginTransaction no_options empty_world).2.

(** The manager after two calls of [beginTransaction()]: the context 0 of
    the first call is open when the context 1 of the second begins. *)
Definition two_open : World := (beginTransaction no_options one_open).2.

(** A body that returns 1. *)
Definition returns_one : Body := fun _ => Normal (VNum 1).

(** An operation to log. *)
Definition sample_operation : TransactionOperation :=
  {| type := update; target := "store"; op_data := None; timestamp := 0 |}.

End Invariant.

(** Observations of the store. *)

Module StoreObserved.
Import TM Store Effects StoreEffects.

(** The shallow merge of the objects [ps], in order, into [o]; the
    properties of a later object win. *)
Definition merged (h : gmap loc obj) (o : obj) (ps : list value) : obj :=
  foldl (fun acc p => props h p ∪ acc) o ps.

(** Between [s] and [s'] the store has published a copy of its state: an
    object that did not exist in [s] and that has in [s'] the properties of
    the state; it is the last value of the subject, and [next] of every
    observer, in the order of subscription, was called once with it, and
    with nothing else. *)
Definition published_copy (s s' : Sys) : Prop :=
  exists l,
    heap (world s) !! l = None /\
    heap (world s') !! l = Some (getState_props s') /\
    Subject.lastValue (subject (store s')) = VRef l /\
    Observed.next_calls (trace (world s'))
      = Observed.next_calls (trace (world s))
        ++ map (fun o => (Subject.oid o, VRef l)) (Subject.observers (subject (store s))).

(** The properties of [new] are those of the value [p], and where [p] has
    none, those of [old]. *)
Definition overrides (p old new : obj) : Prop :=
  forall k, new !! k = match p !! k with Some x => Some x | None => old !! k end.

(** The store with a subscriber and an open transaction of the manager,
    after the object literal [{count: 99}], and the reference to that
    object. *)
Definition with_99 : Sys := allocated {["count" := VNum 99]} Scenario.manager_context.

Definition at_99 : value := VRef (fresh (dom (heap (world Scenario.manager_context)))).

End StoreObserved.

(** ** [executeWithinTransaction] as an [async] function

    A call of [executeWithinTransaction] runs up to [await action()]; the
    rest runs in jobs of the queue, one for each [await] that is passed.
    Between two of them the jobs of other calls may run.  The manager is a
    part of the state [S] of its caller, and the thrown values are of a type
    [E] of the caller's choice, which holds the errors of the manager. *)

Module CoreAsync.
Import Core.

(** What a promise is settled with. *)
Inductive promised (E : Type) :=
| Fulfilled (v : value)
| Rejected (e : E).
Arguments Fulfilled {E} v.
Arguments Rejected {E} e.

(** What [action()] does: it returns a plain value, returns a promise, or
    throws.  [p] is what the promise is, or will be, settled with. *)
Inductive acted (E : Type) :=
| Returned (v : value)
| ReturnedPromise (p : promised E)
| Threw (e : E).
Arguments Returned {E} v.
Arguments ReturnedPromise {E} p.
Arguments Threw {E} e.

(** What [await action()] gives. *)
Definition settles {E} (a : acted E) : promised E :=
  match a with
  | Returned v => Fulfilled v
  | ReturnedPromise p => p
  | Threw e => Rejected e
  end.

(** Where a call stands: suspended at [await action()], which will give
    [c]; suspended at [await this.commit()] whose promise is rejected, so
    that the [catch] block is still to run; suspended at [await
    this.commit()] or [await this.rollback()] with nothing left to do but to
    settle the promise of the call with [c]; or settled. *)
Inductive stage (E : Type) :=
| AwaitAction (c : promised E)
| AwaitCommitRejected (error : E)
| AwaitEnd (c : promised E)
| Settled (c : promised E).
Arguments AwaitAction {E} c.
Arguments AwaitCommitRejected {E} error.
Arguments AwaitEnd {E} c.
Arguments Settled {E} c.

Section Async.
Context {S E : Type}.
Variable manager : S -> World.
Variable set_manager : World -> S -> S.
Variable raised : exn -> E.

(** A method of the manager, run on the manager of the caller. *)
Definition on_manager {A} (m : M World A) : S -> completion A * S :=
  fun s => ((m (manager s)).1, set_manager (m (manager s)).2 s).

(** The [catch] block, up to [await this.rollback()].  When [rollback]
    fails, its error replaces [error]. *)
Definition rollback_then (error : E) : S -> stage E * S :=
  fun s =>
    match on_manager rollback s with
    | (Normal _, s') => (AwaitEnd (Rejected error), s')
    | (Throw error', s') => (AwaitEnd (Rejected (raised error')), s')
    end.

(** The call itself: [beginTransaction()] and [action()].  An action that
    throws sends the call into the [catch] block at once. *)
Definition call (action : S -> acted E * S) : S -> stage E * S :=
  fun s =>
    match on_manager beginTransaction s with
    | (Throw e, s1) => (Settled (Rejected (raised e)), s1)
    | (Normal _, s1) =>
        match action s1 with
        | (Threw error, s2) => rollback_then error s2
        | (a, s2) => (AwaitAction (settles a), s2)
        end
    end.

(** The job that takes a suspended call to its next [await], or to its
    end. *)
Definition step (st : stage E) : S -> stage E * S :=
  match st with
  | AwaitAction (Fulfilled result) =>
      fun s =>
        match on_manager commit s with
        | (Normal _, s') => (AwaitEnd (Fulfilled result), s')
        | (Throw error, s') => (AwaitCommitRejected (raised error), s')
        end
  | AwaitAction (Rejected error) => rollback_then error
  | AwaitCommitRejected error => rollback_then error
  | AwaitEnd c => fun s => (Settled c, s)
  | Settled c => fun s => (Settled c, s)
  end.

(** A call whose jobs run with no job of another call in between.  Here
    [action] stands for all that the action does until its promise is
    settled. *)
Definition executeWithinTransaction (action : S -> acted E * S) : S -> stage E * S :=
  fun s =>
    let '(st0, s0) := call action s in
    let '(st1, s1) := step st0 s0 in
    let '(st2, s2) := step st1 s1 in
    step st2 s2.

(** Two calls made one after the other, the first one not awaited, with
    actions whose promises are settled when they are returned: the jobs of
    the two calls take turns, the first call first. *)
Definition two_unawaited (a1 a2 : S -> acted E * S) : S -> (stage E * stage E) * S :=
  fun s =>
    let '(p0, s) := call a1 s in
    let '(q0, s) := call a2 s in
    let '(p1, s) := step p0 s in
    let '(q1, s) := step q0 s in
    let '(p2, s) := step p1 s in
    let '(q2, s) := step q1 s in
    let '(p3, s) := step p2 s in
    let '(q3, s) := step q2 s in
    ((p3, q3), s).

End Async.

(** The status in which a call with the given outcome leaves its
    transaction. *)
Definition end_status {E} (c : promised E) : TransactionStatus :=
  match c with Fulfilled _ => COMMITTED | Rejected _ => ROLLED_BACK end.

(** The manager has no stack without a current transaction, and the context
    of its current transaction exists. *)
Definition tidy (w : World) : Prop :=
  (currentTransaction w = None -> transactionStack w = []) /\
  (forall c, currentTransaction w = Some c -> is_Some (contexts w !! c)).

(** The manager on its own: the state of the caller is the manager, and the
    thrown values are its errors. *)
Module Alone.

Definition Action := World -> acted exn * World.

Definition call : Action -> World -> stage exn * World :=
  CoreAsync.call (fun w => w) (fun w _ => w) (fun e => e).

Definition step : stage exn -> World -> stage exn * World :=
  CoreAsync.step (fun w => w) (fun w _ => w) (fun e => e).

Definition executeWithinTransaction : Action -> World -> stage exn * World :=
  CoreAsync.executeWithinTransaction (fun w => w) (fun w _ => w) (fun e => e).

Definition two_unawaited : Action -> Action -> World -> (stage exn * stage exn) * World :=
  CoreAsync.two_unawaited (fun w => w) (fun w _ => w) (fun e => e).

(** An action that leaves the manager alone and returns a promise settled
    with [c]. *)
Definition settled (c : promised exn) : Action :=
  fun w => (ReturnedPromise c, w).

(** An action that leaves the manager as it found it: the same current
    transaction and stack, and no context dropped. *)
Definition balanced (action : Action) : Prop :=
  forall w, tidy w ->
    currentTransaction (action w).2 = currentTransaction w /\
    transactionStack (action w).2 = transactionStack w /\
    (forall c, is_Some (contexts w !! c) -> is_Some (contexts (action w).2 !! c)).

(** What a stage says of the outcome of the call. *)
Definition outcome (st : stage exn) : option (promised exn) :=
  match st with Settled c => Some c | _ => None end.

(** An action that awaits a call of [executeWithinTransaction] and returns
    what it gives. *)
Definition nested (action : Action) : Action :=
  fun w =>
    match executeWithinTransaction action w with
    | (Settled c, w') => (ReturnedPromise c, w')
    | (_, w') => (Returned VUndefined, w')
    end.

(** An action in the style of [Core.executeWithinTransaction]. *)
Definition of_M (action : M World value) : Action :=
  fun w =>
    match action w with
    | (Normal v, w') => (Returned v, w')
    | (Throw e, w') => (Threw e, w')
    end.

Definition of_completion (c : completion value) : promised exn :=
  match c with Normal v => Fulfilled v | Throw e => Rejected e end.

End Alone.

End CoreAsync.

(** ** src/reactive/subject.ts (BaseSubject), src/infrastructure/crud-operations.ts

    [CRUDOperations] keeps its items in a [Map], runs every change inside
    [executeWithinTransaction] of the manager of the framework, and tells
    its observers. *)

Module CRUD.
Import Core CoreAsync.

#[global] Instance value_eq_dec : EqDecision value.
Proof. solve_decision. Defined.

(** The values that the operations throw or reject with. *)
Inductive error :=
| DataMustHaveId               (* Data must have an ID *)
| AlreadyExists (id : value)   (* Item with ID <id> already exists *)
| Raised (e : exn)             (* an error of the manager, or a TypeError *)
| ThrownBy (observer : nat).   (* thrown by [update] of an observer *)

(** An observer object: its identity (observers are compared by reference)
    and whether its [update] throws.  [update] has no other effect than
    being recorded. *)
Record Observer := mkObserver {
  oid : nat;
  update_throws : bool
}.

(** A call of [observer.update(propertyName, newValue, oldValue)]; the two
    arrays are given by their elements. *)
Record notification := mkNotification {
  observer : nat;
  propertyName : string;
  newValue : list value;
  oldValue : list value
}.

(** A [Map]: the entries in the order of insertion of their keys.  Keys are
    compared as values ([SameValueZero] on the values of the model). *)
Definition Map := list (value * value).

Fixpoint map_has (k : value) (m : Map) : bool :=
  match m with
  | [] => false
  | (k', _) :: m' => bool_decide (k' = k) || map_has k m'
  end.

Fixpoint map_get (k : value) (m : Map) : value :=
  match m with
  | [] => VUndefined
  | (k', v) :: m' => if bool_decide (k' = k) then v else map_get k m'
  end.

(** [set] of a key that is present keeps the place of the key. *)
Fixpoint map_set (k v : value) (m : Map) : Map :=
  match m with
  | [] => [(k, v)]
  | (k', v') :: m' =>
      if bool_decide (k' = k) then (k', v) :: m' else (k', v') :: map_set k v m'
  end.

Fixpoint map_delete (k : value) (m : Map) : Map :=
  match m with
  | [] => []
  | (k', v') :: m' =>
      if bool_decide (k' = k) then map_delete k m' else (k', v') :: map_delete k m'
  end.

(** [Array.from(m.values())] *)
Definition map_values (m : Map) : list value := m.*2.

(** An instance of [CRUDOperations], with the manager that it was given,
    the heap of plain objects, and the calls of the observers so far. *)
Record CRUDOperations := mkCRUD {
  observers : list Observer;
  dataStore : Map;
  transactionManager : World;
  objects : gmap loc obj;
  notified : list notification
}.

(** [new CRUDOperations(transactionManager)] *)
Definition new (w : World) (h : gmap loc obj) : CRUDOperations :=
  {| observers := []; dataStore := []; transactionManager := w; objects := h;
     notified := [] |}.

Definition set_observers (l : list Observer) (c : CRUDOperations) : CRUDOperations :=
  {| observers := l; dataStore := dataStore c;
     transactionManager := transactionManager c; objects := objects c;
     notified := notified c |}.

Definition set_dataStore (m : Map) (c : CRUDOperations) : CRUDOperations :=
  {| observers := observers c; dataStore := m;
     transactionManager := transactionManager c; objects := objects c;
     notified := notified c |}.

Definition set_transactionManager (w : World) (c : CRUDOperations) : CRUDOperations :=
  {| observers := observers c; dataStore := dataStore c;
     transactionManager := w; objects := objects c;
     notified := notified c |}.

Definition set_objects (h : gmap loc obj) (c : CRUDOperations) : CRUDOperations :=
  {| observers := observers c; dataStore := dataStore c;
     transactionManager := transactionManager c; objects := h;
     notified := notified c |}.

Definition set_notified (n : list notification) (c : CRUDOperations) : CRUDOperations :=
  {| observers := observers c; dataStore := dataStore c;
     transactionManager := transactionManager c; objects := objects c;
     notified := n |}.

(** *** BaseSubject *)

(** [this.observers.includes(observer)] *)
Definition includes (o : Observer) (l : list Observer) : bool :=
  existsb (fun x => Nat.eqb (oid x) (oid o)) l.

Definition registerObserver (o : Observer) (c : CRUDOperations) : CRUDOperations :=
  if includes o (observers c) then c
  else set_observers (observers c ++ [o]) c.

(** [indexOf] and [splice(index, 1)]: the first occurrence goes. *)
Fixpoint remove_first (o : Observer) (l : list Observer) : list Observer :=
  match l with
  | [] => []
  | x :: l' => if Nat.eqb (oid x) (oid o) then l' else x :: remove_first o l'
  end.

Definition unregisterObserver (o : Observer) (c : CRUDOperations) : CRUDOperations :=
  set_observers (remove_first o (observers c)) c.

(** [forEach] over the observers: the first [update] that throws ends the
    loop, and its exception leaves [notifyObservers].  [forEach] runs over
    the array of the subject itself; [update] of the model neither
    registers nor unregisters an observer, so that the array does not
    change under the loop. *)
Fixpoint notify (l : list Observer) (name : string) (newData oldData : list value)
    (c : CRUDOperations) : option error * CRUDOperations :=
  match l with
  | [] => (None, c)
  | o :: l' =>
      let c' := set_notified (notified c ++
                  [{| observer := oid o; propertyName := name;
                      newValue := newData; oldValue := oldData |}]) c in
      if update_throws o then (Some (ThrownBy (oid o)), c')
      else notify l' name newData oldData c'
  end.

Definition notifyObservers (name : string) (newData oldData : list value)
    (c : CRUDOperations) : option error * CRUDOperations :=
  notify (observers c) name newData oldData c.

(** *** CRUDOperations *)

(** The end of the three actions: the arrays [oldData] and [newData] are
    both made from the store as it is after the change. *)
Definition notify_and_return (name : string) (result : value) (c : CRUDOperations)
    : acted error * CRUDOperations :=
  let oldData := map_values (dataStore c) in
  let newData := oldData in
  match notifyObservers name newData oldData c with
  | (None, c') => (ReturnedPromise (Fulfilled result), c')
  | (Some e, c') => (ReturnedPromise (Rejected e), c')
  end.

(** The [async] arrow function of [create].  Reading [data.id] of
    [undefined] or [null] is a TypeError. *)
Definition create_action (data : value) (c : CRUDOperations)
    : acted error * CRUDOperations :=
  match data with
  | VUndefined | VNull => (ReturnedPromise (Rejected (Raised TypeError)), c)
  | _ =>
      let i := get (objects c) data "id" in
      if negb (truthy i) then (ReturnedPromise (Rejected DataMustHaveId), c)
      else if map_has i (dataStore c) then (ReturnedPromise (Rejected (AlreadyExists i)), c)
      else notify_and_return "create" data (set_dataStore (map_set i data (dataStore c)) c)
  end.

Definition update_action (i data : value) (c : CRUDOperations)
    : acted error * CRUDOperations :=
  let existingData := map_get i (dataStore c) in
  if negb (truthy existingData) then (ReturnedPromise (Fulfilled VUndefined), c)
  else
    let '(l, h) := alloc (spread2 (objects c) existingData data) (objects c) in
    let updatedData := VRef l in
    notify_and_return "update" updatedData
      (set_dataStore (map_set i updatedData (dataStore c)) (set_objects h c)).

Definition delete_action (i : value) (c : CRUDOperations)
    : acted error * CRUDOperations :=
  if negb (map_has i (dataStore c)) then (ReturnedPromise (Fulfilled (VBool false)), c)
  else
    notify_and_return "delete" (VBool true)
      (set_dataStore (map_delete i (dataStore c)) c).

(** [this.transactionManager.executeWithinTransaction(action)] *)
Definition within (action : CRUDOperations -> acted error * CRUDOperations)
    : CRUDOperations -> stage error * CRUDOperations :=
  executeWithinTransaction transactionManager set_transactionManager Raised action.

Definition create (data : value) := within (create_action data).

(** [read] and [readAll] are [async] and change nothing: what their promise
    is fulfilled with. *)
Definition read (i : value) (c : CRUDOperations) : value := map_get i (dataStore c).

Definition readAll (c : CRUDOperations) : list value := map_values (dataStore c).

Definition update (i data : value) := within (update_action i data).

Definition delete (i : value) := within (delete_action i).

(** The transaction that the next call of [executeWithinTransaction] opens. *)
Definition next_transaction (c : CRUDOperations) : nat :=
  fresh (dom (contexts (transactionManager c))).

(** The status of a transaction. *)
Definition status_of (t : nat) (c : CRUDOperations) : option TransactionStatus :=
  status <$> contexts (transactionManager c) !! t.

(** An action that does not look at the manager nor touch it. *)
Definition independent (action : CRUDOperations -> acted error * CRUDOperations) : Prop :=
  forall w c,
    action (set_transactionManager w c)
    = ((action c).1, set_transactionManager w (action c).2).

(** The manager after a call of [executeWithinTransaction] that ends with
    the status [s]. *)
Definition ended (s : TransactionStatus) (w : World) : World :=
  CoreEffects.finished s
    (match s with COMMITTED => "committed" | _ => "rolled back" end)
    (fresh (dom (contexts w))) (CoreEffects.new_context w) (CoreEffects.began w).

(** The calls of [update] that [notifyObservers] makes when no observer
    throws. *)
Definition notes (l : list Observer) (name : string) (data : list value)
    : list notification :=
  map (fun o => {| observer := oid o; propertyName := name;
                   newValue := data; oldValue := data |}) l.

(** No [update] of the observers throws. *)
Definition quiet (c : CRUDOperations) : Prop :=
  Forall (fun o => update_throws o = false) (observers c).

(** The observer was told the same elements as the new and as the old
    value. *)
Definition same_old_and_new (n : notification) : Prop := newValue n = oldValue n.

(** Case analysis on the comparison of two keys. *)
Ltac keys a b :=
  destruct (decide (a = b)) as [?|?];
  [subst; rewrite ?bool_decide_eq_true_2 by done
  |rewrite ?(bool_decide_eq_false_2 (a = b)) by done];
  simpl.

(** An instance with one observer, over a heap with the objects
    [{id: 1, title: 'a'}] at 0, [{id: 0}] at 1 and [{id: 1}] at 2. *)
Definition example_objects : gmap loc obj :=
  <[2%nat := <["id" := VNum 1]> ∅]>
    (<[1%nat := <["id" := VNum 0]> ∅]>
       (<[0%nat := <["id" := VNum 1]> (<["title" := VStr "a"]> ∅)]> ∅)).

Definition example : CRUDOperations :=
  registerObserver {| oid := 0%nat; update_throws := false |} (new empty_world example_objects).

(** The same, with a second observer whose [update] throws and a third one
    behind it. *)
Definition example_throwing : CRUDOperations :=
  registerObserver {| oid := 2%nat; update_throws := false |}
    (registerObserver {| oid := 1%nat; update_throws := true |} example).

End CRUD.

(** ** [executeTransaction] of the store

    The store hands a closure of its own to [executeTransaction] of the
    manager.  The closure changes the store, so the two methods of the
    manager are given once more, for a body that acts on the state [S] of
    its caller. *)

Module ManagerOver.
Import TM.

Section Over.
Context {S : Type}.
Variable lift : forall A, M World A -> M S A.
(** [fn(context)] *)
Variable fn : nat -> M S value.
(** [setTimeout(() => { ... this.retryTransaction(fn, options, retriesLeft)
    ... }, delay)], with the promise that the closure settles. *)
Variable later : Z -> nat -> Z -> M S unit.
Variable options : TransactionOptions.

Definition retryTransaction (retriesLeft : Z) : M S result :=
  try_catch
    (let* context := lift _ (beginTransaction options) in
     let* r := fn context in
     let* _ := lift _ (commitTransaction context) in
     ret (RValue r))
    (fun error =>
       if (1 <? retriesLeft) && truthy_num (retryDelay options) then
         let* p := lift _ new_promise in
         let* _ := later (retriesLeft - 1) p (default 0 (retryDelay options)) in
         ret (RPromise p)
       else throw error).

Definition executeTransaction : M S result :=
  let* context := lift _ (beginTransaction options) in
  try_catch
    (let* r := fn context in
     let* _ := lift _ (commitTransaction context) in
     ret (RValue r))
    (fun error =>
       let* _ := lift _ (rollbackTransaction context) in
       if retry_enabled options
       then retryTransaction (default 0 (maxRetries options))
       else throw error).

End Over.

(** The caller whose state is the manager itself. *)
Definition here : forall A, M World A -> M World A := fun _ m => m.

(** A [setTimeout] that keeps nothing. *)
Definition no_timer : Z -> nat -> Z -> M World unit := fun _ _ _ => ret tt.

(** Bodies: one that returns 1; one that commits its own context and then
    returns 1; one that throws; one that rolls back its own context and then
    throws. *)
Definition returns_1 : nat -> M World value := fun _ => ret (VNum 1).

Definition commits_itself : nat -> M World value :=
  fun context => let* _ := commitTransaction context in ret (VNum 1).

Definition throws_0 : nat -> M World value := fun _ => throw (ErrUser 0).

Definition rolls_back_and_throws : nat -> M World value :=
  fun context => let* _ := rollbackTransaction context in throw (ErrUser 0).

End ManagerOver.

Module StoreTx.
Import TM Store.

(** A transaction body for the store: what its [k]-th invocation, counted
    from 0 over the whole run, does.  It calls [setState] with each of
    [sets], and then returns or throws as [ends] says; it does nothing
    else: it ends no transaction of the manager. *)
Record Attempt := mkAttempt {
  sets : list value;
  ends : completion value
}.

Definition StoreBody := nat -> Attempt.

(** A retry that [setTimeout] holds: the closure of [retryTransaction] for
    a body of the store. *)
Record StoreRetry := mkStoreRetry {
  retry_due : Z;
  retry_fn : StoreBody;
  retry_options : TransactionOptions;
  retry_retriesLeft : Z;
  retry_promise : nat
}.

(** The store and its manager, with the retries that wait. *)
Record SysR := mkSysR {
  sys : Sys;
  retries : list StoreRetry
}.

Definition with_sys {A} (m : M Sys A) : M SysR A :=
  fun s => ((m (sys s)).1, {| sys := (m (sys s)).2; retries := retries s |}).

Definition with_manager : forall A, M World A -> M SysR A :=
  fun A m => with_sys (with_world m).

(** [fn(context)] *)
Definition call_fn (fn : StoreBody) (context : nat) : M SysR value :=
  let* k := gets (fun s => body_calls (trace (world (sys s)))) in
  let* _ := with_manager _ (modify (fun w => set_trace (trace w ++ [BodyCalled context]) w)) in
  let* _ := with_sys (StoreEffects.setStates (sets (fn k))) in
  fun s => (ends (fn k), s).

(** [context.metadata.id] *)
Definition metadata_id (context : nat) : M SysR nat :=
  let* w := gets (fun s => world (sys s)) in
  match contexts w !! context with
  | Some cx => ret (id (metadata cx))
  | None => throw TypeError
  end.

(** [context.data = { snapshot: { ...this.state } }] *)
Definition take_snapshot (context : nat) : M SysR unit :=
  let* st := gets (fun s => state (store (sys s))) in
  let* snapshot := with_sys (literal (fun h => props h (VRef st))) in
  let* d := with_sys (literal (fun _ => {["snapshot" := VRef snapshot]})) in
  with_sys (assign_data context (VRef d)).

(** The arrow function that the store passes to the manager (lines 210 to
    236). *)
Definition transaction_body (fn : StoreBody) (context : nat) : M SysR value :=
  let* _ := take_snapshot context in
  try_catch
    (let* result := call_fn fn context in
     let* i := metadata_id context in
     let* current := with_sys getState in
     let* t := gets (fun s => now (world (sys s))) in
     let* _ := with_manager _
       (logOperation i {| type := update; target := "store"; op_data := Some current;
                          timestamp := t |}) in
     ret result)
    (fun error =>
       let* _ := with_sys (restore context) in
       throw error).

(** [setTimeout] of the retry closure. *)
Definition later (fn : StoreBody) (options : TransactionOptions)
    (retriesLeft : Z) (p : nat) (delay : Z) : M SysR unit :=
  modify (fun s =>
    {| sys := sys s;
       retries := retries s ++
         [{| retry_due := now (world (sys s)) + clamp_delay delay;
             retry_fn := fn; retry_options := options;
             retry_retriesLeft := retriesLeft; retry_promise := p |}] |}).

Definition executeTransaction (fn : StoreBody) (options : TransactionOptions)
    : M SysR result :=
  ManagerOver.executeTransaction with_manager (transaction_body fn) (later fn options)
    options.

(** The number of calls of [next] of the observers so far. *)
Definition next_count (s : SysR) : nat :=
  length (Observed.next_calls (trace (world (sys s)))).

(** The context that the next [beginTransaction] creates, and the id that it
    gets. *)
Definition next_context (s : SysR) : nat := fresh (dom (contexts (world (sys s)))).

Definition next_id (s : SysR) : nat := uuid (world (sys s)).

(** What the body does when it is called in [s]. *)
Definition attempt (fn : StoreBody) (s : SysR) : Attempt :=
  fn (body_calls (trace (world (sys s)))).

(** The value that the observers were told last is an object with the
    properties [o]. *)
Definition last_told (s : SysR) (o : obj) : Prop :=
  exists l, Subject.lastValue (subject (store (sys s))) = VRef l /\
            heap (world (sys s)) !! l = Some o.

(** The state of the store and the objects among [ps] exist. *)
Definition exist_in (s : SysR) (ps : list value) : Prop :=
  is_Some (heap (world (sys s)) !! state (store (sys s))) /\
  forall p l, p ∈ ps -> p = VRef l -> is_Some (heap (world (sys s)) !! l).

(** The store [{count: 0}] with one subscriber, after the object literal
    [{count: 99}], with no retry waiting; and the reference to that
    object. *)
Definition subscribed : SysR :=
  {| sys := StoreEffects.allocated {["count" := VNum 99]} Scenario.subscribed_store;
     retries := [] |}.

Definition ninety_nine : value :=
  VRef (fresh (dom (heap (world Scenario.subscribed_store)))).

(** A body that calls [setState({count: 99})] and throws, and one that
    calls it and returns 1. *)
Definition sets_and_throws : StoreBody :=
  fun _ => {| sets := [ninety_nine]; ends := Throw (ErrUser 0) |}.

Definition sets_and_returns : StoreBody :=
  fun _ => {| sets := [ninety_nine]; ends := Normal (VNum 1) |}.

End StoreTx.
(** * Properties *)

(** ** The subject *)

Section SubjectFacts.
Import Subject.

Lemma next_closed v s tr :
  _isClosed s = true -> next v (s, tr) = (Normal tt, (s, tr)).
Proof. destruct s; simpl; intros ->; reflexivity. Qed.

Lemma next_open v s tr :
  _isClosed s = false ->
  next v (s, tr) =
    (Normal tt,
     ({| observers := observers s; _isClosed := false; lastValue := v;
         _hasValue := true |},
      tr ++ deliver (fun o => CalledNext o v) next_throws "Error in observer.next:"
                    (observers s))).
Proof. destruct s; simpl; intros ->; reflexivity. Qed.

Lemma complete_open s tr :
  _isClosed s = false ->
  complete (s, tr) =
    (Normal tt,
     ({| observers := []; _isClosed := true; lastValue := lastValue s;
         _hasValue := _hasValue s |},
      tr ++ deliver CalledComplete complete_throws "Error in observer.complete:"
                    (observers s))).
Proof. destruct s; simpl; intros ->; reflexivity. Qed.

Lemma error_open err s tr :
  _isClosed s = false ->
  error err (s, tr) =
    (Normal tt,
     ({| observers := []; _isClosed := true; lastValue := lastValue s;
         _hasValue := _hasValue s |},
      tr ++ deliver (fun o => CalledError o err) error_throws "Error in observer.error:"
                    (observers s))).
Proof. destruct s; simpl; intros ->; reflexivity. Qed.

Lemma complete_closed s tr : _isClosed (complete (s, tr)).2.1 = true.
Proof. destruct s as [obs [] lv hv]; reflexivity. Qed.

Lemma error_closed err s tr : _isClosed (error err (s, tr)).2.1 = true.
Proof. destruct s as [obs [] lv hv]; reflexivity. Qed.

(** What [subscribe] does to the subject, whatever the callbacks do. *)
Lemma subscribe_subject a s tr :
  (subscribe a (s, tr)).2.1 =
    {| observers := observers s ++ [make_observer a]; _isClosed := _isClosed s;
       lastValue := lastValue s; _hasValue := _hasValue s |}.
Proof.
  destruct s as [obs cl lv hv]. unfold subscribe, bind, call, emit, modify, gets. simpl.
  destruct (hv && is_defined lv), (next_throws (make_observer a)), cl,
    (complete_throws (make_observer a)); reflexivity.
Qed.

(** The trace of [subscribe]: the replay of the last value, when there is a
    defined one, then [complete()] when the subject is closed. *)
Lemma subscribe_trace a s tr :
  (subscribe a (s, tr)).2.2 =
    tr ++ (if _hasValue s && is_defined (lastValue s)
           then [CalledNext (oid (make_observer a)) (lastValue s)] else [])
       ++ (if _hasValue s && is_defined (lastValue s) && next_throws (make_observer a)
           then []
           else if _isClosed s then [CalledComplete (oid (make_observer a))] else []).
Proof.
  destruct s as [obs cl lv hv]. unfold subscribe, bind, call, emit, modify, gets. simpl.
  destruct (hv && is_defined lv), (next_throws (make_observer a)), cl,
    (complete_throws (make_observer a)); simpl; rewrite ?app_nil_r, <-?app_assoc;
    reflexivity.
Qed.

Lemma Subject_subscribe_closed a s tr :
  _isClosed (subscribe a (s, tr)).2.1 = _isClosed s.
Proof. by rewrite subscribe_subject. Qed.

Lemma unsubscribe_subject sub s tr :
  _isClosed (unsubscribe sub (s, tr)).2.1 = _isClosed s /\
  lastValue (unsubscribe sub (s, tr)).2.1 = lastValue s /\
  _hasValue (unsubscribe sub (s, tr)).2.1 = _hasValue s /\
  (unsubscribe sub (s, tr)).2.2 = tr.
Proof. destruct s, sub as [[] o]; simpl; auto. Qed.

End SubjectFacts.

(** What the observers see of a list of events. *)

Section ObservedFacts.
Import Subject Observed.

Lemma next_calls_deliver v throws msg l :
  next_calls (deliver (fun o => CalledNext o v) throws msg l) = map (fun o => (oid o, v)) l.
Proof.
  induction l as [|o l IH]; [done|]. simpl. destruct (throws o); simpl; by rewrite IH.
Qed.

Lemma complete_calls_deliver throws msg l :
  complete_calls (deliver CalledComplete throws msg l) = map oid l.
Proof.
  induction l as [|o l IH]; [done|]. simpl. destruct (throws o); simpl; by rewrite IH.
Qed.

Lemma error_calls_deliver err throws msg l :
  error_calls (deliver (fun o => CalledError o err) throws msg l)
    = map (fun o => (oid o, err)) l.
Proof.
  induction l as [|o l IH]; [done|]. simpl. destruct (throws o); simpl; by rewrite IH.
Qed.

Lemma next_calls_app l1 l2 : next_calls (l1 ++ l2) = next_calls l1 ++ next_calls l2.
Proof. unfold next_calls. apply omap_app. Qed.

End ObservedFacts.


Section SubjectClaims.
Import Subject.

(** Right after a termination that took effect no observer is left. *)
Lemma terminated_count_zero s tr err :
  _isClosed s = false ->
  getObserverCount (complete (s, tr)).2.1 = 0%nat /\
  getObserverCount (error err (s, tr)).2.1 = 0%nat.
Proof. intros H. by rewrite complete_open, error_open. Qed.

(** C6 (the code departs from the claim).  On a terminated subject [next]
    is inert and the subject stays terminated, but [subscribe] still pushes
    the observer: each [subscribe] made after the termination raises
    [getObserverCount()] by one, so that the count is not 0 afterwards. *)
Theorem subscribe_after_termination_counted (a : subscribe_args) (s : SafeFlowSubject)
    (tr : list event) :
  _isClosed s = true ->
  (forall v, next v (s, tr) = (Normal tt, (s, tr))) /\
  isClosed (subscribe a (s, tr)).2.1 = true /\
  getObserverCount (subscribe a (s, tr)).2.1 = S (getObserverCount s).
Proof.
  intros Hc. split; [|split].
  - intros v. by apply next_closed.
  - by rewrite subscribe_subject.
  - rewrite subscribe_subject. unfold getObserverCount; simpl.
    rewrite length_app; simpl. lia.
Qed.

Lemma subscribe_after_termination_counted_witness :
  _isClosed Scenario.completed = true /\
  ((forall v, next v (Scenario.completed, []) = (Normal tt, (Scenario.completed, []))) /\
   isClosed (subscribe (ArgNone 0) (Scenario.completed, [])).2.1 = true /\
   getObserverCount (subscribe (ArgNone 0) (Scenario.completed, [])).2.1 = 1%nat).
Proof.
  split; [reflexivity|].
  apply (subscribe_after_termination_counted (ArgNone 0) Scenario.completed []).
  reflexivity.
Defined.

(** C7, as stated, fails: a subject that received [next(undefined)] holds a
    value and is open, and [subscribe] returns without a call of the new
    observer's [next]: the trace stays empty. *)
Lemma undefined_is_not_replayed :
  (let* _ := next VUndefined in subscribe (ArgFunction 0 false None None)) (new, []) =
    (Normal {| _closed := false; onUnsubscribe := 0 |},
     ({| observers := [make_observer (ArgFunction 0 false None None)];
         _isClosed := false; lastValue := VUndefined; _hasValue := true |},
      [])).
Proof. reflexivity. Qed.

(** C7 (amended).  On a subject that is open and holds a value other than
    [undefined], [subscribe] calls the new observer's [next] with that value
    before it returns, and calls nothing else. *)
Theorem subscribe_replays_last_value (a : subscribe_args) (s : SafeFlowSubject)
    (tr : list event) :
  _isClosed s = false ->
  _hasValue s = true ->
  lastValue s <> VUndefined ->
  (subscribe a (s, tr)).2.2 = tr ++ [CalledNext (oid (make_observer a)) (lastValue s)].
Proof.
  intros Hc Hv Hd. rewrite subscribe_trace, Hc, Hv.
  assert (is_defined (lastValue s) = true) as -> by (by destruct (lastValue s)).
  simpl. destruct (next_throws (make_observer a)); by rewrite ?app_nil_r.
Qed.

Lemma subscribe_replays_last_value_witness :
  _isClosed Scenario.holding_one = false /\
  _hasValue Scenario.holding_one = true /\
  lastValue Scenario.holding_one <> VUndefined /\
  (subscribe (ArgNone 5) (Scenario.holding_one, [])).2.2 = [CalledNext 5 (VNum 1)].
Proof.
  split; [reflexivity|]. split; [reflexivity|]. split; [discriminate|].
  apply (subscribe_replays_last_value (ArgNone 5) Scenario.holding_one []);
    [reflexivity | reflexivity | discriminate].
Defined.

(** [next] records its argument as the latest value of an open subject. *)
Lemma next_records v s tr :
  _isClosed s = false ->
  _hasValue (next v (s, tr)).2.1 = true /\ lastValue (next v (s, tr)).2.1 = v /\
  _isClosed (next v (s, tr)).2.1 = false.
Proof. intros H. by rewrite next_open. Qed.

End SubjectClaims.

(** ** The transaction manager of safeflow-reactive *)

Section TMFacts.
Import TM Effects.

Lemma beginTransaction_eq options w :
  beginTransaction options w = (Normal (fresh (dom (contexts w))), began options w).
Proof.
  destruct w.
  unfold beginTransaction, began, new_context, bind, gets, modify, ret, setTimeout; simpl.
  destruct (truthy_num _); simpl; rewrite ?app_nil_r; reflexivity.
Qed.

Lemma finish_ok s context cx transaction tx w :
  contexts w !! context = Some cx ->
  activeTransactions w !! id (metadata cx) = Some transaction ->
  contexts w !! transaction = Some tx ->
  status (metadata tx) = PENDING ->
  finish s context w = (Normal tt, finished s (id (metadata cx)) transaction tx w).
Proof.
  intros Hc Ha Ht Hp. unfold finish, bind, gets; simpl.
  rewrite Hc; simpl. rewrite Ha; simpl. rewrite Ht; simpl. rewrite Hp; simpl.
  reflexivity.
Qed.

Lemma finish_not_found s context cx w :
  contexts w !! context = Some cx ->
  activeTransactions w !! id (metadata cx) = None ->
  finish s context w = (Throw (ErrNotFound (id (metadata cx))), w).
Proof.
  intros Hc Ha. unfold finish, bind, gets; simpl. rewrite Hc; simpl. rewrite Ha.
  reflexivity.
Qed.

Lemma finish_not_pending s context cx transaction tx w :
  contexts w !! context = Some cx ->
  activeTransactions w !! id (metadata cx) = Some transaction ->
  contexts w !! transaction = Some tx ->
  status (metadata tx) <> PENDING ->
  finish s context w = (Throw (ErrNotPending (id (metadata cx))), w).
Proof.
  intros Hc Ha Ht Hp. unfold finish, bind, gets; simpl.
  rewrite Hc; simpl. rewrite Ha; simpl. rewrite Ht; simpl.
  destruct (status (metadata tx)); done.
Qed.

(** A transaction ends once: a second [commitTransaction] or
    [rollbackTransaction] of the same context finds it gone. *)
Lemma finish_twice s s' context cx w :
  contexts w !! context = Some cx ->
  activeTransactions w !! id (metadata cx) = Some context ->
  status (metadata cx) = PENDING ->
  finish s' context (finished s (id (metadata cx)) context cx w) =
    (Throw (ErrNotFound (id (metadata cx))),
     finished s (id (metadata cx)) context cx w).
Proof.
  intros Hc Ha Hp.
  apply (finish_not_found s' context (set_status s (now w) cx)); simpl.
  - apply lookup_insert_eq.
  - apply lookup_delete_eq.
Qed.

Lemma body_calls_snoc tr c : body_calls (tr ++ [BodyCalled c]) = S (body_calls tr).
Proof. unfold body_calls. rewrite filter_app, length_app. simpl. lia. Qed.

Lemma call_body_eq fn c w : call_body fn c w = (fn (body_calls (trace w)), called c w).
Proof. reflexivity. Qed.

(** [executeTransaction] when the body of the first attempt throws: the
    context is rolled back, and then the options of the caller decide. *)
Lemma executeTransaction_fails fn options w e :
  fn (body_calls (trace w)) = Throw e ->
  executeTransaction fn options w =
    if retry_enabled options
    then retryTransaction fn options (default 0 (maxRetries options))
           (failed_attempt options w)
    else (Throw e, failed_attempt options w).
Proof.
  intros Hfn. unfold executeTransaction, bind at 1. rewrite beginTransaction_eq.
  unfold try_catch, bind at 1. rewrite call_body_eq.
  change (trace (began options w)) with (trace w). rewrite Hfn.
  unfold bind at 1. unfold rollbackTransaction.
  rewrite (finish_ok ROLLED_BACK _ (new_context options w) (fresh (dom (contexts w)))
             (new_context options w)); simpl; try apply lookup_insert_eq; try reflexivity.
  unfold failed_attempt. destruct (retry_enabled options); reflexivity.
Qed.

(** [executeTransaction] when the body returns. *)
Lemma executeTransaction_succeeds fn options w v :
  fn (body_calls (trace w)) = Normal v ->
  executeTransaction fn options w =
    (Normal (RValue v),
     finished COMMITTED (uuid w) (fresh (dom (contexts w))) (new_context options w)
       (called (fresh (dom (contexts w))) (began options w))).
Proof.
  intros Hfn. unfold executeTransaction, bind at 1. rewrite beginTransaction_eq.
  unfold try_catch, bind at 1. rewrite call_body_eq.
  change (trace (began options w)) with (trace w). rewrite Hfn.
  unfold bind at 1. unfold commitTransaction.
  rewrite (finish_ok COMMITTED _ (new_context options w) (fresh (dom (contexts w)))
             (new_context options w)); simpl; try apply lookup_insert_eq; reflexivity.
Qed.

(** [retryTransaction] when the body throws: no rollback; a timer and a
    promise when retries are left and the caller gave a delay, the error
    otherwise. *)
Lemma retryTransaction_fails fn options n w e :
  fn (body_calls (trace w)) = Throw e ->
  retryTransaction fn options n w =
    if (1 <? n) && truthy_num (retryDelay options)
    then (let* p := new_promise in
          let* _ := setTimeout (Retry fn options (n - 1) p)
                               (default 0 (retryDelay options)) in
          ret (RPromise p)) (failed_retry options w)
    else (Throw e, failed_retry options w).
Proof.
  intros Hfn. unfold retryTransaction, try_catch, bind at 1. rewrite beginTransaction_eq.
  unfold bind at 1. rewrite call_body_eq.
  change (trace (began options w)) with (trace w). rewrite Hfn.
  destruct ((1 <? n) && truthy_num (retryDelay options)); reflexivity.
Qed.

Lemma retry_enabled_true options N :
  autoRetry options = Some true -> maxRetries options = Some N -> 0 < N ->
  retry_enabled options = true.
Proof.
  intros Ha Hm HN. unfold retry_enabled. rewrite Ha, Hm. simpl.
  apply andb_true_iff; split.
  - apply negb_true_iff, Z.eqb_neq. lia.
  - by apply Z.ltb_lt.
Qed.

Lemma failed_retry_pending options w :
  activeTransactions (failed_retry options w) !! uuid w = Some (fresh (dom (contexts w))) /\
  contexts (failed_retry options w) !! fresh (dom (contexts w)) =
    Some (new_context options w).
Proof. simpl. split; apply lookup_insert_eq. Qed.

(** The first attempt does end: after it the context is rolled back and out
    of the active set. *)
Lemma failed_attempt_rolled_back options w :
  activeTransactions (failed_attempt options w) !! uuid w = None /\
  contexts (failed_attempt options w) !! fresh (dom (contexts w)) =
    Some (set_status ROLLED_BACK (now w) (new_context options w)).
Proof. simpl. split; [apply lookup_delete_eq | apply lookup_insert_eq]. Qed.

(** C2 (the code departs from the claim).  When the retry procedure is
    entered and the body of the retry throws as well, the context that the
    retry began (the transaction with the id after that of the first
    attempt) is still in the active set, with status PENDING, when
    [executeTransaction] returns or throws: [retryTransaction] has no
    rollback. *)
Theorem retry_attempt_left_pending (fn : Body) (options : TransactionOptions) (N : Z)
    (w : World) (e0 e1 : exn) :
  autoRetry options = Some true ->
  maxRetries options = Some N ->
  0 < N ->
  fn (body_calls (trace w)) = Throw e0 ->
  fn (S (body_calls (trace w))) = Throw e1 ->
  exists c cx,
    activeTransactions (executeTransaction fn options w).2 !! S (uuid w) = Some c /\
    contexts (executeTransaction fn options w).2 !! c = Some cx /\
    id (metadata cx) = S (uuid w) /\
    status (metadata cx) = PENDING.
Proof.
  intros Ha Hm HN H0 H1.
  rewrite (executeTransaction_fails _ _ _ _ H0), (retry_enabled_true _ _ Ha Hm HN).
  rewrite (retryTransaction_fails _ _ _ _ e1).
  2:{ unfold failed_attempt; simpl. by rewrite body_calls_snoc. }
  destruct (failed_retry_pending options (failed_attempt options w)) as [Hact Hctx].
  exists (fresh (dom (contexts (failed_attempt options w)))),
         (new_context options (failed_attempt options w)).
  destruct ((1 <? default 0 (maxRetries options)) && truthy_num (retryDelay options));
    (split; [exact Hact | split; [exact Hctx | split; reflexivity]]).
Qed.

Lemma retry_attempt_left_pending_witness :
  autoRetry (retry_options 1) = Some true /\
  maxRetries (retry_options 1) = Some 1 /\
  0 < 1 /\
  always_fails ErrUser (body_calls (trace empty_world)) = Throw (ErrUser 0) /\
  always_fails ErrUser (S (body_calls (trace empty_world))) = Throw (ErrUser 1) /\
  exists c cx,
    activeTransactions
      (executeTransaction (always_fails ErrUser) (retry_options 1) empty_world).2
      !! S (uuid empty_world) = Some c /\
    contexts (executeTransaction (always_fails ErrUser) (retry_options 1) empty_world).2
      !! c = Some cx /\
    id (metadata cx) = S (uuid empty_world) /\
    status (metadata cx) = PENDING.
Proof.
  repeat (split; [reflexivity || lia|]).
  apply (retry_attempt_left_pending (always_fails ErrUser) (retry_options 1) 1
           empty_world (ErrUser 0) (ErrUser 1)); reflexivity || lia.
Defined.

(** The same run, evaluated: the call throws the error of the retry, and the
    transaction 1 that the retry began stays active. *)
Example retry_once_run :
  (executeTransaction (always_fails ErrUser) (retry_options 1) empty_world).1
    = Throw (ErrUser 1) /\
  isTransactionActive 1
    (executeTransaction (always_fails ErrUser) (retry_options 1) empty_world).2 = true /\
  isTransactionActive 0
    (executeTransaction (always_fails ErrUser) (retry_options 1) empty_world).2 = false.
Proof. vm_compute. done. Qed.

(** C3 (the code departs from the claim).  With the options [{autoRetry:
    true, maxRetries: N}] and a body that always throws, the body is invoked
    twice, whatever [N >= 1] is, and the error of the second invocation
    propagates: the delay that [retryTransaction] waits for is read from the
    options of the caller, where it is missing, and without it there is no
    further retry. *)
Theorem retry_without_delay_runs_twice (N : Z) (err : nat -> exn) (w : World) :
  1 <= N ->
  exists w',
    executeTransaction (always_fails err) (retry_options N) w
      = (Throw (err (S (body_calls (trace w)))), w') /\
    body_calls (trace w') = (body_calls (trace w) + 2)%nat.
Proof.
  intros HN. exists (failed_retry (retry_options N) (failed_attempt (retry_options N) w)).
  rewrite (executeTransaction_fails _ _ _ (err (body_calls (trace w)))) by reflexivity.
  rewrite (retry_enabled_true _ N) by (done || lia).
  rewrite (retryTransaction_fails _ _ _ _ (err (S (body_calls (trace w))))).
  2:{ unfold failed_attempt, always_fails; simpl. by rewrite body_calls_snoc. }
  rewrite andb_false_r. split; [reflexivity|].
  unfold failed_retry, failed_attempt; simpl. rewrite !body_calls_snoc. lia.
Qed.

Lemma retry_without_delay_runs_twice_witness :
  1 <= 2 /\
  exists w',
    executeTransaction (always_fails ErrUser) (retry_options 2) empty_world
      = (Throw (ErrUser (S (body_calls (trace empty_world)))), w') /\
    body_calls (trace w') = (body_calls (trace empty_world) + 2)%nat.
Proof.
  split; [lia|].
  apply (retry_without_delay_runs_twice 2 ErrUser empty_world). lia.
Defined.

(** The body that fails twice never gets its third invocation under
    [{autoRetry: true, maxRetries: 2}]: the call throws the second error. *)
Example fails_twice_never_succeeds :
  (executeTransaction (fails_twice (VNum 7)) (retry_options 2) empty_world).1
    = Throw (ErrUser 1) /\
  body_calls
    (trace (executeTransaction (fails_twice (VNum 7)) (retry_options 2) empty_world).2)
    = 2%nat /\
  timers (executeTransaction (fails_twice (VNum 7)) (retry_options 2) empty_world).2
    = [ {| due := 30000; callback := Watchdog 0 0 30000 |};
        {| due := 30000; callback := Watchdog 1 1 30000 |} ].
Proof. vm_compute. done. Qed.

(** With an explicit [retryDelay] the retries do go on, from the timer: the
    call returns a promise after two invocations, and the third invocation,
    one second later, fulfils it. *)
Example fails_twice_with_delay :
  (executeTransaction (fails_twice (VNum 7)) (retry_options_delay 2 1000) empty_world).1
    = Normal (RPromise 0) /\
  body_calls
    (trace (executeTransaction (fails_twice (VNum 7)) (retry_options_delay 2 1000)
              empty_world).2) = 2%nat /\
  body_calls
    (trace (run 1 (executeTransaction (fails_twice (VNum 7)) (retry_options_delay 2 1000)
                     empty_world).2)) = 3%nat /\
  now (run 1 (executeTransaction (fails_twice (VNum 7)) (retry_options_delay 2 1000)
                empty_world).2) = 1000 /\
  promise_outcome 1
    (run 1 (executeTransaction (fails_twice (VNum 7)) (retry_options_delay 2 1000)
              empty_world).2) 0 = Fulfilled (VNum 7).
Proof. vm_compute. done. Qed.

(** C4 (the code departs from the claim).  With [autoRetry] set and no
    [maxRetries] in the options of the call, the merged options allow the
    retry (their [maxRetries] is the default, 3), and yet a failing body is
    invoked once and its error propagates: the test of line 140 reads the
    options of the caller, not the merged ones. *)
Theorem default_maxRetries_not_consulted (fn : Body) (options : TransactionOptions)
    (w : World) (e : exn) :
  autoRetry options = Some true ->
  maxRetries options = None ->
  fn (body_calls (trace w)) = Throw e ->
  maxRetries (merge DEFAULT_TRANSACTION_OPTIONS options) = Some 3 /\
  retry_enabled (merge DEFAULT_TRANSACTION_OPTIONS options) = true /\
  executeTransaction fn options w = (Throw e, failed_attempt options w) /\
  body_calls (trace (failed_attempt options w)) = S (body_calls (trace w)).
Proof.
  intros Ha Hm Hfn. split; [|split; [|split]].
  - unfold merge; simpl. by rewrite Hm.
  - unfold retry_enabled, merge; simpl. by rewrite Ha, Hm.
  - rewrite (executeTransaction_fails _ _ _ _ Hfn).
    unfold retry_enabled. rewrite Hm. by rewrite andb_false_r.
  - unfold failed_attempt; simpl. apply body_calls_snoc.
Qed.

Lemma default_maxRetries_not_consulted_witness :
  autoRetry autoRetry_only = Some true /\
  maxRetries autoRetry_only = None /\
  always_fails ErrUser (body_calls (trace empty_world)) = Throw (ErrUser 0) /\
  maxRetries (merge DEFAULT_TRANSACTION_OPTIONS autoRetry_only) = Some 3 /\
  retry_enabled (merge DEFAULT_TRANSACTION_OPTIONS autoRetry_only) = true /\
  executeTransaction (always_fails ErrUser) autoRetry_only empty_world
    = (Throw (ErrUser 0), failed_attempt autoRetry_only empty_world) /\
  body_calls (trace (failed_attempt autoRetry_only empty_world))
    = S (body_calls (trace empty_world)).
Proof.
  repeat (split; [reflexivity|]).
  apply (default_maxRetries_not_consulted (always_fails ErrUser) autoRetry_only
           empty_world (ErrUser 0)); reflexivity.
Defined.

(** The part of C4 that the code does: the retry procedure is entered
    exactly when the options of the caller pass the test, and without
    [autoRetry] the error of the body propagates after one invocation. *)
Lemma retry_gate (fn : Body) (options : TransactionOptions) (w : World) (e : exn) :
  fn (body_calls (trace w)) = Throw e ->
  retry_enabled options = false ->
  executeTransaction fn options w = (Throw e, failed_attempt options w).
Proof. intros Hfn Hr. by rewrite (executeTransaction_fails _ _ _ _ Hfn), Hr. Qed.

Lemma without_autoRetry_no_retry (fn : Body) (options : TransactionOptions) (w : World)
    (e : exn) :
  fn (body_calls (trace w)) = Throw e ->
  truthy_bool (autoRetry options) = false ->
  executeTransaction fn options w = (Throw e, failed_attempt options w) /\
  body_calls (trace (failed_attempt options w)) = S (body_calls (trace w)).
Proof.
  intros Hfn Ha. split.
  - apply retry_gate; [done|]. unfold retry_enabled. by rewrite Ha.
  - unfold failed_attempt; simpl. apply body_calls_snoc.
Qed.

End TMFacts.

Section RetryChain.
Import TM Effects.

Variable err : nat -> exn.
Variable options : TransactionOptions.
Hypothesis no_watchdog : timeout options = Some 0.
Hypothesis delay : truthy_num (retryDelay options) = true.

Lemma began_timers w : timers (began options w) = timers w.
Proof. unfold began, merge; simpl. rewrite no_watchdog; simpl. apply app_nil_r. Qed.

(** The last retry: its error rejects the promise. *)
Lemma tick_last_retry w p t :
  timers w = [{| due := t; callback := Retry (always_fails err) options 1 p |}] ->
  exists w',
    tick w = Some w' /\
    timers w' = [] /\
    trace w' = trace w ++ [BodyCalled (fresh (dom (contexts w)))] /\
    promises w' = <[p := Rejected (err (body_calls (trace w)))]> (promises w).
Proof.
  intros Ht. unfold tick. rewrite Ht. simpl. rewrite Z.eqb_refl. simpl.
  unfold retry_later, try_catch, bind at 1.
  rewrite (retryTransaction_fails _ _ _ _ (err (body_calls (trace w)))) by reflexivity.
  simpl. eexists. split; [reflexivity|]. simpl.
  rewrite no_watchdog. simpl. done.
Qed.

(** A retry that is not the last: a new promise, which the promise of the
    timer follows, and a new timer for the next retry. *)
Lemma tick_retry_again w p t n :
  1 < n ->
  timers w = [{| due := t; callback := Retry (always_fails err) options n p |}] ->
  exists w' t',
    tick w = Some w' /\
    timers w' = [{| due := t';
                    callback := Retry (always_fails err) options (n - 1)
                                  (fresh (dom (promises w))) |}] /\
    trace w' = trace w ++ [BodyCalled (fresh (dom (contexts w)))] /\
    promises w' =
      <[p := Follows (fresh (dom (promises w)))]>
        (<[fresh (dom (promises w)) := Pending]> (promises w)).
Proof.
  intros Hn Ht. unfold tick. rewrite Ht. simpl. rewrite Z.eqb_refl. simpl.
  unfold retry_later, try_catch, bind at 1.
  rewrite (retryTransaction_fails _ _ _ _ (err (body_calls (trace w)))) by reflexivity.
  assert ((1 <? n) = true) as -> by (by apply Z.ltb_lt).
  rewrite delay. simpl. eexists. eexists. split; [reflexivity|]. simpl.
  rewrite no_watchdog. simpl. done.
Qed.

Lemma retry_chain (m : nat) :
  forall w p t,
    timers w = [{| due := t;
                   callback := Retry (always_fails err) options (Z.of_nat (S m)) p |}] ->
    is_Some (promises w !! p) ->
    timers (run (S m) w) = [] /\
    body_calls (trace (run (S m) w)) = (body_calls (trace w) + S m)%nat /\
    promise_outcome (S m) (run (S m) w) p
      = Rejected (err (body_calls (trace w) + m)%nat) /\
    (forall q, is_Some (promises w !! q) -> q <> p ->
               promises (run (S m) w) !! q = promises w !! q).
Proof.
  induction m as [|m IH]; intros w p t Ht Hp.
  - destruct (tick_last_retry w p t Ht) as (w' & E & T & Tr & P).
    simpl. rewrite E. repeat split.
    + exact T.
    + rewrite Tr, body_calls_snoc. lia.
    + rewrite P, lookup_insert_eq. f_equal. f_equal. lia.
    + intros q _ Hq. rewrite P. by rewrite lookup_insert_ne.
  - destruct (tick_retry_again w p t (Z.of_nat (S (S m)))) as (w' & t' & E & T & Tr & P);
      [lia | exact Ht |].
    replace (Z.of_nat (S (S m)) - 1) with (Z.of_nat (S m)) in T by lia.
    set (q := fresh (dom (promises w))) in *.
    assert (q <> p) as Hqp.
    { intros Eq. pose proof (is_fresh (dom (promises w))) as Hf. fold q in Hf.
      rewrite Eq in Hf. by apply Hf, elem_of_dom. }
    assert (is_Some (promises w' !! q)) as Hq.
    { rewrite P, lookup_insert_ne by done. rewrite lookup_insert_eq. eauto. }
    destruct (IH w' q t' T Hq) as (T' & C' & O' & F').
    change (run (S (S m)) w) with (match tick w with Some w' => run (S m) w' | None => w end).
    rewrite E. repeat split.
    + exact T'.
    + rewrite C', Tr, body_calls_snoc. lia.
    + assert (promises (run (S m) w') !! p = Some (Follows q)) as Hfollow.
      { rewrite F'; [|rewrite P, lookup_insert_eq; eauto | done].
        by rewrite P, lookup_insert_eq. }
      change (promise_outcome (S (S m)) (run (S m) w') p)
        with (match promises (run (S m) w') !! p with
              | Some (Follows q) => promise_outcome (S m) (run (S m) w') q
              | Some s => s
              | None => Pending
              end).
      rewrite Hfollow, O', Tr, body_calls_snoc. f_equal. f_equal. lia.
    + intros q' Hq' Hne.
      assert (q' <> q) as Hne'.
      { intros Eq. pose proof (is_fresh (dom (promises w))) as Hf. fold q in Hf.
        rewrite <- Eq in Hf. by apply Hf, elem_of_dom. }
      rewrite F'.
      * rewrite P. rewrite lookup_insert_ne by done. by rewrite lookup_insert_ne.
      * rewrite P. rewrite lookup_insert_ne by done. by rewrite lookup_insert_ne.
      * done.
Qed.

End RetryChain.

Section RetryWithDelay.
Import TM Effects.

(** What the retry procedure does when the caller gives the delay (and
    switches the watchdog off): with [maxRetries = N + 2] and a body that
    always throws, [executeTransaction] returns a promise after two
    invocations; the [N + 1] timers that follow bring the invocations to
    [maxRetries + 1], and the promise is rejected with the error of the last
    one. *)
Lemma retry_with_delay_attempts (N : nat) (d : Z) (err : nat -> exn) (w : World) :
  d <> 0 ->
  timers w = [] ->
  exists p w1,
    executeTransaction (always_fails err) (patient_options (Z.of_nat (S (S N))) d) w
      = (Normal (RPromise p), w1) /\
    body_calls (trace w1) = (body_calls (trace w) + 2)%nat /\
    body_calls (trace (run (S N) w1)) = (body_calls (trace w) + S (S N) + 1)%nat /\
    promise_outcome (S N) (run (S N) w1) p
      = Rejected (err (body_calls (trace w) + S (S N))%nat) /\
    timers (run (S N) w1) = [].
Proof.
  intros Hd Ht.
  set (options := patient_options (Z.of_nat (S (S N))) d).
  assert (truthy_num (retryDelay options) = true) as Hdelay.
  { simpl. by apply negb_true_iff, Z.eqb_neq. }
  rewrite (executeTransaction_fails _ _ _ (err (body_calls (trace w)))) by reflexivity.
  rewrite (retry_enabled_true options (Z.of_nat (S (S N)))) by (reflexivity || lia).
  rewrite (retryTransaction_fails _ _ _ _ (err (S (body_calls (trace w))))).
  2:{ unfold failed_attempt, always_fails; simpl. by rewrite body_calls_snoc. }
  assert ((1 <? default 0 (maxRetries options)) = true) as -> by (apply Z.ltb_lt; simpl; lia).
  rewrite Hdelay. cbn [andb].
  set (w0 := failed_retry options (failed_attempt options w)).
  set (p := fresh (dom (promises w0))).
  eexists p, _. split; [reflexivity|].
  match goal with |- body_calls (trace ?x) = _ /\ _ => set (w1 := x) end.
  assert (trace w1 = trace w0) as Htr by reflexivity.
  assert (body_calls (trace w0) = (body_calls (trace w) + 2)%nat) as Hcalls.
  { subst w0. unfold failed_retry, failed_attempt; simpl. rewrite !body_calls_snoc. lia. }
  destruct (retry_chain err options eq_refl Hdelay N w1 p
              (now w0 + clamp_delay (default 0 (retryDelay options)))) as (T & C & O & _).
  - subst w1 w0. simpl. rewrite Ht. simpl.
    replace (Z.of_nat (S (S N)) - 1) with (Z.of_nat (S N)) by lia. reflexivity.
  - subst w1. simpl. rewrite lookup_insert_eq. eauto.
  - split; [by rewrite Htr|]. split; [rewrite C, Htr, Hcalls; lia|]. split; [|exact T].
    rewrite O, Htr, Hcalls. f_equal. f_equal. lia.
Qed.

End RetryWithDelay.

(** ** The transactional store *)

Section StoreFacts.
Import TM Store Effects StoreEffects Observed StoreObserved.

Lemma fresh_lookup (h : gmap loc obj) : h !! fresh (dom h) = None.
Proof. apply not_elem_of_dom, is_fresh. Qed.

Lemma fresh_insert_ne (o : obj) (l : loc) (h : gmap loc obj) :
  fresh (dom (<[l := o]> h)) <> l.
Proof.
  intros E. pose proof (fresh_lookup (<[l := o]> h)) as Hf.
  rewrite E in Hf. by rewrite lookup_insert_eq in Hf.
Qed.

Lemma insert_fresh_subseteq (o : obj) (h : gmap loc obj) : h ⊆ <[fresh (dom h) := o]> h.
Proof. apply insert_subseteq, fresh_lookup. Qed.

(** A copy of an object has the properties of the object, also when the
    reference dangles. *)
Lemma props_insert_copy (h : gmap loc obj) (l l' : loc) :
  h !! l' = None ->
  props (<[l' := props h (VRef l)]> h) (VRef l) = props h (VRef l).
Proof.
  intros Hl'. unfold props. destruct (decide (l' = l)) as [<-|Hne].
  - by rewrite lookup_insert_eq, Hl'.
  - by rewrite lookup_insert_ne.
Qed.

Lemma props_insert_empty (h : gmap loc obj) (l l' : loc) :
  h !! l' = None ->
  props (<[l' := ∅]> h) (VRef l) = props h (VRef l).
Proof.
  intros Hl'. unfold props. destruct (decide (l' = l)) as [<-|Hne].
  - by rewrite lookup_insert_eq, Hl'.
  - by rewrite lookup_insert_ne.
Qed.

Lemma props_weaken (h h' : gmap loc obj) (l : loc) (o : obj) :
  h ⊆ h' -> h !! l = Some o -> props h' (VRef l) = o.
Proof. intros Hsub Ho. unfold props. by rewrite (lookup_weaken _ _ _ _ Ho Hsub). Qed.

Lemma getState_eq s :
  getState s =
    (Normal (VRef (fresh (dom (heap (world s))))),
     allocated (props (heap (world s)) (VRef (state (store s)))) s).
Proof. destruct s as [[st ini sj] w]. reflexivity. Qed.

Lemma getState_props_eq s :
  getState_props s = props (heap (world s)) (VRef (state (store s))).
Proof.
  unfold getState_props. rewrite getState_eq. simpl. by rewrite lookup_insert_eq.
Qed.

Lemma literal_eq o s :
  literal o s = (Normal (fresh (dom (heap (world s)))), allocated (o (heap (world s))) s).
Proof. destruct s as [st w]. reflexivity. Qed.

Lemma publish_eq s :
  Subject._isClosed (subject (store s)) = false ->
  publish s = (Normal tt, published s).
Proof.
  destruct s as [[st ini [obs cl lv hv]] w]. simpl. intros ->. reflexivity.
Qed.

Lemma with_world_eq {A} (m : M World A) s r w' :
  m (world s) = (r, w') ->
  with_world m s = (r, {| store := store s; world := w' |}).
Proof. intros H. unfold with_world. by rewrite H. Qed.

Lemma setState_eq p s :
  Subject._isClosed (subject (store s)) = false ->
  setState p s =
    (Normal tt,
     published (set_state (fresh (dom (heap (world s))))
                  (allocated (spread2 (heap (world s)) (VRef (state (store s))) p) s))).
Proof.
  intros Hc. unfold setState, bind at 1, gets. unfold bind at 1. rewrite literal_eq.
  unfold bind at 1, modify. by apply publish_eq.
Qed.

Lemma frame_refl s : Subject._isClosed (subject (store s)) = false -> frame s s.
Proof. intros H. by unfold frame. Qed.

Lemma frame_trans s1 s2 s3 : frame s1 s2 -> frame s2 s3 -> frame s1 s3.
Proof.
  unfold frame. intros (H1 & H2 & H3 & H4 & H5) (G1 & G2 & G3 & G4 & G5).
  repeat split; try congruence. by etrans.
Qed.

Lemma published_frame s : frame s (published s).
Proof.
  unfold frame, published; simpl. repeat split; try done. apply insert_fresh_subseteq.
Qed.

(** The published object is a copy of the state. *)
Lemma published_value s :
  props (heap (world (published s))) (Subject.lastValue (subject (store (published s))))
    = getState_props s /\
  getState_props (published s) = getState_props s.
Proof.
  rewrite !getState_props_eq. simpl. split.
  - by rewrite lookup_insert_eq.
  - apply props_insert_copy, fresh_lookup.
Qed.

(** [publish] tells every observer a new copy of the state. *)
Lemma published_copy_intro s s1 :
  trace (world s1) = trace (world s) ->
  Subject.observers (subject (store s1)) = Subject.observers (subject (store s)) ->
  heap (world s) ⊆ heap (world s1) ->
  published_copy s (published s1).
Proof.
  intros Ht Ho Hh. exists (fresh (dom (heap (world s1)))).
  split.
  { destruct (heap (world s) !! fresh (dom (heap (world s1)))) as [o|] eqn:E; [|done].
    pose proof (lookup_weaken _ _ _ _ E Hh) as E'. by rewrite fresh_lookup in E'. }
  split.
  { destruct (published_value s1) as [_ ->]. rewrite getState_props_eq.
    simpl. by rewrite lookup_insert_eq. }
  split; [reflexivity|].
  simpl. by rewrite next_calls_app, next_calls_deliver, Ht, Ho.
Qed.

Lemma spread2_overrides (h : gmap loc obj) (a p : value) :
  overrides (props h p) (props h a) (spread2 h a p).
Proof.
  intros k. unfold spread2. rewrite lookup_union.
  by destruct (props h p !! k), (props h a !! k).
Qed.

Lemma setState_frame p s :
  Subject._isClosed (subject (store s)) = false ->
  exists s', setState p s = (Normal tt, s') /\ frame s s'.
Proof.
  intros Hc. eexists. split; [by apply setState_eq|].
  eapply frame_trans; [|apply published_frame].
  unfold frame; simpl. repeat split; try done. apply insert_fresh_subseteq.
Qed.

Lemma setStates_frame ps s :
  Subject._isClosed (subject (store s)) = false ->
  exists s', setStates ps s = (Normal tt, s') /\ frame s s'.
Proof.
  revert s. induction ps as [|p ps IH]; intros s Hc; simpl.
  - exists s. split; [reflexivity | by apply frame_refl].
  - destruct (setState_frame p s Hc) as (s1 & E1 & F1).
    destruct (IH s1) as (s2 & E2 & F2); [apply F1|].
    exists s2. split; [|by eapply frame_trans].
    unfold bind. by rewrite E1.
Qed.

(** What the store's [beginTransaction] establishes. *)
Lemma beginTransaction_spec options s :
  exists ctx s1 cx d snap,
    beginTransaction options s = (Normal ctx, s1) /\
    store s1 = store s /\
    trace (world s1) = trace (world s) /\
    heap (world s) ⊆ heap (world s1) /\
    contexts (world s1) !! ctx = Some cx /\
    activeTransactions (world s1) !! id (metadata cx) = Some ctx /\
    status (metadata cx) = PENDING /\
    data cx = VRef d /\
    heap (world s1) !! d = Some {["snapshot" := VRef snap]} /\
    heap (world s1) !! snap = Some (getState_props s).
Proof.
  rewrite getState_props_eq.
  destruct s as [st w].
  set (w1 := began options w).
  set (c := fresh (dom (contexts w))).
  set (snap := fresh (dom (heap w1))).
  set (h2 := <[snap := props (heap w1) (VRef (state st))]> (heap w1)).
  set (d := fresh (dom h2)).
  exists c.
  eexists. exists (set_data (VRef d) (new_context options w)), d, snap.
  split.
  { unfold beginTransaction, bind at 1.
    rewrite (with_world_eq (TM.beginTransaction options) {| store := st; world := w |} _ _
               (beginTransaction_eq options w)).
    unfold bind at 1, gets. unfold bind at 1. rewrite literal_eq.
    unfold bind at 1. rewrite literal_eq.
    unfold bind at 1, assign_data, with_world. simpl.
    rewrite lookup_insert_eq. reflexivity. }
  simpl. repeat split.
  - etrans; [apply insert_fresh_subseteq|]. etrans; [apply insert_fresh_subseteq|].
    apply insert_fresh_subseteq.
  - apply lookup_insert_eq.
  - apply lookup_insert_eq.
  - apply lookup_insert_eq.
  - rewrite lookup_insert_ne.
    + rewrite lookup_insert_eq. f_equal. apply props_insert_empty, fresh_lookup.
    + apply fresh_insert_ne.
Qed.


Lemma restore_snapshot s ctx cx d snap :
  contexts (world s) !! ctx = Some cx ->
  data cx = VRef d ->
  heap (world s) !! d = Some {["snapshot" := VRef snap]} ->
  restore ctx s =
    (Normal tt,
     set_state (fresh (dom (heap (world s))))
       (allocated (props (heap (world s)) (VRef snap)) s)).
Proof.
  intros Hc Hd Hh. unfold restore, bind at 1, gets. rewrite Hc, Hd.
  assert (get (heap (world s)) (VRef d) "snapshot" = VRef snap) as Hget.
  { unfold get, props. rewrite Hh. simpl. by rewrite lookup_singleton_eq. }
  rewrite Hget. cbn [truthy andb]. unfold bind at 1. rewrite literal_eq, Hget.
  reflexivity.
Qed.


(** [restore], with or without a snapshot. *)
Lemma restore_eq s ctx cx :
  contexts (world s) !! ctx = Some cx ->
  restore ctx s =
    (Normal tt,
     if truthy (data cx) && truthy (get (heap (world s)) (data cx) "snapshot")
     then set_state (fresh (dom (heap (world s))))
            (allocated (props (heap (world s)) (get (heap (world s)) (data cx) "snapshot")) s)
     else s).
Proof.
  intros Hc. unfold restore, bind at 1, gets. rewrite Hc.
  destruct (truthy (data cx) && truthy (get (heap (world s)) (data cx) "snapshot"));
    [|reflexivity].
  unfold bind at 1. rewrite literal_eq. reflexivity.
Qed.

(** The bookkeeping of the manager and the publication that end the store's
    [rollbackTransaction] and [commitTransaction]. *)
Lemma finish_and_publish st s ctx cx :
  Subject._isClosed (subject (store s)) = false ->
  contexts (world s) !! ctx = Some cx ->
  activeTransactions (world s) !! id (metadata cx) = Some ctx ->
  status (metadata cx) = PENDING ->
  (let* _ := with_world (finish st ctx) in publish) s =
    (Normal tt,
     published {| store := store s;
                  world := finished st (id (metadata cx)) ctx cx (world s) |}).
Proof.
  intros Hcl Hc Ha Hp. unfold bind.
  rewrite (with_world_eq (finish st ctx) s _ _
             (finish_ok st ctx cx ctx cx (world s) Hc Ha Hc Hp)).
  by apply publish_eq.
Qed.



(** [commitTransaction] of the store on a PENDING context. *)
Lemma store_commit_spec s ctx cx :
  Subject._isClosed (subject (store s)) = false ->
  contexts (world s) !! ctx = Some cx ->
  activeTransactions (world s) !! id (metadata cx) = Some ctx ->
  status (metadata cx) = PENDING ->
  exists s',
    commitTransaction ctx s = (Normal tt, s') /\
    state (store s') = state (store s) /\
    getState_props s' = getState_props s /\
    contexts (world s') !! ctx = Some (set_status COMMITTED (now (world s)) cx) /\
    activeTransactions (world s') !! id (metadata cx) = None /\
    trace (world s') =
      trace (world s) ++
      Subject.deliver (fun ob => CalledNext ob (Subject.lastValue (subject (store s'))))
        Subject.next_throws "Error in observer.next:"
        (Subject.observers (subject (store s))) /\
    props (heap (world s')) (Subject.lastValue (subject (store s'))) = getState_props s /\
    published_copy s s'.
Proof.
  intros Hcl Hc Ha Hp. eexists. split.
  { unfold commitTransaction, TM.commitTransaction.
    by apply (finish_and_publish COMMITTED s ctx cx). }
  match goal with |- context [published ?x] => set (s1 := x) end.
  destruct (published_value s1) as [Hv Hg].
  assert (getState_props s1 = getState_props s) as Hs1 by (by rewrite !getState_props_eq).
  split; [reflexivity|]. split; [by rewrite Hg|].
  split; [apply lookup_insert_eq|]. split; [apply lookup_delete_eq|].
  split; [reflexivity|]. split; [by rewrite Hv|].
  by apply published_copy_intro.
Qed.

(** [rollbackTransaction] of the store on a PENDING context, with or
    without a snapshot. *)
Lemma store_rollback_spec s ctx cx :
  Subject._isClosed (subject (store s)) = false ->
  contexts (world s) !! ctx = Some cx ->
  activeTransactions (world s) !! id (metadata cx) = Some ctx ->
  status (metadata cx) = PENDING ->
  exists s',
    rollbackTransaction ctx s = (Normal tt, s') /\
    contexts (world s') !! ctx = Some (set_status ROLLED_BACK (now (world s)) cx) /\
    activeTransactions (world s') !! id (metadata cx) = None /\
    heap (world s) ⊆ heap (world s') /\
    published_copy s s'.
Proof.
  intros Hcl Hc Ha Hp.
  destruct (truthy (data cx) && truthy (get (heap (world s)) (data cx) "snapshot")) eqn:Hs.
  - eexists. split.
    { unfold rollbackTransaction, bind at 1. rewrite (restore_eq s ctx cx Hc), Hs.
      unfold rollbackTransaction.
      apply (finish_and_publish ROLLED_BACK _ ctx cx); simpl; done. }
    split; [simpl; apply lookup_insert_eq|]. split; [simpl; apply lookup_delete_eq|].
    split.
    { simpl. etrans; [apply insert_fresh_subseteq|]. apply insert_fresh_subseteq. }
    apply published_copy_intro; simpl; [done|done|apply insert_fresh_subseteq].
  - eexists. split.
    { unfold rollbackTransaction, bind at 1. rewrite (restore_eq s ctx cx Hc), Hs.
      unfold rollbackTransaction.
      by apply (finish_and_publish ROLLED_BACK s ctx cx). }
    split; [simpl; apply lookup_insert_eq|]. split; [simpl; apply lookup_delete_eq|].
    split; [simpl; apply insert_fresh_subseteq|].
    by apply published_copy_intro.
Qed.

End StoreFacts.

(** ** The claims about the store *)

Section StoreClaims.
Import TM Store Effects StoreEffects Observed StoreObserved.

(** The stores that the constructor builds have an open subject, and the
    operations of the store keep it open: the subject is private, and the
    store calls neither [complete] nor [error]. *)
Lemma new_open initial w : Subject._isClosed (subject (store (Store.new initial w))) = false.
Proof. reflexivity. Qed.

Lemma subscribe_open a s :
  Subject._isClosed (subject (store (subscribe a s).2)) =
  Subject._isClosed (subject (store s)).
Proof.
  unfold subscribe, with_subject.
  pose proof (Subject_subscribe_closed a (subject (store s)) (trace (world s))) as H.
  destruct (Subject.subscribe a (subject (store s), trace (world s))) as [r [sj tr]].
  exact H.
Qed.


(** C1, as stated, fails.  In the scenario the observer [fn] is notified
    with [count = 2] on [subscribe], then with [count = 99] by the
    [setState] made while the transaction is open, and with [count = 2]
    again by [rollbackTransaction]. *)
Lemma observer_sees_intermediate_value :
  (Scenario.before_rollback Scenario.counter_store).1 = Normal 0%nat /\
  isTransactionActive 0 (world (Scenario.before_rollback Scenario.counter_store).2) = true /\
  notified 7 "count" (Scenario.before_rollback Scenario.counter_store).2
    = [VNum 2; VNum 99] /\
  (Scenario.rollback_scenario Scenario.counter_store).1 = Normal tt /\
  notified 7 "count" (Scenario.rollback_scenario Scenario.counter_store).2
    = [VNum 2; VNum 99; VNum 2].
Proof. vm_compute. done. Qed.

(** C1 (amended).  The observers are those of the model: their callbacks
    are recorded and may throw, and do not call back into the store.  Every
    [setState], whether or not a transaction is open, notifies at once every
    subscribed observer, once and in the order of subscription, with a copy
    of the merged state: a new object, other than the state, that has the
    properties of the argument and, where the argument has none, those of
    the state before; the transactions of the manager are left as they
    are.  [commitTransaction] and [rollbackTransaction] of a PENDING context
    of the manager notify every observer once more, with a new copy of the
    state as it is then, and mark the context COMMITTED and ROLLED_BACK. *)
Theorem setState_publishes_at_once (p : value) (s : Sys) :
  Subject._isClosed (subject (store s)) = false ->
  (exists s',
     setState p s = (Normal tt, s') /\
     published_copy s s' /\
     Subject.lastValue (subject (store s')) <> VRef (state (store s')) /\
     overrides (props (heap (world s)) p) (getState_props s) (getState_props s') /\
     trace (world s') =
       trace (world s) ++
       Subject.deliver (fun ob => CalledNext ob (Subject.lastValue (subject (store s'))))
         Subject.next_throws "Error in observer.next:"
         (Subject.observers (subject (store s))) /\
     contexts (world s') = contexts (world s) /\
     activeTransactions (world s') = activeTransactions (world s)) /\
  (forall ctx cx,
     contexts (world s) !! ctx = Some cx ->
     activeTransactions (world s) !! id (metadata cx) = Some ctx ->
     status (metadata cx) = PENDING ->
     (exists s',
        commitTransaction ctx s = (Normal tt, s') /\
        published_copy s s' /\
        getState_props s' = getState_props s /\
        (status ∘ metadata) <$> contexts (world s') !! ctx = Some COMMITTED) /\
     (exists s',
        rollbackTransaction ctx s = (Normal tt, s') /\
        published_copy s s' /\
        (status ∘ metadata) <$> contexts (world s') !! ctx = Some ROLLED_BACK)).
Proof.
  intros Hc. split.
  - eexists. split; [by apply setState_eq|].
    match goal with |- context [published ?x] => set (s1 := x) end.
    destruct (published_value s1) as [Hv Hg].
    assert (getState_props s1 = spread2 (heap (world s)) (VRef (state (store s))) p) as Hs1.
    { rewrite getState_props_eq. subst s1; simpl. by rewrite lookup_insert_eq. }
    split.
    { apply published_copy_intro; subst s1; simpl; [done|done|apply insert_fresh_subseteq]. }
    split.
    { subst s1; simpl. intros [= E]. by apply fresh_insert_ne in E. }
    split.
    { rewrite Hg, Hs1, getState_props_eq. apply spread2_overrides. }
    split; [reflexivity|]. split; reflexivity.
  - intros ctx cx Hctx Ha Hp. split.
    + destruct (store_commit_spec s ctx cx Hc Hctx Ha Hp)
        as (s' & E & _ & Hg & Hs & _ & _ & _ & Hpub).
      exists s'. repeat split; try done. by rewrite Hs.
    + destruct (store_rollback_spec s ctx cx Hc Hctx Ha Hp) as (s' & E & Hs & _ & _ & Hpub).
      exists s'. repeat split; try done. by rewrite Hs.
Qed.

Lemma setState_publishes_at_once_witness :
  Subject._isClosed (subject (store with_99)) = false /\
  (exists s',
     setState at_99 with_99 = (Normal tt, s') /\
     published_copy with_99 s' /\
     Subject.lastValue (subject (store s')) <> VRef (state (store s')) /\
     overrides (props (heap (world with_99)) at_99) (getState_props with_99)
       (getState_props s') /\
     trace (world s') =
       trace (world with_99) ++
       Subject.deliver (fun ob => CalledNext ob (Subject.lastValue (subject (store s'))))
         Subject.next_throws "Error in observer.next:"
         (Subject.observers (subject (store with_99))) /\
     contexts (world s') = contexts (world with_99) /\
     activeTransactions (world s') = activeTransactions (world with_99)) /\
  (exists cx,
     contexts (world with_99) !! 0%nat = Some cx /\
     activeTransactions (world with_99) !! id (metadata cx) = Some 0%nat /\
     status (metadata cx) = PENDING /\
     (exists s',
        commitTransaction 0 with_99 = (Normal tt, s') /\
        published_copy with_99 s' /\
        getState_props s' = getState_props with_99 /\
        (status ∘ metadata) <$> contexts (world s') !! 0%nat = Some COMMITTED) /\
     (exists s',
        rollbackTransaction 0 with_99 = (Normal tt, s') /\
        published_copy with_99 s' /\
        (status ∘ metadata) <$> contexts (world s') !! 0%nat = Some ROLLED_BACK)).
Proof.
  split; [reflexivity|].
  destruct (setState_publishes_at_once at_99 with_99 eq_refl) as [H1 H2].
  split; [exact H1|].
  exists (Effects.new_context no_options (world Scenario.subscribed_store)).
  split; [vm_compute; reflexivity|]. split; [vm_compute; reflexivity|].
  split; [reflexivity|].
  apply (H2 0%nat (Effects.new_context no_options (world Scenario.subscribed_store)));
    vm_compute; reflexivity.
Defined.

(** The same, evaluated, with the transaction of the manager open: the
    observer 7 is told [count = 99] by [setState], and [count = 0] by
    [commitTransaction] and by [rollbackTransaction] of the context. *)
Example setState_in_open_transaction :
  isTransactionActive 0 (world with_99) = true /\
  notified 7 "count" (setState at_99 with_99).2 = [VNum 99] /\
  notified 7 "count" (commitTransaction 0 with_99).2 = [VNum 0] /\
  notified 7 "count" (rollbackTransaction 0 with_99).2 = [VNum 0].
Proof. vm_compute. done. Qed.



(** The scenario of the specification, evaluated: after the rollback
    [getState()] shows [count = 2]. *)
Example rollback_scenario_state :
  getState_props (Scenario.rollback_scenario Scenario.counter_store).2
    = {["count" := VNum 2]}.
Proof. vm_compute. reflexivity. Qed.

(** The context of the manager's own [beginTransaction] carries the data
    [{}]: no snapshot. *)
Lemma manager_context_has_no_snapshot options s :
  exists cx,
    contexts (world (with_world (TM.beginTransaction options) s).2)
      !! fresh (dom (contexts (world s))) = Some cx /\
    activeTransactions (world (with_world (TM.beginTransaction options) s).2)
      !! id (metadata cx) = Some (fresh (dom (contexts (world s)))) /\
    status (metadata cx) = PENDING /\
    truthy (data cx)
    && truthy (get (heap (world (with_world (TM.beginTransaction options) s).2))
                 (data cx) "snapshot") = false.
Proof.
  exists (new_context options (world s)).
  rewrite (with_world_eq (TM.beginTransaction options) s _ _
             (beginTransaction_eq options (world s))).
  simpl. repeat split; try apply lookup_insert_eq.
  unfold get, props. by rewrite lookup_insert_eq.
Qed.



(** The same run, evaluated: the observer is notified with the unchanged
    [count = 0]. *)
Example rollback_without_snapshot_run :
  (rollbackTransaction 0 Scenario.manager_context).1 = Normal tt /\
  notified 7 "count" (rollbackTransaction 0 Scenario.manager_context).2 = [VNum 0] /\
  (status ∘ metadata) <$>
    contexts (world (rollbackTransaction 0 Scenario.manager_context).2) !! 0%nat
    = Some ROLLED_BACK.
Proof. vm_compute. done. Qed.


Lemma assign_other (h : gmap loc obj) (l l' : loc) (k : string) (x : value) :
  l <> l' -> assign h (VRef l) k x !! l' = h !! l'.
Proof.
  intros Hne. unfold assign. destruct (h !! l); [|done]. by rewrite lookup_insert_ne.
Qed.

Lemma caller_assigns_all_other (l : loc) (kxs : list (string * value)) (s : Sys) :
  l <> state (store s) ->
  getState_props (caller_assigns_all (VRef l) kxs s) = getState_props s.
Proof.
  intros Hne. revert s Hne. induction kxs as [|[k x] kxs IH]; intros s Hne; simpl; [done|].
  rewrite IH by done. rewrite !getState_props_eq.
  unfold caller_assigns, props. cbn [world store heap set_heap state].
  by rewrite assign_other.
Qed.

(** C9, as stated, fails: an assignment through [getState().user] changes
    what the next [getState()] shows. *)
Lemma nested_object_is_shared :
  getState_nested "user" "name" Scenario.nested_store = VNum 1 /\
  getState_nested "user" "name"
    (mutate_nested "user" "name" (VNum 2) Scenario.nested_store) = VNum 2.
Proof. vm_compute. done. Qed.

(** C9 (amended).  [getState()] returns a new object that holds the
    properties of the state, values and references alike; assignments to the
    properties of the returned object leave what a later [getState()]
    returns as it was. *)
Theorem getState_copies_top_level (s : Sys) (kxs : list (string * value)) :
  is_Some (heap (world s) !! state (store s)) ->
  exists l s1,
    getState s = (Normal (VRef l), s1) /\
    heap (world s) !! l = None /\
    l <> state (store s) /\
    props (heap (world s1)) (VRef l) = props (heap (world s)) (VRef (state (store s))) /\
    getState_props (caller_assigns_all (VRef l) kxs s1) = getState_props s.
Proof.
  intros [o Ho].
  exists (fresh (dom (heap (world s)))),
         (allocated (props (heap (world s)) (VRef (state (store s)))) s).
  pose proof (fresh_lookup (heap (world s))) as Hf.
  assert (fresh (dom (heap (world s))) <> state (store s)) as Hne by congruence.
  split; [apply getState_eq|]. split; [exact Hf|]. split; [exact Hne|]. split.
  - simpl. by rewrite lookup_insert_eq.
  - rewrite caller_assigns_all_other by done.
    rewrite !getState_props_eq. simpl. unfold props. by rewrite lookup_insert_ne.
Qed.

Lemma getState_copies_top_level_witness :
  is_Some (heap (world Scenario.nested_store) !! state (store Scenario.nested_store)) /\
  exists l s1,
    getState Scenario.nested_store = (Normal (VRef l), s1) /\
    heap (world Scenario.nested_store) !! l = None /\
    l <> state (store Scenario.nested_store) /\
    props (heap (world s1)) (VRef l)
      = props (heap (world Scenario.nested_store))
          (VRef (state (store Scenario.nested_store))) /\
    getState_props (caller_assigns_all (VRef l) [("user", VNull); ("extra", VNum 1)] s1)
      = getState_props Scenario.nested_store.
Proof.
  assert (is_Some (heap (world Scenario.nested_store)
                     !! state (store Scenario.nested_store))) as H
    by (vm_compute; eauto).
  split; [exact H|].
  apply (getState_copies_top_level Scenario.nested_store
           [("user", VNull); ("extra", VNum 1)] H).
Defined.

End StoreClaims.
Section StoreReplay.
Import TM Store Effects StoreEffects.

(** C7 at the store: after a [setState], [subscribe] notifies the new
    observer, before it returns, with the copy of the state that was
    published last. *)
Lemma store_subscribe_replays (p : value) (a : Subject.subscribe_args) (s : Sys) :
  Subject._isClosed (subject (store s)) = false ->
  trace (world (subscribe a (setState p s).2).2) =
    trace (world (setState p s).2) ++
    [CalledNext (Subject.oid (Subject.make_observer a))
       (Subject.lastValue (subject (store (setState p s).2)))] /\
  props (heap (world (setState p s).2))
    (Subject.lastValue (subject (store (setState p s).2)))
    = getState_props (setState p s).2.
Proof.
  intros Hc. rewrite (setState_eq p s Hc). cbn [snd].
  match goal with |- context [published ?x] => set (s1 := x) end.
  split.
  - unfold subscribe, with_subject.
    pose proof (subscribe_trace a (subject (store (published s1)))
                  (trace (world (published s1)))) as Ht.
    destruct (Subject.subscribe a _) as [r [sj tr]]. simpl in Ht |- *.
    rewrite Ht. destruct (Subject.next_throws _); by rewrite ?app_nil_r.
  - destruct (published_value s1) as [Hv Hg]. by rewrite Hv, Hg.
Qed.
End StoreReplay.

Section StoreMore.
Import TM Store Effects StoreEffects Observed StoreObserved.


(** [resetState] brings back the properties of the copy of the initial
    state that the constructor made. *)
Lemma resetState_restores_initial (s : Sys) :
  Subject._isClosed (subject (store s)) = false ->
  exists s',
    resetState s = (Normal tt, s') /\
    getState_props s' = props (heap (world s)) (VRef (initialState (store s))) /\
    initialState (store s') = initialState (store s) /\
    heap (world s) ⊆ heap (world s').
Proof.
  intros Hc. eexists. split.
  { unfold resetState, bind at 1, gets. unfold bind at 1. rewrite literal_eq.
    unfold bind at 1, modify. by apply publish_eq. }
  match goal with |- context [published ?x] => set (s1 := x) end.
  destruct (published_value s1) as [Hv Hg].
  split; [|split; [reflexivity|]].
  - rewrite Hg, getState_props_eq. subst s1; simpl. by rewrite lookup_insert_eq.
  - etrans; [|apply (published_frame s1)]. subst s1; simpl. apply insert_fresh_subseteq.
Qed.

End StoreMore.

(** ** The transaction manager of the framework *)

Section CoreFacts.
Import Core CoreEffects.

Lemma core_beginTransaction_eq w :
  beginTransaction w = (Normal (fresh (dom (contexts w))), began w).
Proof.
  destruct w as [cs [c|] st u n co]; [reflexivity|].
  unfold beginTransaction, began, bind, gets, modify, log, ret; simpl.
  by rewrite app_nil_r.
Qed.

Lemma core_finish_eq s what verb c cx w :
  currentTransaction w = Some c ->
  contexts w !! c = Some cx ->
  finish s what verb w = (Normal tt, finished s verb c cx w).
Proof.
  intros Hcur Hc. unfold finish, bind at 1, gets. rewrite Hcur, Hc. reflexivity.
Qed.

Lemma core_finish_none s what verb w :
  currentTransaction w = None ->
  finish s what verb w = (Throw (ErrNoActive what), w).
Proof. intros Hcur. unfold finish, bind at 1, gets. rewrite Hcur. reflexivity. Qed.

(** [pop] undoes [push]. *)
Lemma pop_push (l : list nat) (x : nat) : pop (l ++ [x]) = (Some x, l).
Proof. unfold pop. by rewrite last_snoc, removelast_last. Qed.

(** Ending the transaction that was begun inside [outer]. *)
Lemma core_finish_nested s what verb w outer cx :
  currentTransaction w = Some outer ->
  contexts w !! outer = Some cx ->
  exists w',
    finish s what verb (began w) = (Normal tt, w') /\
    currentTransaction w' = Some outer /\
    transactionStack w' = transactionStack w /\
    contexts w' !! outer = Some cx /\
    contexts w' !! fresh (dom (contexts w)) =
      Some {| id := uuid w; status := s; startTime := now w; endTime := Some (now w) |}.
Proof.
  intros Hcur Hc. eexists. split.
  { apply (core_finish_eq s what verb (fresh (dom (contexts w))) (new_context w));
      [reflexivity | apply lookup_insert_eq]. }
  assert (fresh (dom (contexts w)) <> outer) as Hne.
  { intros E. pose proof (is_fresh (dom (contexts w))) as Hf. rewrite E in Hf.
    apply Hf, elem_of_dom. eauto. }
  simpl. rewrite Hcur. pose proof (pop_push (transactionStack w) outer) as Hpop.
  unfold pop in Hpop. injection Hpop as Hl Hr. rewrite Hl, Hr.
  repeat split.
  - rewrite lookup_insert_ne by done. by rewrite lookup_insert_ne.
  - apply lookup_insert_eq.
Qed.

(** The manager of src/transaction, which does keep a current transaction
    and a stack.  With a PENDING transaction [outer] as the current one,
    [beginTransaction] pushes [outer] on the stack of the manager and makes
    the new context current; [commit] and [rollback] of the new context
    both return, pop the stack and make [outer], the same object and still
    PENDING, current again. *)
Theorem nested_transaction_restores_outer (w : World) (outer : nat)
    (cx : TransactionContext) :
  currentTransaction w = Some outer ->
  contexts w !! outer = Some cx ->
  status cx = PENDING ->
  exists inner w1 w2 w3,
    beginTransaction w = (Normal inner, w1) /\
    inner <> outer /\
    getCurrentTransaction w1 = Some inner /\
    transactionStack w1 = transactionStack w ++ [outer] /\
    commit w1 = (Normal tt, w2) /\
    getCurrentTransaction w2 = Some outer /\
    transactionStack w2 = transactionStack w /\
    contexts w2 !! outer = Some cx /\
    status <$> contexts w2 !! inner = Some COMMITTED /\
    rollback w1 = (Normal tt, w3) /\
    getCurrentTransaction w3 = Some outer /\
    transactionStack w3 = transactionStack w /\
    contexts w3 !! outer = Some cx /\
    status <$> contexts w3 !! inner = Some ROLLED_BACK.
Proof.
  intros Hcur Hc Hp.
  destruct (core_finish_nested COMMITTED "commit" "committed" w outer cx Hcur Hc)
    as (w2 & E2 & C2 & S2 & O2 & I2).
  destruct (core_finish_nested ROLLED_BACK "roll back" "rolled back" w outer cx Hcur Hc)
    as (w3 & E3 & C3 & S3 & O3 & I3).
  exists (fresh (dom (contexts w))), (began w), w2, w3.
  split; [apply core_beginTransaction_eq|]. split.
  { intros E. pose proof (is_fresh (dom (contexts w))) as Hf. rewrite E in Hf.
    apply Hf, elem_of_dom. eauto. }
  split; [reflexivity|]. split; [simpl; by rewrite Hcur|].
  split; [exact E2|]. split; [exact C2|]. split; [exact S2|]. split; [exact O2|].
  split; [by rewrite I2|].
  split; [exact E3|]. split; [exact C3|]. split; [exact S3|]. split; [exact O3|].
  by rewrite I3.
Qed.

Lemma nested_transaction_restores_outer_witness :
  currentTransaction Scenario.core_outer = Some 0%nat /\
  contexts Scenario.core_outer !! 0%nat = Some (new_context empty_world) /\
  status (new_context empty_world) = PENDING /\
  exists inner w1 w2 w3,
    beginTransaction Scenario.core_outer = (Normal inner, w1) /\
    inner <> 0%nat /\
    getCurrentTransaction w1 = Some inner /\
    transactionStack w1 = transactionStack Scenario.core_outer ++ [0%nat] /\
    commit w1 = (Normal tt, w2) /\
    getCurrentTransaction w2 = Some 0%nat /\
    transactionStack w2 = transactionStack Scenario.core_outer /\
    contexts w2 !! 0%nat = Some (new_context empty_world) /\
    status <$> contexts w2 !! inner = Some COMMITTED /\
    rollback w1 = (Normal tt, w3) /\
    getCurrentTransaction w3 = Some 0%nat /\
    transactionStack w3 = transactionStack Scenario.core_outer /\
    contexts w3 !! 0%nat = Some (new_context empty_world) /\
    status <$> contexts w3 !! inner = Some ROLLED_BACK.
Proof.
  split; [reflexivity|]. split; [vm_compute; reflexivity|]. split; [reflexivity|].
  apply (nested_transaction_restores_outer Scenario.core_outer 0 (new_context empty_world));
    [reflexivity | vm_compute; reflexivity | reflexivity].
Defined.

(** Without an enclosing transaction nothing is pushed, and [commit] leaves
    the manager without a current transaction. *)
Lemma core_top_level w :
  currentTransaction w = None ->
  transactionStack (began w) = transactionStack w /\
  (transactionStack w = [] -> currentTransaction (commit (began w)).2 = None).
Proof.
  intros Hcur. split.
  - simpl. rewrite Hcur. apply app_nil_r.
  - intros Hst. unfold commit.
    rewrite (core_finish_eq COMMITTED "commit" "committed" (fresh (dom (contexts w)))
               (new_context w) (began w));
      [|reflexivity | apply lookup_insert_eq].
    simpl. by rewrite Hcur, Hst.
Qed.

End CoreFacts.

Section ReactiveNesting.
Import TM Effects.

(** The manager of safeflow-reactive keeps no stack and no current
    transaction: the open contexts are the entries of [activeTransactions].
    A transaction begun and ended while [outer] is open leaves [outer] in
    the active set, untouched. *)
Lemma reactive_nested_keeps_outer s options w outer cx :
  contexts w !! outer = Some cx ->
  activeTransactions w !! id (metadata cx) = Some outer ->
  id (metadata cx) <> uuid w ->
  exists w',
    (let* inner := beginTransaction options in finish s inner) w = (Normal tt, w') /\
    activeTransactions w' !! id (metadata cx) = Some outer /\
    contexts w' !! outer = Some cx /\
    activeTransactions w' !! uuid w = None.
Proof.
  intros Hc Ha Hid. eexists. split.
  { unfold bind. rewrite beginTransaction_eq.
    apply (finish_ok s (fresh (dom (contexts w))) (new_context options w)
             (fresh (dom (contexts w))) (new_context options w));
      simpl; try apply lookup_insert_eq; reflexivity. }
  assert (fresh (dom (contexts w)) <> outer) as Hne.
  { intros E. pose proof (is_fresh (dom (contexts w))) as Hf. rewrite E in Hf.
    apply Hf, elem_of_dom. eauto. }
  simpl. repeat split.
  - rewrite lookup_delete_ne by done. by rewrite lookup_insert_ne.
  - rewrite lookup_insert_ne by done. by rewrite lookup_insert_ne.
  - apply lookup_delete_eq.
Qed.

End ReactiveNesting.

(** ** More about the subject *)

Section SubjectMore.
Import Subject Observed.



Lemma remove_first_snoc o l :
  oid o ∉ map oid l -> remove_first (oid o) (l ++ [o]) = l.
Proof.
  induction l as [|x l IH]; simpl; intros Hn.
  - by rewrite Nat.eqb_refl.
  - apply not_elem_of_cons in Hn as [Hx Hl].
    destruct (Nat.eqb_spec (oid x) (oid o)) as [E|_]; [congruence|]. by rewrite IH.
Qed.

(** [unsubscribe] closes the subscription, and on a closed subscription it
    does nothing: the second call leaves the subject and the trace alone. *)
Theorem unsubscribe_twice (sub : SafeFlowSubscription) (s : SafeFlowSubject)
    (tr : list event) :
  exists sub' st',
    unsubscribe sub (s, tr) = (Normal sub', st') /\
    _closed sub' = true /\
    unsubscribe sub' st' = (Normal sub', st').
Proof. destruct sub as [[] o]; simpl; eauto. Qed.

Lemma subscribe_result a s tr sub st :
  subscribe a (s, tr) = (Normal sub, st) ->
  sub = {| _closed := false; onUnsubscribe := oid (make_observer a) |}.
Proof.
  destruct s as [obs cl lv hv]. unfold subscribe, bind, call, emit, modify, gets. simpl.
  destruct (hv && is_defined lv), (next_throws (make_observer a)), cl,
    (complete_throws (make_observer a)); simpl; intros E; by inversion E.
Qed.

(** For an observer that is not registered yet, [subscribe] followed by
    [unsubscribe] of the subscription gives back the list of observers as it
    was, without a further call of any callback. *)
Theorem subscribe_unsubscribe_round_trip (a : subscribe_args) (s : SafeFlowSubject)
    (tr : list event) (sub : SafeFlowSubscription) (st : St) :
  oid (make_observer a) ∉ map oid (observers s) ->
  subscribe a (s, tr) = (Normal sub, st) ->
  exists sub',
    unsubscribe sub st =
      (Normal sub',
       ({| observers := observers s; _isClosed := _isClosed s;
           lastValue := lastValue s; _hasValue := _hasValue s |}, st.2)) /\
    _closed sub' = true.
Proof.
  intros Hn E. pose proof (subscribe_result _ _ _ _ _ E) as ->.
  pose proof (subscribe_subject a s tr) as Hs. rewrite E in Hs. simpl in Hs.
  destruct st as [s1 tr1]. simpl in Hs. subst s1.
  exists {| _closed := true; onUnsubscribe := oid (make_observer a) |}.
  split; [|reflexivity]. unfold unsubscribe, bind, modify, ret. cbn [_closed onUnsubscribe].
  cbn [observers _isClosed lastValue _hasValue snd]. by rewrite remove_first_snoc.
Qed.

Lemma subscribe_unsubscribe_round_trip_witness :
  (oid (make_observer (ArgNone 9)) ∉ map oid (observers two_observers)) /\
  subscribe (ArgNone 9) (two_observers, [])
    = (Normal {| _closed := false; onUnsubscribe := 9 |},
       (subscribe (ArgNone 9) (two_observers, [])).2) /\
  exists sub',
    unsubscribe {| _closed := false; onUnsubscribe := 9 |}
      (subscribe (ArgNone 9) (two_observers, [])).2 =
      (Normal sub',
       ({| observers := observers two_observers; _isClosed := _isClosed two_observers;
           lastValue := lastValue two_observers; _hasValue := _hasValue two_observers |},
        (subscribe (ArgNone 9) (two_observers, [])).2.2)) /\
    _closed sub' = true.
Proof.
  assert (oid (make_observer (ArgNone 9)) ∉ map oid (observers two_observers)) as H.
  { simpl. intros H. repeat (apply elem_of_cons in H as [H|H]; [discriminate|]).
    by apply elem_of_nil in H. }
  split; [exact H|]. split; [reflexivity|].
  apply (subscribe_unsubscribe_round_trip (ArgNone 9) two_observers [] _ _ H).
  reflexivity.
Defined.

(** The observers are those of the model: their callbacks are recorded and
    may throw, and neither subscribe nor unsubscribe while they run.
    [complete] and [error] on an open subject call the matching callback of
    every registered observer once, in order, and nothing else, and empty
    the list; after either, [complete], [error] and [next] do nothing. *)
Theorem termination_is_one_shot (s : SafeFlowSubject) (tr : list event) (err : value) :
  _isClosed s = false ->
  exists evs evs',
    complete (s, tr) =
      (Normal tt,
       ({| observers := []; _isClosed := true; lastValue := lastValue s;
           _hasValue := _hasValue s |}, tr ++ evs)) /\
    complete_calls evs = map oid (observers s) /\
    next_calls evs = [] /\ error_calls evs = [] /\
    error err (s, tr) =
      (Normal tt,
       ({| observers := []; _isClosed := true; lastValue := lastValue s;
           _hasValue := _hasValue s |}, tr ++ evs')) /\
    error_calls evs' = map (fun o => (oid o, err)) (observers s) /\
    next_calls evs' = [] /\ complete_calls evs' = [] /\
    (forall t v e,
       t = (complete (s, tr)).2 \/ t = (error err (s, tr)).2 ->
       complete t = (Normal tt, t) /\ error e t = (Normal tt, t) /\
       next v t = (Normal tt, t)).
Proof.
  intros Hc. eexists. eexists.
  split; [by apply complete_open|]. split; [apply complete_calls_deliver|].
  split. { induction (observers s) as [|o l IH]; [done|]. simpl.
           destruct (complete_throws o); simpl; done. }
  split. { induction (observers s) as [|o l IH]; [done|]. simpl.
           destruct (complete_throws o); simpl; done. }
  split; [by apply error_open|]. split; [apply error_calls_deliver|].
  split. { induction (observers s) as [|o l IH]; [done|]. simpl.
           destruct (error_throws o); simpl; done. }
  split. { induction (observers s) as [|o l IH]; [done|]. simpl.
           destruct (error_throws o); simpl; done. }
  intros t v e [-> | ->]; rewrite ?complete_open, ?error_open by done; simpl; done.
Qed.

Lemma termination_is_one_shot_witness :
  _isClosed two_observers = false /\
  exists evs evs',
    complete (two_observers, []) =
      (Normal tt,
       ({| observers := []; _isClosed := true; lastValue := lastValue two_observers;
           _hasValue := _hasValue two_observers |}, [] ++ evs)) /\
    complete_calls evs = map oid (observers two_observers) /\
    next_calls evs = [] /\ error_calls evs = [] /\
    error (VNum 4) (two_observers, []) =
      (Normal tt,
       ({| observers := []; _isClosed := true; lastValue := lastValue two_observers;
           _hasValue := _hasValue two_observers |}, [] ++ evs')) /\
    error_calls evs' = map (fun o => (oid o, VNum 4)) (observers two_observers) /\
    next_calls evs' = [] /\ complete_calls evs' = [] /\
    (forall t v e,
       t = (complete (two_observers, [])).2 \/ t = (error (VNum 4) (two_observers, [])).2 ->
       complete t = (Normal tt, t) /\ error e t = (Normal tt, t) /\
       next v t = (Normal tt, t)).
Proof.
  split; [reflexivity|].
  apply (termination_is_one_shot two_observers [] (VNum 4)). reflexivity.
Defined.

(** An observer that subscribes after [error(err)] is never told the error.
    [subscribe] calls its [next] with the last value, when there is a
    defined one.  When that call throws, [subscribe] throws what it threw
    and calls nothing more; otherwise it calls [complete()] of the
    observer. *)
Theorem late_subscriber_is_told_complete (a : subscribe_args) (err : value)
    (s : SafeFlowSubject) (tr : list event) :
  _isClosed s = false ->
  exists evs,
    (subscribe a (error err (s, tr)).2).2.2 = (error err (s, tr)).2.2 ++ evs /\
    error_calls evs = [] /\
    next_calls evs
      = (if _hasValue s && is_defined (lastValue s)
         then [(oid (make_observer a), lastValue s)] else []) /\
    complete_calls evs
      = (if _hasValue s && is_defined (lastValue s) && next_throws (make_observer a)
         then [] else [oid (make_observer a)]) /\
    (_hasValue s && is_defined (lastValue s) && next_throws (make_observer a) = true ->
     (subscribe a (error err (s, tr)).2).1 = Throw (ErrUser (oid (make_observer a)))).
Proof.
  intros Hc. rewrite (error_open err s tr Hc). cbn [snd].
  eexists. split.
  { rewrite subscribe_trace. cbn [_hasValue lastValue _isClosed]. reflexivity. }
  destruct s as [obs cl lv hv]. cbn [_hasValue lastValue].
  unfold subscribe, bind, call, emit, modify, gets. simpl.
  destruct (hv && is_defined lv), (next_throws (make_observer a)),
    (complete_throws (make_observer a)); simpl; repeat split; try done.
Qed.

Lemma late_subscriber_is_told_complete_witness :
  _isClosed Scenario.holding_one = false /\
  exists evs,
    (subscribe (ArgNone 5) (error (VNum 4) (Scenario.holding_one, [])).2).2.2
      = (error (VNum 4) (Scenario.holding_one, [])).2.2 ++ evs /\
    error_calls evs = [] /\
    next_calls evs
      = (if _hasValue Scenario.holding_one && is_defined (lastValue Scenario.holding_one)
         then [(oid (make_observer (ArgNone 5)), lastValue Scenario.holding_one)]
         else []) /\
    complete_calls evs
      = (if _hasValue Scenario.holding_one && is_defined (lastValue Scenario.holding_one)
            && next_throws (make_observer (ArgNone 5))
         then [] else [oid (make_observer (ArgNone 5))]) /\
    (_hasValue Scenario.holding_one && is_defined (lastValue Scenario.holding_one)
       && next_throws (make_observer (ArgNone 5)) = true ->
     (subscribe (ArgNone 5) (error (VNum 4) (Scenario.holding_one, [])).2).1
       = Throw (ErrUser (oid (make_observer (ArgNone 5))))).
Proof.
  split; [reflexivity|].
  apply (late_subscriber_is_told_complete (ArgNone 5) (VNum 4) Scenario.holding_one []).
  reflexivity.
Defined.

(** The same after [error(4)] on a subject that holds 1: an observer whose
    callbacks do not throw is told 1 and then [complete()]; one whose
    [next] throws is told 1, and [subscribe] throws. *)
Example late_subscribers :
  (subscribe (ArgNone 5) (error (VNum 4) (Scenario.holding_one, [])).2).2.2
    = [CalledNext 5 (VNum 1); CalledComplete 5] /\
  subscribe (ArgFunction 6 true None None) (error (VNum 4) (Scenario.holding_one, [])).2
    = (Throw (ErrUser 6),
       ((subscribe (ArgFunction 6 true None None)
           (error (VNum 4) (Scenario.holding_one, [])).2).2.1,
        [CalledNext 6 (VNum 1)])).
Proof. vm_compute. done. Qed.

End SubjectMore.

(** ** More about the transaction manager of safeflow-reactive *)

Section TMInvariant.
Import TM Effects Invariant.

Lemma consistent_empty : consistent empty_world.
Proof. repeat split; intros *; simpl; by rewrite lookup_empty. Qed.

Lemma fresh_context_ne (w : World) c cx :
  contexts w !! c = Some cx -> fresh (dom (contexts w)) <> c.
Proof.
  intros Hc E. pose proof (is_fresh (dom (contexts w))) as Hf. rewrite E in Hf.
  apply Hf, elem_of_dom. eauto.
Qed.

Lemma consistent_began options w : consistent w -> consistent (began options w).
Proof.
  intros (HA & HD & HB & HC). repeat split; simpl.
  - intros i c. destruct (decide (uuid w = i)) as [<-|Hne].
    + rewrite lookup_insert_eq. intros [= <-]. exists (new_context options w).
      by rewrite lookup_insert_eq.
    + rewrite lookup_insert_ne by done. intros Hi.
      destruct (HA i c Hi) as (cx & Hc & Hid & Hp). exists cx.
      rewrite lookup_insert_ne; [done|]. by apply (fresh_context_ne w c cx).
  - intros c cx. destruct (decide (fresh (dom (contexts w)) = c)) as [<-|Hne].
    + rewrite lookup_insert_eq. intros [= <-] _. simpl. by rewrite lookup_insert_eq.
    + rewrite lookup_insert_ne by done. intros Hc Hp.
      rewrite lookup_insert_ne; [by apply HD|]. pose proof (HB c cx Hc). lia.
  - intros c cx. destruct (decide (fresh (dom (contexts w)) = c)) as [<-|Hne].
    + rewrite lookup_insert_eq. intros [= <-]. simpl. lia.
    + rewrite lookup_insert_ne by done. intros Hc. pose proof (HB c cx Hc). lia.
  - intros c1 c2 cx1 cx2.
    destruct (decide (fresh (dom (contexts w)) = c1)) as [<-|Hne1];
      destruct (decide (fresh (dom (contexts w)) = c2)) as [<-|Hne2];
      rewrite ?lookup_insert_eq, ?lookup_insert_ne by done; try done.
    + intros [= <-] Hc2. simpl. pose proof (HB c2 cx2 Hc2). lia.
    + intros Hc1 [= <-]. simpl. pose proof (HB c1 cx1 Hc1). lia.
    + apply HC.
Qed.


Lemma keeps_ret {A} (a : A) : keeps (ret a).
Proof. by intros w H. Qed.

Lemma keeps_throw {A} e : keeps (@throw World A e).
Proof. by intros w H. Qed.

Lemma keeps_gets {A} (f : World -> A) : keeps (gets f).
Proof. by intros w H. Qed.

Lemma keeps_bind {A B} (m : M World A) (k : A -> M World B) :
  keeps m -> (forall a, keeps (k a)) -> keeps (bind m k).
Proof.
  intros Hm Hk w H. unfold bind. specialize (Hm w H).
  destruct (m w) as [[a|e] w']; simpl in *; [by apply Hk | done].
Qed.

Lemma keeps_try_catch {A} (m : M World A) (h : exn -> M World A) :
  keeps m -> (forall e, keeps (h e)) -> keeps (try_catch m h).
Proof.
  intros Hm Hh w H. unfold try_catch. specialize (Hm w H).
  destruct (m w) as [[a|e] w']; simpl in *; [done | by apply Hh].
Qed.

Lemma keeps_if {A} (b : bool) (m1 m2 : M World A) :
  keeps m1 -> keeps m2 -> keeps (if b then m1 else m2).
Proof. by destruct b. Qed.

Lemma keeps_beginTransaction options : keeps (beginTransaction options).
Proof. intros w H. rewrite beginTransaction_eq. by apply consistent_began. Qed.

Lemma consistent_finished s c cx w :
  s <> PENDING ->
  consistent w ->
  contexts w !! c = Some cx ->
  consistent (finished s (id (metadata cx)) c cx w).
Proof.
  intros Hs (HA & HD & HB & HC) Hc. repeat split; simpl.
  - intros j c'. destruct (decide (id (metadata cx) = j)) as [<-|Hne].
    + by rewrite lookup_delete_eq.
    + rewrite lookup_delete_ne by done. intros Hj.
      destruct (HA j c' Hj) as (cx' & Hc' & Hid & Hp). exists cx'.
      rewrite lookup_insert_ne; [done|]. intros <-. congruence.
  - intros c' cx'. destruct (decide (c = c')) as [<-|Hne].
    + rewrite lookup_insert_eq. intros [= <-]. simpl. by destruct s.
    + rewrite lookup_insert_ne by done. intros Hc' Hp.
      rewrite lookup_delete_ne; [by apply HD|]. intros E. apply Hne.
      by apply (HC c c' cx cx').
  - intros c' cx'. destruct (decide (c = c')) as [<-|Hne].
    + rewrite lookup_insert_eq. intros [= <-]. simpl. by apply (HB c).
    + rewrite lookup_insert_ne by done. apply HB.
  - intros c1 c2 cx1 cx2.
    destruct (decide (c = c1)) as [<-|Hne1]; destruct (decide (c = c2)) as [<-|Hne2];
      rewrite ?lookup_insert_eq, ?lookup_insert_ne by done; try done.
    + intros [= <-] Hc2. simpl. by apply HC.
    + intros Hc1 [= <-]. simpl. by apply HC.
    + apply HC.
Qed.

(** On a consistent manager [commitTransaction] and [rollbackTransaction]
    have two outcomes only: they end a PENDING context, or they find the
    transaction gone. *)
Lemma finish_consistent_eq s c cx w :
  consistent w ->
  contexts w !! c = Some cx ->
  finish s c w =
    if is_pending (status (metadata cx))
    then (Normal tt, finished s (id (metadata cx)) c cx w)
    else (Throw (ErrNotFound (id (metadata cx))), w).
Proof.
  intros (HA & HD & HB & HC) Hc. destruct (status (metadata cx)) eqn:Hp; simpl.
  - by apply (finish_ok s c cx c cx); [| apply HD | |].
  - apply finish_not_found; [done|].
    destruct (activeTransactions w !! id (metadata cx)) as [t|] eqn:Ha; [|done].
    destruct (HA _ _ Ha) as (tx & Ht & Hid & Hpt).
    assert (t = c) as -> by (by apply (HC t c tx cx)). congruence.
  - apply finish_not_found; [done|].
    destruct (activeTransactions w !! id (metadata cx)) as [t|] eqn:Ha; [|done].
    destruct (HA _ _ Ha) as (tx & Ht & Hid & Hpt).
    assert (t = c) as -> by (by apply (HC t c tx cx)). congruence.
Qed.

Lemma keeps_finish s c : s <> PENDING -> keeps (finish s c).
Proof.
  intros Hs w H. destruct (contexts w !! c) as [cx|] eqn:Hc.
  - rewrite (finish_consistent_eq s c cx w H Hc).
    destruct (is_pending _); simpl; [by apply consistent_finished | done].
  - unfold finish, bind, gets; simpl. by rewrite Hc.
Qed.

Lemma consistent_frame w w' :
  contexts w' = contexts w -> activeTransactions w' = activeTransactions w ->
  uuid w' = uuid w -> consistent w -> consistent w'.
Proof. unfold consistent. intros -> -> ->. done. Qed.

Lemma keeps_frame (f : World -> World) :
  (forall w, contexts (f w) = contexts w) ->
  (forall w, activeTransactions (f w) = activeTransactions w) ->
  (forall w, uuid (f w) = uuid w) ->
  keeps (modify f).
Proof. intros H1 H2 H3 w H. simpl. by apply (consistent_frame w). Qed.

Lemma keeps_call_body fn c : keeps (call_body fn c).
Proof. intros w H. simpl. by apply (consistent_frame w). Qed.

Lemma keeps_setTimeout cb ms : keeps (setTimeout cb ms).
Proof. by apply keeps_frame. Qed.

Lemma keeps_new_promise : keeps new_promise.
Proof.
  apply keeps_bind; [apply keeps_gets|]. intros p.
  apply keeps_bind; [by apply keeps_frame | intros; apply keeps_ret].
Qed.

Lemma keeps_settle p s : keeps (settle p s).
Proof. by apply keeps_frame. Qed.

Lemma keeps_retryTransaction fn options n : keeps (retryTransaction fn options n).
Proof.
  apply keeps_try_catch.
  - apply keeps_bind; [apply keeps_beginTransaction|]. intros c.
    apply keeps_bind; [apply keeps_call_body|]. intros r.
    apply keeps_bind; [by apply keeps_finish | intros; apply keeps_ret].
  - intros e. apply keeps_if; [|apply keeps_throw].
    apply keeps_bind; [apply keeps_new_promise|]. intros p.
    apply keeps_bind; [apply keeps_setTimeout | intros; apply keeps_ret].
Qed.

Lemma keeps_executeTransaction fn options : keeps (executeTransaction fn options).
Proof.
  apply keeps_bind; [apply keeps_beginTransaction|]. intros c.
  apply keeps_try_catch.
  - apply keeps_bind; [apply keeps_call_body|]. intros r.
    apply keeps_bind; [by apply keeps_finish | intros; apply keeps_ret].
  - intros e. apply keeps_bind; [by apply keeps_finish|]. intros _.
    apply keeps_if; [apply keeps_retryTransaction | apply keeps_throw].
Qed.

Lemma keeps_run_callback cb : keeps (run_callback cb).
Proof.
  destruct cb as [i c ms | fn options n p]; simpl.
  - intros w H. unfold watchdog, bind at 1, gets.
    destruct (activeTransactions w !! i); [|done].
    destruct (default false _); [|done].
    apply (keeps_bind (rollbackTransaction c) (fun _ => throw (ErrTimeout i ms)));
      [by apply keeps_finish | intros; apply keeps_throw | done].
  - apply keeps_try_catch; [|intros; apply keeps_settle].
    apply keeps_bind; [apply keeps_retryTransaction|].
    intros [v|q]; apply keeps_settle.
Qed.

Lemma consistent_tick w w' : consistent w -> tick w = Some w' -> consistent w'.
Proof.
  intros H. unfold tick. destruct (earliest (timers w)) as [d|]; [|done].
  destruct (take d (timers w)) as [[t rest]|]; [|done].
  set (w1 := set_now _ _).
  assert (consistent w1) as H1 by (by apply (consistent_frame w)).
  pose proof (keeps_run_callback (callback t) w1 H1) as H2.
  destruct (run_callback (callback t) w1) as [[u|e] w2]; simpl in H2; intros [= <-];
    [done|]. by apply (consistent_frame w2).
Qed.

Lemma consistent_run n w : consistent w -> consistent (run n w).
Proof.
  revert w. induction n as [|n IH]; intros w H; simpl; [done|].
  destruct (tick w) as [w'|] eqn:E; [|done]. apply IH. by apply (consistent_tick w).
Qed.


Lemma uuid_not_active w : consistent w -> activeTransactions w !! uuid w = None.
Proof.
  intros (HA & HD & HB & HC).
  destruct (activeTransactions w !! uuid w) as [c|] eqn:Ha; [|done].
  destruct (HA _ _ Ha) as (cx & Hc & Hid & _). pose proof (HB c cx Hc). lia.
Qed.

(** The manager that starts empty is consistent, and stays so under its
    operations and under the timers that they set. *)
Theorem manager_stays_consistent (w : World) :
  consistent w ->
  (forall options, consistent (beginTransaction options w).2) /\
  (forall c, consistent (commitTransaction c w).2) /\
  (forall c, consistent (rollbackTransaction c w).2) /\
  (forall fn options, consistent (executeTransaction fn options w).2) /\
  (forall n, consistent (run n w)).
Proof.
  intros H. split; [|split; [|split; [|split]]].
  - intros options. by apply keeps_beginTransaction.
  - intros c. by apply (keeps_finish COMMITTED c).
  - intros c. by apply (keeps_finish ROLLED_BACK c).
  - intros fn options. by apply keeps_executeTransaction.
  - intros n. by apply consistent_run.
Qed.

Lemma manager_stays_consistent_witness :
  consistent empty_world /\
  (forall options, consistent (beginTransaction options empty_world).2) /\
  (forall c, consistent (commitTransaction c empty_world).2) /\
  (forall c, consistent (rollbackTransaction c empty_world).2) /\
  (forall fn options, consistent (executeTransaction fn options empty_world).2) /\
  (forall n, consistent (run n empty_world)).
Proof.
  split; [exact consistent_empty|].
  apply (manager_stays_consistent empty_world consistent_empty).
Defined.

Lemma inactive_unless_pending c cx w :
  consistent w ->
  contexts w !! c = Some cx ->
  status (metadata cx) <> PENDING ->
  activeTransactions w !! id (metadata cx) = None.
Proof.
  intros (HA & HD & HB & HC) Hc Hp.
  destruct (activeTransactions w !! id (metadata cx)) as [t|] eqn:Ha; [|done].
  destruct (HA _ _ Ha) as (tx & Ht & Hid & Hpt).
  assert (t = c) as -> by (by apply (HC t c tx cx)). congruence.
Qed.

Lemma inactive_false i w : activeTransactions w !! i = None -> isTransactionActive i w = false.
Proof.
  intros H. unfold isTransactionActive. rewrite H. apply bool_decide_eq_false. by intros [? ?].
Qed.

(** What ending a context does, on a consistent manager. *)
Lemma finish_outcome s c cx w :
  consistent w ->
  contexts w !! c = Some cx ->
  (status ∘ metadata) <$> contexts (finish s c w).2 !! c
    = Some (if is_pending (status (metadata cx)) then s else status (metadata cx)) /\
  (endTime ∘ metadata) <$> contexts (finish s c w).2 !! c
    = Some (if is_pending (status (metadata cx)) then Some (now w)
            else endTime (metadata cx)) /\
  isTransactionActive (id (metadata cx)) (finish s c w).2 = false /\
  forall s', (finish s' c (finish s c w).2).1 = Throw (ErrNotFound (id (metadata cx))).
Proof.
  intros H Hc. rewrite (finish_consistent_eq s c cx w H Hc).
  destruct (is_pending (status (metadata cx))) eqn:Hp; cbn [snd].
  - assert (status (metadata cx) = PENDING) as Hp' by (by destruct (status (metadata cx))).
    destruct H as (HA & HD & HB & HC).
    simpl. rewrite lookup_insert_eq. split; [done|]. split; [done|].
    split; [apply inactive_false, lookup_delete_eq|].
    intros s'. by rewrite (finish_twice s s' c cx w Hc (HD c cx Hc Hp') Hp').
  - assert (status (metadata cx) <> PENDING) as Hp'
      by (intros E; by rewrite E in Hp).
    rewrite Hc. split; [done|]. split; [done|].
    split; [by apply inactive_false, (inactive_unless_pending c cx w)|].
    intros s'. rewrite (finish_consistent_eq s' c cx w H Hc), Hp. done.
Qed.

(** On a consistent manager, [commitTransaction] and [rollbackTransaction]
    of a PENDING context return, leave its status COMMITTED and ROLLED_BACK,
    with the time of the call as its end, and take it out of the active set;
    on a context that is not PENDING they throw "not found" and change
    nothing.  A transaction ends once: after either of them a further
    [commitTransaction] or [rollbackTransaction] of the context throws "not
    found", and the error "not in PENDING state" does not arise. *)
Theorem transaction_ends_once (c : nat) (cx : TransactionContext) (w : World) :
  consistent w ->
  contexts w !! c = Some cx ->
  commitTransaction c w =
    (if is_pending (status (metadata cx))
     then (Normal tt, finished COMMITTED (id (metadata cx)) c cx w)
     else (Throw (ErrNotFound (id (metadata cx))), w)) /\
  rollbackTransaction c w =
    (if is_pending (status (metadata cx))
     then (Normal tt, finished ROLLED_BACK (id (metadata cx)) c cx w)
     else (Throw (ErrNotFound (id (metadata cx))), w)) /\
  (status ∘ metadata) <$> contexts (commitTransaction c w).2 !! c
    = Some (if is_pending (status (metadata cx)) then COMMITTED
            else status (metadata cx)) /\
  (status ∘ metadata) <$> contexts (rollbackTransaction c w).2 !! c
    = Some (if is_pending (status (metadata cx)) then ROLLED_BACK
            else status (metadata cx)) /\
  (endTime ∘ metadata) <$> contexts (commitTransaction c w).2 !! c
    = Some (if is_pending (status (metadata cx)) then Some (now w)
            else endTime (metadata cx)) /\
  isTransactionActive (id (metadata cx)) (commitTransaction c w).2 = false /\
  isTransactionActive (id (metadata cx)) (rollbackTransaction c w).2 = false /\
  (rollbackTransaction c (commitTransaction c w).2).1
    = Throw (ErrNotFound (id (metadata cx))) /\
  (commitTransaction c (rollbackTransaction c w).2).1
    = Throw (ErrNotFound (id (metadata cx))).
Proof.
  intros H Hc.
  destruct (finish_outcome COMMITTED c cx w H Hc) as (C1 & C2 & C3 & C4).
  destruct (finish_outcome ROLLED_BACK c cx w H Hc) as (R1 & R2 & R3 & R4).
  split; [by apply finish_consistent_eq|]. split; [by apply finish_consistent_eq|].
  split; [exact C1|]. split; [exact R1|]. split; [exact C2|].
  split; [exact C3|]. split; [exact R3|].
  split; [apply (C4 ROLLED_BACK) | apply (R4 COMMITTED)].
Qed.

Lemma consistent_one_open : consistent one_open.
Proof. apply keeps_beginTransaction, consistent_empty. Qed.

Lemma transaction_ends_once_witness :
  consistent one_open /\
  contexts one_open !! 0%nat = Some (new_context no_options empty_world) /\
  commitTransaction 0 one_open =
    (if is_pending (status (metadata (new_context no_options empty_world)))
     then (Normal tt,
           finished COMMITTED (id (metadata (new_context no_options empty_world))) 0
             (new_context no_options empty_world) one_open)
     else (Throw (ErrNotFound (id (metadata (new_context no_options empty_world)))),
           one_open)) /\
  rollbackTransaction 0 one_open =
    (if is_pending (status (metadata (new_context no_options empty_world)))
     then (Normal tt,
           finished ROLLED_BACK (id (metadata (new_context no_options empty_world))) 0
             (new_context no_options empty_world) one_open)
     else (Throw (ErrNotFound (id (metadata (new_context no_options empty_world)))),
           one_open)) /\
  (status ∘ metadata) <$> contexts (commitTransaction 0 one_open).2 !! 0%nat
    = Some (if is_pending (status (metadata (new_context no_options empty_world)))
            then COMMITTED
            else status (metadata (new_context no_options empty_world))) /\
  (status ∘ metadata) <$> contexts (rollbackTransaction 0 one_open).2 !! 0%nat
    = Some (if is_pending (status (metadata (new_context no_options empty_world)))
            then ROLLED_BACK
            else status (metadata (new_context no_options empty_world))) /\
  (endTime ∘ metadata) <$> contexts (commitTransaction 0 one_open).2 !! 0%nat
    = Some (if is_pending (status (metadata (new_context no_options empty_world)))
            then Some (now one_open)
            else endTime (metadata (new_context no_options empty_world))) /\
  isTransactionActive (id (metadata (new_context no_options empty_world)))
    (commitTransaction 0 one_open).2 = false /\
  isTransactionActive (id (metadata (new_context no_options empty_world)))
    (rollbackTransaction 0 one_open).2 = false /\
  (rollbackTransaction 0 (commitTransaction 0 one_open).2).1
    = Throw (ErrNotFound (id (metadata (new_context no_options empty_world)))) /\
  (commitTransaction 0 (rollbackTransaction 0 one_open).2).1
    = Throw (ErrNotFound (id (metadata (new_context no_options empty_world)))).
Proof.
  assert (contexts one_open !! 0%nat = Some (new_context no_options empty_world)) as H
    by (vm_compute; reflexivity).
  split; [exact consistent_one_open|]. split; [exact H|].
  apply (transaction_ends_once 0 (new_context no_options empty_world) one_open
           consistent_one_open H).
Defined.

(** A transaction is reported active exactly while its context is
    PENDING. *)
Theorem active_iff_pending (c : nat) (cx : TransactionContext) (w : World) :
  consistent w ->
  contexts w !! c = Some cx ->
  isTransactionActive (id (metadata cx)) w = is_pending (status (metadata cx)).
Proof.
  intros (HA & HD & HB & HC) Hc. unfold isTransactionActive.
  destruct (is_pending (status (metadata cx))) eqn:Hp.
  - apply bool_decide_eq_true. rewrite (HD c cx Hc); [eauto|].
    by destruct (status (metadata cx)).
  - apply bool_decide_eq_false. intros [t Ha].
    destruct (HA _ _ Ha) as (tx & Ht & Hid & Hpt).
    assert (t = c) as -> by (by apply (HC t c tx cx)).
    assert (tx = cx) as -> by congruence. by rewrite Hpt in Hp.
Qed.

Lemma active_iff_pending_witness :
  consistent (commitTransaction 0 one_open).2 /\
  contexts (commitTransaction 0 one_open).2 !! 0%nat
    = Some (set_status COMMITTED 0 (new_context no_options empty_world)) /\
  isTransactionActive
    (id (metadata (set_status COMMITTED 0 (new_context no_options empty_world))))
    (commitTransaction 0 one_open).2
    = is_pending (status (metadata (set_status COMMITTED 0
                                      (new_context no_options empty_world)))).
Proof.
  assert (consistent (commitTransaction 0 one_open).2) as Hc
    by (by apply (keeps_finish COMMITTED 0); [|apply consistent_one_open]).
  assert (contexts (commitTransaction 0 one_open).2 !! 0%nat
          = Some (set_status COMMITTED 0 (new_context no_options empty_world))) as H
    by (vm_compute; reflexivity).
  split; [exact Hc|]. split; [exact H|].
  apply (active_iff_pending 0 _ _ Hc H).
Defined.

(** [executeTransaction] with a body that only returns: the value comes
    back, the body ran once, the context of the call is COMMITTED, and the
    active set and the other contexts are as before. *)
Lemma pure_body_returns (fn : Body) (options : TransactionOptions)
    (w : World) (v : value) :
  consistent w ->
  fn (body_calls (trace w)) = Normal v ->
  exists w',
    executeTransaction fn options w = (Normal (RValue v), w') /\
    activeTransactions w' = activeTransactions w /\
    body_calls (trace w') = S (body_calls (trace w)) /\
    (status ∘ metadata) <$> contexts w' !! fresh (dom (contexts w)) = Some COMMITTED /\
    (forall c cx, contexts w !! c = Some cx -> contexts w' !! c = Some cx).
Proof.
  intros H Hfn. eexists. split; [by apply executeTransaction_succeeds|]. simpl.
  split; [|split; [|split]].
  - apply delete_insert_id, uuid_not_active, H.
  - apply body_calls_snoc.
  - by rewrite lookup_insert_eq.
  - intros c cx Hc. rewrite !lookup_insert_ne; [done|..]; by apply (fresh_context_ne w c cx).
Qed.

(** [executeTransaction] with a body that only throws, when the options of
    the call do not ask for a retry: the error of the body comes out, the
    body ran once, the context of the call is ROLLED_BACK, and the active
    set and the other contexts are as before. *)
Lemma pure_body_throws (fn : Body) (options : TransactionOptions)
    (w : World) (e : exn) :
  consistent w ->
  retry_enabled options = false ->
  fn (body_calls (trace w)) = Throw e ->
  exists w',
    executeTransaction fn options w = (Throw e, w') /\
    activeTransactions w' = activeTransactions w /\
    body_calls (trace w') = S (body_calls (trace w)) /\
    (status ∘ metadata) <$> contexts w' !! fresh (dom (contexts w)) = Some ROLLED_BACK /\
    (forall c cx, contexts w !! c = Some cx -> contexts w' !! c = Some cx).
Proof.
  intros H Hr Hfn. eexists. split; [by apply retry_gate|]. simpl.
  split; [|split; [|split]].
  - apply delete_insert_id, uuid_not_active, H.
  - apply body_calls_snoc.
  - by rewrite lookup_insert_eq.
  - intros c cx Hc. rewrite !lookup_insert_ne; [done|..]; by apply (fresh_context_ne w c cx).
Qed.


Lemma clamp_delay_pos ms : 1 <= clamp_delay ms.
Proof. unfold clamp_delay. destruct ((ms <? 1) || (2147483647 <? ms)) eqn:E; [lia|].
  apply orb_false_iff in E as [E _]. apply Z.ltb_ge in E. lia. Qed.

(** A transaction that is left open, PENDING and active, is rolled back by
    its watchdog when the timeout has passed: its status is then
    ROLLED_BACK, with the time of the timer as its end, it is gone from the
    active set, and the error of the timeout is thrown where nothing catches
    it. *)
Theorem watchdog_rolls_back (options : TransactionOptions) (w : World) (t : Z) :
  timers w = [] ->
  timeout (merge DEFAULT_TRANSACTION_OPTIONS options) = Some t ->
  t <> 0 ->
  exists w2,
    tick (beginTransaction options w).2 = Some w2 /\
    now w2 = now w + clamp_delay t /\
    contexts w2 !! fresh (dom (contexts w)) =
      Some (set_status ROLLED_BACK (now w + clamp_delay t) (new_context options w)) /\
    activeTransactions w2 !! uuid w = None /\
    trace w2 = trace w ++ [Uncaught (ErrTimeout (uuid w) t)] /\
    timers w2 = [] /\
    (status ∘ metadata) <$> contexts (beginTransaction options w).2
                              !! fresh (dom (contexts w)) = Some PENDING /\
    isTransactionActive (uuid w) (beginTransaction options w).2 = true /\
    (status ∘ metadata) <$> contexts w2 !! fresh (dom (contexts w)) = Some ROLLED_BACK /\
    (endTime ∘ metadata) <$> contexts w2 !! fresh (dom (contexts w))
      = Some (Some (now w + clamp_delay t)) /\
    isTransactionActive (uuid w) w2 = false.
Proof.
  intros Ht Hto Hne. rewrite beginTransaction_eq. cbn [snd].
  assert (truthy_num (Some t) = true) as Htr by (by apply negb_true_iff, Z.eqb_neq).
  assert (timers (began options w) =
          [{| due := now w + clamp_delay t;
              callback := Watchdog (uuid w) (fresh (dom (contexts w))) t |}]) as Htm.
  { unfold began. cbn [timers]. by rewrite Ht, Hto, Htr. }
  pose proof (clamp_delay_pos t) as Hpos.
  unfold tick. rewrite Htm. cbn [earliest take due]. rewrite Z.eqb_refl.
  cbn [due callback run_callback].
  replace (Z.max (now (began options w)) (now w + clamp_delay t))
    with (now w + clamp_delay t) by (simpl; lia).
  unfold watchdog, bind at 1, gets.
  replace (activeTransactions
             (set_now (now w + clamp_delay t) (set_timers [] (began options w)))
           !! uuid w) with (Some (fresh (dom (contexts w))))
    by (simpl; by rewrite lookup_insert_eq).
  replace (contexts (set_now (now w + clamp_delay t) (set_timers [] (began options w)))
           !! fresh (dom (contexts w))) with (Some (new_context options w))
    by (simpl; by rewrite lookup_insert_eq).
  cbn [fmap option_fmap option_map default new_context metadata status is_pending].
  unfold Datatypes.id. cbv iota. unfold bind at 1, rollbackTransaction.
  erewrite (finish_ok ROLLED_BACK _ (new_context options w) (fresh (dom (contexts w)))
              (new_context options w)); simpl; try apply lookup_insert_eq; try reflexivity.
  eexists. split; [reflexivity|]. simpl.
  split; [done|]. split; [apply lookup_insert_eq|]. split; [apply lookup_delete_eq|].
  split; [done|]. split; [done|].
  rewrite !lookup_insert_eq. split; [done|]. split.
  { unfold isTransactionActive. simpl. rewrite lookup_insert_eq.
    apply bool_decide_eq_true. eauto. }
  split; [done|]. split; [done|].
  apply inactive_false. simpl. apply lookup_delete_eq.
Qed.

Lemma watchdog_rolls_back_witness :
  timers empty_world = [] /\
  timeout (merge DEFAULT_TRANSACTION_OPTIONS no_options) = Some 30000 /\
  30000 <> 0 /\
  exists w2,
    tick (beginTransaction no_options empty_world).2 = Some w2 /\
    now w2 = now empty_world + clamp_delay 30000 /\
    contexts w2 !! fresh (dom (contexts empty_world)) =
      Some (set_status ROLLED_BACK (now empty_world + clamp_delay 30000)
              (new_context no_options empty_world)) /\
    activeTransactions w2 !! uuid empty_world = None /\
    trace w2 = trace empty_world ++ [Uncaught (ErrTimeout (uuid empty_world) 30000)] /\
    timers w2 = [] /\
    (status ∘ metadata) <$> contexts (beginTransaction no_options empty_world).2
                              !! fresh (dom (contexts empty_world)) = Some PENDING /\
    isTransactionActive (uuid empty_world) (beginTransaction no_options empty_world).2
      = true /\
    (status ∘ metadata) <$> contexts w2 !! fresh (dom (contexts empty_world))
      = Some ROLLED_BACK /\
    (endTime ∘ metadata) <$> contexts w2 !! fresh (dom (contexts empty_world))
      = Some (Some (now empty_world + clamp_delay 30000)) /\
    isTransactionActive (uuid empty_world) w2 = false.
Proof.
  split; [reflexivity|]. split; [reflexivity|]. split; [lia|].
  apply (watchdog_rolls_back no_options empty_world 30000); reflexivity || lia.
Defined.

Lemma watchdog_after_finish s options w t :
  timers w = [] ->
  timeout (merge DEFAULT_TRANSACTION_OPTIONS options) = Some t ->
  t <> 0 ->
  exists w2 w3,
    finish s (fresh (dom (contexts w))) (began options w) = (Normal tt, w2) /\
    tick w2 = Some w3 /\
    w3 = set_now (now w + clamp_delay t) (set_timers [] w2).
Proof.
  intros Ht Hto Hne.
  assert (truthy_num (Some t) = true) as Htr by (by apply negb_true_iff, Z.eqb_neq).
  assert (timers (began options w) =
          [{| due := now w + clamp_delay t;
              callback := Watchdog (uuid w) (fresh (dom (contexts w))) t |}]) as Htm.
  { unfold began. cbn [timers]. by rewrite Ht, Hto, Htr. }
  pose proof (clamp_delay_pos t) as Hpos.
  eexists. eexists. split.
  { apply (finish_ok s (fresh (dom (contexts w))) (new_context options w)
             (fresh (dom (contexts w))) (new_context options w));
      simpl; try apply lookup_insert_eq; reflexivity. }
  split; [|reflexivity].
  unfold tick. cbn [timers finished set_active set_contexts]. rewrite Htm.
  cbn [earliest take due]. rewrite Z.eqb_refl. cbn [due callback run_callback].
  match goal with |- context [Z.max ?a ?b] => replace (Z.max a b) with b by (simpl; lia) end.
  unfold watchdog, bind at 1, gets.
  match goal with |- context [activeTransactions ?x !! uuid w] =>
    replace (activeTransactions x !! uuid w) with (@None nat)
      by (simpl; by rewrite lookup_delete_eq) end.
  reflexivity.
Qed.

(** The watchdog of a transaction that was committed or rolled back in time
    does nothing when it fires: only the clock has moved. *)
Theorem watchdog_spares_ended (options : TransactionOptions) (w : World) (t : Z) :
  timers w = [] ->
  timeout (merge DEFAULT_TRANSACTION_OPTIONS options) = Some t ->
  t <> 0 ->
  exists wc wr,
    (let* c := beginTransaction options in commitTransaction c) w = (Normal tt, wc) /\
    tick wc = Some (set_now (now w + clamp_delay t) (set_timers [] wc)) /\
    (let* c := beginTransaction options in rollbackTransaction c) w = (Normal tt, wr) /\
    tick wr = Some (set_now (now w + clamp_delay t) (set_timers [] wr)).
Proof.
  intros Ht Hto Hne.
  destruct (watchdog_after_finish COMMITTED options w t Ht Hto Hne) as (wc & ? & Ec & Tc & ->).
  destruct (watchdog_after_finish ROLLED_BACK options w t Ht Hto Hne) as (wr & ? & Er & Tr & ->).
  exists wc, wr. unfold bind. rewrite beginTransaction_eq.
  unfold commitTransaction, rollbackTransaction. rewrite Ec, Er. done.
Qed.

Lemma watchdog_spares_ended_witness :
  timers empty_world = [] /\
  timeout (merge DEFAULT_TRANSACTION_OPTIONS no_options) = Some 30000 /\
  30000 <> 0 /\
  exists wc wr,
    (let* c := beginTransaction no_options in commitTransaction c) empty_world
      = (Normal tt, wc) /\
    tick wc = Some (set_now (now empty_world + clamp_delay 30000) (set_timers [] wc)) /\
    (let* c := beginTransaction no_options in rollbackTransaction c) empty_world
      = (Normal tt, wr) /\
    tick wr = Some (set_now (now empty_world + clamp_delay 30000) (set_timers [] wr)).
Proof.
  split; [reflexivity|]. split; [reflexivity|]. split; [lia|].
  apply (watchdog_spares_ended no_options empty_world 30000); reflexivity || lia.
Defined.

Lemma operations_of_append_same i op logs :
  operations_of i (append_operation i op logs) = operations_of i logs ++ [op].
Proof.
  unfold operations_of. induction logs as [|l logs IH]; simpl.
  - by rewrite Nat.eqb_refl.
  - destruct (Nat.eqb_spec (transactionId l) i) as [E|Hne]; simpl.
    + by rewrite Nat.eqb_refl.
    + destruct (Nat.eqb_spec (transactionId l) i); [done|]. exact IH.
Qed.

Lemma operations_of_append_other i j op logs :
  i <> j -> operations_of j (append_operation i op logs) = operations_of j logs.
Proof.
  intros Hij. unfold operations_of. induction logs as [|l logs IH]; simpl.
  - destruct (Nat.eqb_spec i j); done.
  - destruct (Nat.eqb_spec (transactionId l) i) as [E|Hne]; simpl.
    + destruct (Nat.eqb_spec i j); [done|].
      destruct (Nat.eqb_spec (transactionId l) j); [congruence | done].
    + destruct (Nat.eqb_spec (transactionId l) j); [done | exact IH].
Qed.

Lemma append_operation_ids i op logs :
  map transactionId (append_operation i op logs) =
    if bool_decide (i ∈ map transactionId logs)
    then map transactionId logs
    else map transactionId logs ++ [i].
Proof.
  induction logs as [|l logs IH]; cbn [append_operation map].
  - case_bool_decide as H; [by apply elem_of_nil in H | done].
  - destruct (Nat.eqb_spec (transactionId l) i) as [E|Hne]; cbn [map transactionId].
    + subst i. clear IH. case_bool_decide as H; [done|]. exfalso. apply H. apply elem_of_cons; by left.
    + rewrite IH. repeat case_bool_decide; try done.
      * exfalso. match goal with H : _ ∉ _ :: _ |- _ => apply H end.
        apply elem_of_cons; by right.
      * exfalso. match goal with H : _ ∈ _ :: _ |- _ => apply elem_of_cons in H as [?|?] end;
          congruence.
Qed.

(** [logOperation] takes any transaction id, active or not: the operation
    goes to the end of the log of that id, which is created at the end of
    the logs when it is missing; the logs of the other ids, the order of the
    logs and the transactions are left alone. *)
Theorem logOperation_appends (i : nat) (op : TransactionOperation) (w : World) :
  exists w',
    logOperation i op w = (Normal tt, w') /\
    operations_of i (getTransactionLogs w') = operations_of i (getTransactionLogs w) ++ [op] /\
    (forall j, i <> j ->
       operations_of j (getTransactionLogs w') = operations_of j (getTransactionLogs w)) /\
    map transactionId (getTransactionLogs w') =
      (if bool_decide (i ∈ map transactionId (getTransactionLogs w))
       then map transactionId (getTransactionLogs w)
       else map transactionId (getTransactionLogs w) ++ [i]) /\
    activeTransactions w' = activeTransactions w /\
    contexts w' = contexts w.
Proof.
  eexists. split; [reflexivity|]. simpl.
  split; [apply operations_of_append_same|].
  split; [intros j Hj; by apply operations_of_append_other|].
  split; [apply append_operation_ids|]. done.
Qed.

(** The ids of the logs stay distinct: one log per transaction. *)
Theorem logOperation_one_log_per_id (i : nat) (op : TransactionOperation) (w : World) :
  NoDup (map transactionId (getTransactionLogs w)) ->
  NoDup (map transactionId (getTransactionLogs (logOperation i op w).2)).
Proof.
  intros Hnd. simpl. unfold getTransactionLogs in *. simpl. rewrite append_operation_ids.
  destruct (bool_decide (i ∈ map transactionId (transactionLogs w))) eqn:Hb; [done|].
  apply bool_decide_eq_false in Hb. apply NoDup_app. split; [done|]. split.
  - intros x Hx [->|H]%elem_of_cons; [done|]. by apply elem_of_nil in H.
  - apply NoDup_singleton.
Qed.

Lemma logOperation_one_log_per_id_witness :
  NoDup (map transactionId (getTransactionLogs (logOperation 3 sample_operation one_open).2)) /\
  NoDup (map transactionId
           (getTransactionLogs
              (logOperation 4 sample_operation
                 (logOperation 3 sample_operation one_open).2).2)).
Proof.
  assert (NoDup (map transactionId
                   (getTransactionLogs (logOperation 3 sample_operation one_open).2))) as H
    by (simpl; apply NoDup_singleton).
  split; [exact H|].
  apply (logOperation_one_log_per_id 4 sample_operation _ H).
Defined.

End TMInvariant.

(** ** [executeTransaction] and bodies that act on the manager *)

Section TMBodies.
Import TM Effects Invariant.

(** The end of [executeTransaction] after the body: [commitTransaction], or
    the [catch] block with [rollbackTransaction]. *)
Lemma finish_or_not_found s c cx w :
  consistent w ->
  contexts w !! c = Some cx ->
  exists w',
    finish s c w
      = (if is_pending (status (metadata cx)) then Normal tt
         else Throw (ErrNotFound (id (metadata cx))), w') /\
    (status ∘ metadata) <$> contexts w' !! c
      = Some (if is_pending (status (metadata cx)) then s else status (metadata cx)) /\
    isTransactionActive (id (metadata cx)) w' = false /\
    (forall c', c' <> c -> contexts w' !! c' = contexts w !! c') /\
    (forall i, i <> id (metadata cx) ->
       activeTransactions w' !! i = activeTransactions w !! i) /\
    (is_pending (status (metadata cx)) = false -> w' = w).
Proof.
  intros H Hc. destruct (finish_outcome s c cx w H Hc) as (F1 & _ & F3 & _).
  rewrite (finish_consistent_eq s c cx w H Hc) in F1, F3 |- *.
  destruct (is_pending (status (metadata cx))); eexists; (split; [reflexivity|]);
    cbn [snd] in *; repeat split; try done.
  - intros c' Hne. simpl. by rewrite lookup_insert_ne.
  - intros i Hne. simpl. by rewrite lookup_delete_ne.
Qed.

(** [executeTransaction] with any body, whatever it does to the manager.
    When the body returns [v] and has left a consistent manager in which
    the context of the call is still PENDING, [executeTransaction] returns
    [v], and the context is COMMITTED and out of the active set.  When the
    body has ended the context itself, [commitTransaction] and then the
    [rollbackTransaction] of the [catch] block throw:
    [executeTransaction] throws "not found" instead of returning [v], and
    leaves the manager as the body left it.  In both cases the other
    contexts and transactions are as the body left them. *)
Theorem executeTransaction_returns (fn : nat -> M World value)
    (later : Z -> nat -> Z -> M World unit) (options : TransactionOptions)
    (w w2 : World) (v : value) (cx2 : TransactionContext) :
  fn (fresh (dom (contexts w))) (beginTransaction options w).2 = (Normal v, w2) ->
  consistent w2 ->
  contexts w2 !! fresh (dom (contexts w)) = Some cx2 ->
  exists w',
    ManagerOver.executeTransaction ManagerOver.here fn later options w
      = (if is_pending (status (metadata cx2)) then Normal (RValue v)
         else Throw (ErrNotFound (id (metadata cx2))), w') /\
    (status ∘ metadata) <$> contexts w' !! fresh (dom (contexts w))
      = Some (if is_pending (status (metadata cx2)) then COMMITTED
              else status (metadata cx2)) /\
    isTransactionActive (id (metadata cx2)) w' = false /\
    (forall c, c <> fresh (dom (contexts w)) -> contexts w' !! c = contexts w2 !! c) /\
    (forall i, i <> id (metadata cx2) ->
       activeTransactions w' !! i = activeTransactions w2 !! i) /\
    (is_pending (status (metadata cx2)) = false -> w' = w2).
Proof.
  intros Hfn H2 Hc2.
  destruct (finish_or_not_found COMMITTED _ cx2 w2 H2 Hc2) as (wc & Ec & C1 & C2 & C3 & C4 & C5).
  destruct (finish_or_not_found ROLLED_BACK _ cx2 w2 H2 Hc2)
    as (wr & Er & R1 & R2 & R3 & R4 & R5).
  rewrite beginTransaction_eq in Hfn. cbn [snd] in Hfn.
  unfold ManagerOver.executeTransaction, ManagerOver.here.
  unfold bind at 1. rewrite beginTransaction_eq.
  unfold try_catch, bind at 1. rewrite Hfn.
  unfold bind at 1, commitTransaction. rewrite Ec.
  destruct (is_pending (status (metadata cx2))) eqn:Hp.
  - exists wc. by repeat split.
  - rewrite (C5 eq_refl) in *. unfold bind at 1, rollbackTransaction. rewrite Er.
    rewrite (R5 eq_refl) in *. exists w2. by repeat split.
Qed.

Lemma executeTransaction_returns_witness :
  ManagerOver.returns_1 (fresh (dom (contexts one_open)))
    (beginTransaction no_options one_open).2
    = (Normal (VNum 1), (beginTransaction no_options one_open).2) /\
  consistent (beginTransaction no_options one_open).2 /\
  contexts (beginTransaction no_options one_open).2 !! fresh (dom (contexts one_open))
    = Some (new_context no_options one_open) /\
  exists w',
    ManagerOver.executeTransaction ManagerOver.here ManagerOver.returns_1
        ManagerOver.no_timer no_options one_open
      = (if is_pending (status (metadata (new_context no_options one_open)))
         then Normal (RValue (VNum 1))
         else Throw (ErrNotFound (id (metadata (new_context no_options one_open)))), w') /\
    (status ∘ metadata) <$> contexts w' !! fresh (dom (contexts one_open))
      = Some (if is_pending (status (metadata (new_context no_options one_open)))
              then COMMITTED
              else status (metadata (new_context no_options one_open))) /\
    isTransactionActive (id (metadata (new_context no_options one_open))) w' = false /\
    (forall c, c <> fresh (dom (contexts one_open)) ->
       contexts w' !! c = contexts (beginTransaction no_options one_open).2 !! c) /\
    (forall i, i <> id (metadata (new_context no_options one_open)) ->
       activeTransactions w' !! i
       = activeTransactions (beginTransaction no_options one_open).2 !! i) /\
    (is_pending (status (metadata (new_context no_options one_open))) = false ->
       w' = (beginTransaction no_options one_open).2).
Proof.
  assert (consistent (beginTransaction no_options one_open).2) as H
    by apply keeps_beginTransaction, consistent_one_open.
  assert (contexts (beginTransaction no_options one_open).2
            !! fresh (dom (contexts one_open))
          = Some (new_context no_options one_open)) as Hc
    by (rewrite beginTransaction_eq; simpl; apply lookup_insert_eq).
  split; [reflexivity|]. split; [exact H|]. split; [exact Hc|].
  apply (executeTransaction_returns ManagerOver.returns_1 ManagerOver.no_timer no_options
           one_open _ (VNum 1) (new_context no_options one_open) eq_refl H Hc).
Defined.

(** A body that commits its own context and returns 1: the call throws
    "not found", and the context stays COMMITTED. *)
Example body_commits_its_context :
  (ManagerOver.executeTransaction ManagerOver.here ManagerOver.commits_itself
     ManagerOver.no_timer no_options empty_world).1 = Throw (ErrNotFound 0) /\
  (status ∘ metadata) <$>
    contexts (ManagerOver.executeTransaction ManagerOver.here ManagerOver.commits_itself
                ManagerOver.no_timer no_options empty_world).2 !! 0%nat
    = Some COMMITTED.
Proof. vm_compute. done. Qed.

(** [executeTransaction] with any body that throws [e], when the options of
    the call do not ask for a retry.  When the body has left a consistent
    manager in which the context of the call is still PENDING,
    [executeTransaction] throws [e], and the context is ROLLED_BACK and out
    of the active set.  When the body has ended the context itself, the
    [rollbackTransaction] of the [catch] block throws: "not found" comes
    out in place of [e], and the manager is as the body left it. *)
Theorem executeTransaction_throws (fn : nat -> M World value)
    (later : Z -> nat -> Z -> M World unit) (options : TransactionOptions)
    (w w2 : World) (e : exn) (cx2 : TransactionContext) :
  fn (fresh (dom (contexts w))) (beginTransaction options w).2 = (Throw e, w2) ->
  retry_enabled options = false ->
  consistent w2 ->
  contexts w2 !! fresh (dom (contexts w)) = Some cx2 ->
  exists w',
    ManagerOver.executeTransaction ManagerOver.here fn later options w
      = (Throw (if is_pending (status (metadata cx2)) then e
                else ErrNotFound (id (metadata cx2))), w') /\
    (status ∘ metadata) <$> contexts w' !! fresh (dom (contexts w))
      = Some (if is_pending (status (metadata cx2)) then ROLLED_BACK
              else status (metadata cx2)) /\
    isTransactionActive (id (metadata cx2)) w' = false /\
    (forall c, c <> fresh (dom (contexts w)) -> contexts w' !! c = contexts w2 !! c) /\
    (forall i, i <> id (metadata cx2) ->
       activeTransactions w' !! i = activeTransactions w2 !! i) /\
    (is_pending (status (metadata cx2)) = false -> w' = w2).
Proof.
  intros Hfn Hr H2 Hc2.
  destruct (finish_or_not_found ROLLED_BACK _ cx2 w2 H2 Hc2)
    as (wr & Er & R1 & R2 & R3 & R4 & R5).
  rewrite beginTransaction_eq in Hfn. cbn [snd] in Hfn.
  unfold ManagerOver.executeTransaction, ManagerOver.here.
  unfold bind at 1. rewrite beginTransaction_eq.
  unfold try_catch, bind at 1. rewrite Hfn.
  unfold bind at 1, rollbackTransaction. rewrite Er.
  destruct (is_pending (status (metadata cx2))) eqn:Hp.
  - rewrite Hr. exists wr. by repeat split.
  - exists wr. by repeat split.
Qed.

Lemma executeTransaction_throws_witness :
  ManagerOver.throws_0 (fresh (dom (contexts one_open)))
    (beginTransaction no_options one_open).2
    = (Throw (ErrUser 0), (beginTransaction no_options one_open).2) /\
  retry_enabled no_options = false /\
  consistent (beginTransaction no_options one_open).2 /\
  contexts (beginTransaction no_options one_open).2 !! fresh (dom (contexts one_open))
    = Some (new_context no_options one_open) /\
  exists w',
    ManagerOver.executeTransaction ManagerOver.here ManagerOver.throws_0
        ManagerOver.no_timer no_options one_open
      = (Throw (if is_pending (status (metadata (new_context no_options one_open)))
                then ErrUser 0
                else ErrNotFound (id (metadata (new_context no_options one_open)))), w') /\
    (status ∘ metadata) <$> contexts w' !! fresh (dom (contexts one_open))
      = Some (if is_pending (status (metadata (new_context no_options one_open)))
              then ROLLED_BACK
              else status (metadata (new_context no_options one_open))) /\
    isTransactionActive (id (metadata (new_context no_options one_open))) w' = false /\
    (forall c, c <> fresh (dom (contexts one_open)) ->
       contexts w' !! c = contexts (beginTransaction no_options one_open).2 !! c) /\
    (forall i, i <> id (metadata (new_context no_options one_open)) ->
       activeTransactions w' !! i
       = activeTransactions (beginTransaction no_options one_open).2 !! i) /\
    (is_pending (status (metadata (new_context no_options one_open))) = false ->
       w' = (beginTransaction no_options one_open).2).
Proof.
  assert (consistent (beginTransaction no_options one_open).2) as H
    by apply keeps_beginTransaction, consistent_one_open.
  assert (contexts (beginTransaction no_options one_open).2
            !! fresh (dom (contexts one_open))
          = Some (new_context no_options one_open)) as Hc
    by (rewrite beginTransaction_eq; simpl; apply lookup_insert_eq).
  split; [reflexivity|]. split; [reflexivity|]. split; [exact H|]. split; [exact Hc|].
  apply (executeTransaction_throws ManagerOver.throws_0 ManagerOver.no_timer no_options
           one_open _ (ErrUser 0) (new_context no_options one_open) eq_refl eq_refl H Hc).
Defined.

(** A body that rolls back its own context and throws: "not found" comes
    out in place of the error of the body. *)
Example body_rolls_back_its_context :
  (ManagerOver.executeTransaction ManagerOver.here ManagerOver.rolls_back_and_throws
     ManagerOver.no_timer no_options empty_world).1 = Throw (ErrNotFound 0) /\
  (status ∘ metadata) <$>
    contexts (ManagerOver.executeTransaction ManagerOver.here
                ManagerOver.rolls_back_and_throws ManagerOver.no_timer no_options
                empty_world).2 !! 0%nat
    = Some ROLLED_BACK.
Proof. vm_compute. done. Qed.

End TMBodies.

(** ** Nested transactions of the manager of safeflow-reactive *)

Section ReactiveManagerNesting.
Import TM Effects Invariant.

(** [getActiveTransactions()] after [beginTransaction]: the new context
    comes last. *)
Lemma getActiveTransactions_began options w :
  consistent w ->
  getActiveTransactions (began options w)
  = getActiveTransactions w ++ [fresh (dom (contexts w))].
Proof.
  intros (HA & HD & HB & HC). unfold getActiveTransactions.
  change (uuid (began options w)) with (S (uuid w)).
  change (activeTransactions (began options w))
    with (<[uuid w := fresh (dom (contexts w))]> (activeTransactions w)).
  rewrite seq_S, omap_app. cbn [omap list_omap Nat.add]. rewrite lookup_insert_eq. f_equal.
  assert (forall n, (n <= uuid w)%nat ->
            omap (fun i => <[uuid w := fresh (dom (contexts w))]> (activeTransactions w) !! i)
              (seq 0 n)
            = omap (fun i => activeTransactions w !! i) (seq 0 n)) as H.
  { induction n as [|n IH]; intros Hn; [done|].
    rewrite seq_S, !omap_app, IH by lia. cbn [omap list_omap Nat.add].
    rewrite lookup_insert_ne by lia. done. }
  by apply H.
Qed.

(** C5, as stated, fails on the manager of safeflow-reactive, which has two
    fields, the map [activeTransactions] and the array [transactionLogs],
    and neither a stack nor a current transaction.  After
    [beginTransaction()] twice on a new manager, the context 0 of the first
    call and the context 1 of the second are in the active set side by
    side, and nothing was pushed: the only array of the manager is empty.
    [commitTransaction] of the context 1 takes its entry out of the active
    set and does nothing else: there is nothing to restore.  The manager
    does not take the context 1 for the current one either:
    [commitTransaction] of the context 0, the enclosing one, returns while
    the context 1 is open, and leaves the context 1 PENDING and active;
    [commitTransaction] of the context 1 then restores nothing: the manager
    is left with no transaction, as it is when the two are ended in the
    other order. *)
Lemma reactive_manager_keeps_no_stack :
  beginTransaction no_options empty_world = (Normal 0%nat, one_open) /\
  beginTransaction no_options one_open = (Normal 1%nat, two_open) /\
  activeTransactions one_open = {[0%nat := 0%nat]} /\
  activeTransactions two_open = {[0%nat := 0%nat; 1%nat := 1%nat]} /\
  getActiveTransactions two_open = [0%nat; 1%nat] /\
  transactionLogs two_open = [] /\
  (commitTransaction 1 two_open).1 = Normal tt /\
  activeTransactions (commitTransaction 1 two_open).2 = activeTransactions one_open /\
  transactionLogs (commitTransaction 1 two_open).2 = [] /\
  (commitTransaction 0 two_open).1 = Normal tt /\
  (status ∘ metadata) <$> contexts (commitTransaction 0 two_open).2 !! 0%nat
    = Some COMMITTED /\
  (status ∘ metadata) <$> contexts (commitTransaction 0 two_open).2 !! 1%nat
    = Some PENDING /\
  activeTransactions (commitTransaction 0 two_open).2 = {[1%nat := 1%nat]} /\
  (commitTransaction 1 (commitTransaction 0 two_open).2).1 = Normal tt /\
  activeTransactions (commitTransaction 1 (commitTransaction 0 two_open).2).2 = ∅ /\
  commitTransaction 1 (commitTransaction 0 two_open).2
  = commitTransaction 0 (commitTransaction 1 two_open).2.
Proof. vm_compute. done. Qed.

(** C5 (amended).  The manager of safeflow-reactive keeps the open contexts
    in [activeTransactions] and nothing else.  With a PENDING context
    [outer] in a consistent manager, [beginTransaction] returns a new
    PENDING context with an id of its own, adds it to the active set and
    changes nothing else in the manager (it sets the timer of the timeout,
    which is not of the manager); [outer] stays active and PENDING, the same
    object, while the new context is open and after [commitTransaction] or
    [rollbackTransaction] of the new context, which both return and leave
    the active set and the logs as they were before the new context began.
    No order is imposed: [commitTransaction] of [outer] returns while the
    new context is open, and leaves the new context PENDING and active. *)
Theorem nested_begin_keeps_outer_active (options : TransactionOptions) (w : World)
    (outer : nat) (cx : TransactionContext) :
  consistent w ->
  contexts w !! outer = Some cx ->
  status (metadata cx) = PENDING ->
  exists inner cxi w1 w2 w3 w4,
    beginTransaction options w = (Normal inner, w1) /\
    inner <> outer /\
    contexts w1 !! inner = Some cxi /\
    status (metadata cxi) = PENDING /\
    id (metadata cxi) <> id (metadata cx) /\
    activeTransactions w1 = <[id (metadata cxi) := inner]> (activeTransactions w) /\
    transactionLogs w1 = transactionLogs w /\
    activeTransactions w1 !! id (metadata cx) = Some outer /\
    contexts w1 !! outer = Some cx /\
    commitTransaction inner w1 = (Normal tt, w2) /\
    (status ∘ metadata) <$> contexts w2 !! inner = Some COMMITTED /\
    activeTransactions w2 = activeTransactions w /\
    transactionLogs w2 = transactionLogs w /\
    contexts w2 !! outer = Some cx /\
    rollbackTransaction inner w1 = (Normal tt, w3) /\
    (status ∘ metadata) <$> contexts w3 !! inner = Some ROLLED_BACK /\
    activeTransactions w3 = activeTransactions w /\
    transactionLogs w3 = transactionLogs w /\
    contexts w3 !! outer = Some cx /\
    commitTransaction outer w1 = (Normal tt, w4) /\
    (status ∘ metadata) <$> contexts w4 !! outer = Some COMMITTED /\
    activeTransactions w4 !! id (metadata cx) = None /\
    contexts w4 !! inner = Some cxi /\
    activeTransactions w4 !! id (metadata cxi) = Some inner.
Proof.
  intros (HA & HD & HB & HC) Hc Hp.
  set (inner := fresh (dom (contexts w))).
  assert (inner <> outer) as Hne.
  { intros E. pose proof (is_fresh (dom (contexts w))) as Hf. fold inner in Hf.
    rewrite E in Hf. apply Hf, elem_of_dom. eauto. }
  assert (uuid w <> id (metadata cx)) as Hid.
  { pose proof (HB _ _ Hc). lia. }
  assert (activeTransactions w !! uuid w = None) as Hfree.
  { destruct (activeTransactions w !! uuid w) as [c|] eqn:Ha; [|done].
    destruct (HA _ _ Ha) as (tx & Ht & Hi & _). pose proof (HB _ _ Ht). lia. }
  assert (forall s, finish s inner (began options w)
                    = (Normal tt, finished s (uuid w) inner (new_context options w)
                                    (began options w))) as Hfin.
  { intros s. apply (finish_ok s inner (new_context options w) inner (new_context options w));
      simpl; try apply lookup_insert_eq; reflexivity. }
  exists inner, (new_context options w), (began options w).
  exists (finished COMMITTED (uuid w) inner (new_context options w) (began options w)).
  exists (finished ROLLED_BACK (uuid w) inner (new_context options w) (began options w)).
  exists (finished COMMITTED (id (metadata cx)) outer cx (began options w)).
  split; [apply beginTransaction_eq|]. split; [done|].
  split; [simpl; apply lookup_insert_eq|]. split; [done|]. split; [done|].
  split; [done|]. split; [done|].
  split; [simpl; rewrite lookup_insert_ne by done; by apply HD|].
  split; [simpl; by rewrite lookup_insert_ne|].
  split; [apply Hfin|].
  split; [simpl; by rewrite lookup_insert_eq|].
  split; [simpl; by apply delete_insert_id|].
  split; [done|].
  split; [simpl; rewrite lookup_insert_ne by done; by rewrite lookup_insert_ne|].
  split; [apply Hfin|].
  split; [simpl; by rewrite lookup_insert_eq|].
  split; [simpl; by apply delete_insert_id|].
  split; [done|].
  split; [simpl; rewrite lookup_insert_ne by done; by rewrite lookup_insert_ne|].
  split.
  { apply (finish_ok COMMITTED outer cx outer cx); simpl; try done.
    - by rewrite lookup_insert_ne.
    - rewrite lookup_insert_ne by done. by apply HD.
    - by rewrite lookup_insert_ne. }
  split; [simpl; by rewrite lookup_insert_eq|].
  split; [simpl; apply lookup_delete_eq|].
  split; [simpl; rewrite lookup_insert_ne by done; apply lookup_insert_eq|].
  simpl. rewrite lookup_delete_ne by done. apply lookup_insert_eq.
Qed.

Lemma nested_begin_keeps_outer_active_witness :
  consistent one_open /\
  contexts one_open !! 0%nat = Some (new_context no_options empty_world) /\
  status (metadata (new_context no_options empty_world)) = PENDING /\
  exists inner cxi w1 w2 w3 w4,
    beginTransaction no_options one_open = (Normal inner, w1) /\
    inner <> 0%nat /\
    contexts w1 !! inner = Some cxi /\
    status (metadata cxi) = PENDING /\
    id (metadata cxi) <> id (metadata (new_context no_options empty_world)) /\
    activeTransactions w1 = <[id (metadata cxi) := inner]> (activeTransactions one_open) /\
    transactionLogs w1 = transactionLogs one_open /\
    activeTransactions w1 !! id (metadata (new_context no_options empty_world))
      = Some 0%nat /\
    contexts w1 !! 0%nat = Some (new_context no_options empty_world) /\
    commitTransaction inner w1 = (Normal tt, w2) /\
    (status ∘ metadata) <$> contexts w2 !! inner = Some COMMITTED /\
    activeTransactions w2 = activeTransactions one_open /\
    transactionLogs w2 = transactionLogs one_open /\
    contexts w2 !! 0%nat = Some (new_context no_options empty_world) /\
    rollbackTransaction inner w1 = (Normal tt, w3) /\
    (status ∘ metadata) <$> contexts w3 !! inner = Some ROLLED_BACK /\
    activeTransactions w3 = activeTransactions one_open /\
    transactionLogs w3 = transactionLogs one_open /\
    contexts w3 !! 0%nat = Some (new_context no_options empty_world) /\
    commitTransaction 0 w1 = (Normal tt, w4) /\
    (status ∘ metadata) <$> contexts w4 !! 0%nat = Some COMMITTED /\
    activeTransactions w4 !! id (metadata (new_context no_options empty_world)) = None /\
    contexts w4 !! inner = Some cxi /\
    activeTransactions w4 !! id (metadata cxi) = Some inner.
Proof.
  split; [apply consistent_one_open|].
  split; [vm_compute; reflexivity|]. split; [reflexivity|].
  apply (nested_begin_keeps_outer_active no_options one_open 0
           (new_context no_options empty_world));
    [apply consistent_one_open | vm_compute; reflexivity | reflexivity].
Defined.

End ReactiveManagerNesting.

(** ** More about the store *)



Section StoreMore2.
Import TM Store Effects StoreEffects StoreObserved.

Lemma props_stable (h h' : gmap loc obj) (p : value) :
  h ⊆ h' -> (forall l, p = VRef l -> is_Some (h !! l)) -> props h' p = props h p.
Proof.
  intros Hsub Hp. destruct p as [| |b|n|s|l]; try done.
  destruct (Hp l eq_refl) as [o Ho]. unfold props.
  by rewrite (lookup_weaken _ _ _ _ Ho Hsub), Ho.
Qed.

Lemma merged_ext (h h' : gmap loc obj) (o : obj) (ps : list value) :
  (forall p, p ∈ ps -> props h' p = props h p) -> merged h' o ps = merged h o ps.
Proof.
  revert o. induction ps as [|p ps IH]; intros o H; [done|]. simpl.
  rewrite (H p) by (apply elem_of_cons; by left). apply IH.
  intros q Hq. apply H. apply elem_of_cons; by right.
Qed.

(** A sequence of [setState] calls: the state at the end, and the value
    that was published last. *)
Lemma setStates_merged (ps : list value) (s : Sys) :
  Subject._isClosed (subject (store s)) = false ->
  (forall p l, p ∈ ps -> p = VRef l -> is_Some (heap (world s) !! l)) ->
  exists s',
    setStates ps s = (Normal tt, s') /\
    getState_props s' = merged (heap (world s)) (getState_props s) ps /\
    (ps <> [] ->
     exists l, Subject.lastValue (subject (store s')) = VRef l /\
               heap (world s') !! l = Some (getState_props s')).
Proof.
  revert s. induction ps as [|p ps IH]; intros s Hc Hps.
  - exists s. done.
  - destruct (setState_frame p s Hc) as (s1 & E1 & Hh & _ & _ & Hc1 & _).
    assert (getState_props s1 = props (heap (world s)) p ∪ getState_props s /\
            exists l, Subject.lastValue (subject (store s1)) = VRef l /\
                      heap (world s1) !! l = Some (getState_props s1)) as [Hg Hl].
    { rewrite (setState_eq p s Hc) in E1. injection E1 as <-.
      match goal with |- context [published ?x] => set (s0 := x) end.
      destruct (published_value s0) as [_ Hp]. rewrite Hp. split.
      - rewrite !getState_props_eq. subst s0; simpl. by rewrite lookup_insert_eq.
      - eexists. split; [reflexivity|]. rewrite getState_props_eq. simpl.
        by rewrite lookup_insert_eq. }
    destruct (IH s1 Hc1) as (s' & E' & Hg' & Hl').
    { intros q l Hq ->.
      apply (lookup_weaken_is_Some _ _ _
               (Hps _ l (proj2 (elem_of_cons _ _ _) (or_intror Hq)) eq_refl) Hh). }
    exists s'. split; [simpl; unfold bind; by rewrite E1|]. split.
    + rewrite Hg', Hg. simpl. apply merged_ext. intros q Hq.
      apply props_stable; [done|]. intros l ->. apply (Hps (VRef l) l); [|done].
      apply elem_of_cons; by right.
    + intros _. destruct ps as [|q ps]; [|by apply Hl'].
      simpl in E'. injection E' as <-. exact Hl.
Qed.

(** After a sequence of [setState] calls with objects that exist,
    [getState()] shows the shallow merge of the objects, in the order of
    the calls, into the state from which the sequence started. *)
Theorem setStates_merge_in_order (ps : list value) (s : Sys) :
  Subject._isClosed (subject (store s)) = false ->
  (forall p l, p ∈ ps -> p = VRef l -> is_Some (heap (world s) !! l)) ->
  exists s',
    setStates ps s = (Normal tt, s') /\
    getState_props s' = merged (heap (world s)) (getState_props s) ps.
Proof.
  intros Hc Hps. destruct (setStates_merged ps s Hc Hps) as (s' & E & Hg & _).
  by exists s'.
Qed.


Lemma setStates_merge_in_order_witness :
  Subject._isClosed (subject (store Scenario.subscribed_store)) = false /\
  (forall p l, p ∈ [VRef 0%nat; VStr "ab"] -> p = VRef l ->
               is_Some (heap (world Scenario.subscribed_store) !! l)) /\
  exists s',
    setStates [VRef 0%nat; VStr "ab"] Scenario.subscribed_store = (Normal tt, s') /\
    getState_props s' =
      merged (heap (world Scenario.subscribed_store))
        (getState_props Scenario.subscribed_store) [VRef 0%nat; VStr "ab"].
Proof.
  assert (forall p l, p ∈ [VRef 0%nat; VStr "ab"] -> p = VRef l ->
                      is_Some (heap (world Scenario.subscribed_store) !! l)) as H.
  { intros p l Hp ->. apply elem_of_cons in Hp as [[= ->]|Hp]; [vm_compute; eauto|].
    apply elem_of_cons in Hp as [Hp|Hp]; [discriminate|]. by apply elem_of_nil in Hp. }
  split; [reflexivity|]. split; [exact H|].
  apply (setStates_merge_in_order [VRef 0%nat; VStr "ab"] Scenario.subscribed_store
           eq_refl H).
Defined.

Lemma props_insert_fresh_copy (h : gmap loc obj) (v : value) (l' : loc) :
  h !! l' = None -> props (<[l' := props h v]> h) v = props h v.
Proof.
  intros Hl. destruct v as [| |b|n|s|l]; try done. by apply props_insert_copy.
Qed.

(** What the constructor builds. *)
Lemma new_spec initial w :
  getState_props (Store.new initial w) = props (heap w) initial /\
  props (heap (world (Store.new initial w)))
        (VRef (initialState (store (Store.new initial w)))) = props (heap w) initial /\
  heap w ⊆ heap (world (Store.new initial w)) /\
  heap w !! state (store (Store.new initial w)) = None /\
  heap w !! initialState (store (Store.new initial w)) = None /\
  is_Some (heap (world (Store.new initial w)) !! initialState (store (Store.new initial w))).
Proof.
  rewrite getState_props_eq. unfold Store.new, alloc. cbn [world store state initialState heap set_heap].
  set (l1 := fresh (dom (heap w))).
  set (h1 := <[l1 := props (heap w) initial]> (heap w)).
  set (l2 := fresh (dom h1)).
  assert (heap w !! l1 = None) as H1 by apply fresh_lookup.
  assert (h1 !! l2 = None) as H2 by apply fresh_lookup.
  assert (l2 <> l1) as Hne by apply fresh_insert_ne.
  assert (props h1 initial = props (heap w) initial) as Hp
    by (by apply props_insert_fresh_copy).
  rewrite Hp. split.
  { unfold props at 1. by rewrite lookup_insert_eq. }
  split.
  { unfold props at 1. rewrite lookup_insert_ne by done. unfold h1.
    by rewrite lookup_insert_eq. }
  split.
  { etrans; [apply (insert_fresh_subseteq (props (heap w) initial))|].
    apply insert_subseteq, H2. }
  split.
  { destruct (heap w !! l2) eqn:E; [|done]. unfold h1 in H2.
    rewrite lookup_insert_ne in H2 by done. congruence. }
  split; [done|]. rewrite lookup_insert_ne by done. unfold h1.
  rewrite lookup_insert_eq. eauto.
Qed.

Lemma setStates_initialState ps s :
  Subject._isClosed (subject (store s)) = false ->
  initialState (store (setStates ps s).2) = initialState (store s).
Proof.
  revert s. induction ps as [|p ps IH]; intros s Hc; [done|]. simpl. unfold bind.
  destruct (setState_frame p s Hc) as (s1 & E1 & _ & _ & _ & Hc1 & _).
  rewrite E1. rewrite (IH s1 Hc1). rewrite (setState_eq p s Hc) in E1.
  by injection E1 as <-.
Qed.

(** Whatever [setState] calls were made since the construction,
    [resetState] brings [getState()] back to the properties that the initial
    object had when the store was built. *)
Theorem resetState_returns_to_initial (initial : value) (w : World) (ps : list value) :
  exists s1 s2,
    setStates ps (Store.new initial w) = (Normal tt, s1) /\
    resetState s1 = (Normal tt, s2) /\
    getState_props (Store.new initial w) = props (heap w) initial /\
    getState_props s2 = props (heap w) initial.
Proof.
  destruct (new_spec initial w) as (Hg & Hi & Hsub & _ & _ & [o Ho]).
  destruct (setStates_frame ps (Store.new initial w) (new_open initial w))
    as (s1 & E1 & Hh & _ & _ & Hc1 & _).
  destruct (resetState_restores_initial s1 Hc1) as (s2 & E2 & Hg2 & _).
  exists s1, s2. repeat split; try done. rewrite Hg2.
  pose proof (setStates_initialState ps (Store.new initial w) (new_open initial w)) as Hin.
  rewrite E1 in Hin. cbn [snd] in Hin. rewrite Hin.
  rewrite (props_weaken _ _ _ _ Hh Ho). rewrite <- Hi. unfold props. by rewrite Ho.
Qed.

Lemma caller_assigns_all_lookup (l l' : loc) (kxs : list (string * value)) (s : Sys) :
  l <> l' ->
  heap (world (caller_assigns_all (VRef l) kxs s)) !! l' = heap (world s) !! l' /\
  store (caller_assigns_all (VRef l) kxs s) = store s.
Proof.
  intros Hne. revert s. induction kxs as [|[k x] kxs IH]; intros s; simpl; [done|].
  destruct (IH (caller_assigns (VRef l) k x s)) as [-> ->]. split; [|done].
  unfold caller_assigns. cbn [world heap set_heap]. by apply assign_other.
Qed.

(** The store keeps copies of the initial object: assignments to properties
    of the object that was given to the constructor change neither
    [getState()] nor what [resetState] restores. *)
Theorem constructor_copies_initial (l : loc) (w : World) (kxs : list (string * value)) :
  is_Some (heap w !! l) ->
  getState_props (caller_assigns_all (VRef l) kxs (Store.new (VRef l) w))
    = props (heap w) (VRef l) /\
  exists s',
    resetState (caller_assigns_all (VRef l) kxs (Store.new (VRef l) w)) = (Normal tt, s') /\
    getState_props s' = props (heap w) (VRef l).
Proof.
  intros Hl.
  destruct (new_spec (VRef l) w) as (Hg & Hi & Hsub & Hs & Hin & _).
  assert (l <> state (store (Store.new (VRef l) w))) as Hne1.
  { intros E. rewrite <- E in Hs. rewrite Hs in Hl. by destruct Hl. }
  assert (l <> initialState (store (Store.new (VRef l) w))) as Hne2.
  { intros E. rewrite <- E in Hin. rewrite Hin in Hl. by destruct Hl. }
  split; [by rewrite caller_assigns_all_other|].
  set (s := caller_assigns_all (VRef l) kxs (Store.new (VRef l) w)).
  destruct (caller_assigns_all_lookup l _ kxs (Store.new (VRef l) w) Hne2) as [Hlk Hst].
  fold s in Hlk, Hst.
  assert (Subject._isClosed (subject (store s)) = false) as Hc by (by rewrite Hst).
  destruct (resetState_restores_initial s Hc) as (s' & E & Hg' & _).
  exists s'. split; [done|]. rewrite Hg', Hst. unfold props at 1. rewrite Hlk.
  exact Hi.
Qed.

Lemma constructor_copies_initial_witness :
  is_Some (heap Scenario.counter_world !! 0%nat) /\
  getState_props
    (caller_assigns_all (VRef 0%nat) [("count", VNum 5)]
       (Store.new (VRef 0%nat) Scenario.counter_world))
    = props (heap Scenario.counter_world) (VRef 0%nat) /\
  exists s',
    resetState
      (caller_assigns_all (VRef 0%nat) [("count", VNum 5)]
         (Store.new (VRef 0%nat) Scenario.counter_world)) = (Normal tt, s') /\
    getState_props s' = props (heap Scenario.counter_world) (VRef 0%nat).
Proof.
  assert (is_Some (heap Scenario.counter_world !! 0%nat)) as H by (vm_compute; eauto).
  split; [exact H|].
  apply (constructor_copies_initial 0%nat Scenario.counter_world [("count", VNum 5)] H).
Defined.

(** A store that has published nothing yet replays nothing: an observer
    that subscribes right after the construction is not called. *)
Theorem new_store_replays_nothing (initial : value) (w : World) (a : Subject.subscribe_args) :
  exists sub s,
    subscribe a (Store.new initial w) = (Normal sub, s) /\
    trace (world s) = trace w /\
    Subject.observers (subject (store s)) = [Subject.make_observer a].
Proof.
  unfold subscribe, with_subject, Store.new, alloc. simpl. eauto.
Qed.


(** [rollbackTransaction] of the store on a context that is already
    committed: the manager throws "not found", and nothing is published;
    but the store has by then put its state back to the snapshot of the
    context, so that [getState()] shows the state of before the transaction
    while the observers were last told the committed one. *)
Theorem rollback_after_commit_reverts_silently (options : TransactionOptions)
    (ps : list value) (s : Sys) :
  Subject._isClosed (subject (store s)) = false ->
  exists ctx cx s1 s2 s3 s4,
    beginTransaction options s = (Normal ctx, s1) /\
    setStates ps s1 = (Normal tt, s2) /\
    contexts (world s2) !! ctx = Some cx /\
    commitTransaction ctx s2 = (Normal tt, s3) /\
    rollbackTransaction ctx s3 = (Throw (ErrNotFound (id (metadata cx))), s4) /\
    getState_props s3 = getState_props s2 /\
    getState_props s4 = getState_props s /\
    trace (world s4) = trace (world s3) /\
    Subject.lastValue (subject (store s4)) = Subject.lastValue (subject (store s3)) /\
    props (heap (world s4)) (Subject.lastValue (subject (store s4))) = getState_props s2 /\
    (status ∘ metadata) <$> contexts (world s4) !! ctx = Some COMMITTED.
Proof.
  intros Hc.
  destruct (beginTransaction_spec options s)
    as (ctx & s1 & cx & d & snap & E1 & Hst & Htr & Hsub & Hctx & Hact & Hp & Hd & Hhd & Hhs).
  assert (Subject._isClosed (subject (store s1)) = false) as Hc1 by (by rewrite Hst).
  destruct (setStates_frame ps s1 Hc1) as (s2 & E2 & Hh & Hcs & Has & Hc2 & Hobs).
  rewrite <- Hcs in Hctx. rewrite <- Has in Hact.
  pose proof (lookup_weaken _ _ _ _ Hhd Hh) as Hhd2.
  pose proof (lookup_weaken _ _ _ _ Hhs Hh) as Hhs2.
  set (s3 := published {| store := store s2;
                          world := finished COMMITTED (id (metadata cx)) ctx cx (world s2) |}).
  assert (commitTransaction ctx s2 = (Normal tt, s3)) as E3.
  { unfold commitTransaction, TM.commitTransaction.
    by apply (finish_and_publish COMMITTED s2 ctx cx). }
  assert (heap (world s2) ⊆ heap (world s3)) as Hh3 by apply insert_fresh_subseteq.
  pose proof (lookup_weaken _ _ _ _ Hhd2 Hh3) as Hhd3.
  pose proof (lookup_weaken _ _ _ _ Hhs2 Hh3) as Hhs3.
  assert (contexts (world s3) !! ctx
          = Some (set_status COMMITTED (now (world s2)) cx)) as Hctx3
    by apply lookup_insert_eq.
  set (s4 := set_state (fresh (dom (heap (world s3))))
               (allocated (props (heap (world s3)) (VRef snap)) s3)).
  assert (rollbackTransaction ctx s3 = (Throw (ErrNotFound (id (metadata cx))), s4)) as E4.
  { unfold rollbackTransaction, bind at 1.
    rewrite (restore_snapshot s3 ctx _ d snap Hctx3 Hd Hhd3). fold s4.
    unfold bind.
    rewrite (with_world_eq (TM.rollbackTransaction ctx) s4 _ _
               (finish_not_found ROLLED_BACK ctx (set_status COMMITTED (now (world s2)) cx)
                  (world s4) Hctx3 (lookup_delete_eq _ _))).
    by destruct s4. }
  destruct (published_value {| store := store s2;
                               world := finished COMMITTED (id (metadata cx)) ctx cx
                                          (world s2) |}) as [Hv Hg].
  fold s3 in Hv, Hg.
  assert (getState_props s3 = getState_props s2) as Hg3
    by (rewrite Hg; by rewrite !getState_props_eq).
  assert (heap (world s4) = <[fresh (dom (heap (world s3))) :=
                               props (heap (world s3)) (VRef snap)]> (heap (world s3)))
    as Hh4 by reflexivity.
  assert (state (store s4) = fresh (dom (heap (world s3)))) as Hst4 by reflexivity.
  assert (Subject.lastValue (subject (store s3))
          = VRef (fresh (dom (heap (world s2))))) as Hlv by reflexivity.
  exists ctx, cx, s1, s2, s3, s4. repeat split; try done.
  - rewrite getState_props_eq, Hh4, Hst4. unfold props at 1. rewrite lookup_insert_eq.
    unfold props. by rewrite Hhs3.
  - rewrite <- Hg3, Hg, <- Hv.
    change (Subject.lastValue (subject (store s4)))
      with (Subject.lastValue (subject (store s3))).
    rewrite Hlv, Hh4. unfold props. rewrite lookup_insert_ne; [done|].
    intros E. pose proof (fresh_lookup (heap (world s3))) as Hf. rewrite E in Hf.
    assert (is_Some (heap (world s3) !! fresh (dom (heap (world s2))))) as [? Hs]
      by (unfold s3; simpl; rewrite lookup_insert_eq; eauto).
    congruence.
  - change (contexts (world s4)) with (contexts (world s3)). by rewrite Hctx3.
Qed.

Lemma rollback_after_commit_reverts_silently_witness :
  Subject._isClosed (subject (store Scenario.subscribed_store)) = false /\
  exists ctx cx s1 s2 s3 s4,
    beginTransaction no_options Scenario.subscribed_store = (Normal ctx, s1) /\
    setStates [VStr "ab"] s1 = (Normal tt, s2) /\
    contexts (world s2) !! ctx = Some cx /\
    commitTransaction ctx s2 = (Normal tt, s3) /\
    rollbackTransaction ctx s3 = (Throw (ErrNotFound (id (metadata cx))), s4) /\
    getState_props s3 = getState_props s2 /\
    getState_props s4 = getState_props Scenario.subscribed_store /\
    trace (world s4) = trace (world s3) /\
    Subject.lastValue (subject (store s4)) = Subject.lastValue (subject (store s3)) /\
    props (heap (world s4)) (Subject.lastValue (subject (store s4))) = getState_props s2 /\
    (status ∘ metadata) <$> contexts (world s4) !! ctx = Some COMMITTED.
Proof.
  split; [reflexivity|].
  apply (rollback_after_commit_reverts_silently no_options [VStr "ab"]
           Scenario.subscribed_store). reflexivity.
Defined.

(** The same run, evaluated on [{count: 0}] with [setState("ab")]: after the
    failed rollback the state has lost the committed properties, which the
    observer has seen. *)
Example rollback_after_commit_run :
  getState_props
    ((let* ctx := beginTransaction no_options in
     let* _ := setState (VStr "ab") in
     let* _ := commitTransaction ctx in
     rollbackTransaction ctx) Scenario.subscribed_store).2
    = {["count" := VNum 0]} /\
  notified 7 "1"
    ((let* ctx := beginTransaction no_options in
     let* _ := setState (VStr "ab") in
     let* _ := commitTransaction ctx in
     rollbackTransaction ctx) Scenario.subscribed_store).2
    = [VStr "b"; VStr "b"].
Proof. vm_compute. done. Qed.


Lemma store_subscribe_replays_witness :
  Subject._isClosed (subject (store Scenario.counter_store)) = false /\
  trace (world (subscribe (Subject.ArgNone 3)
                  (setState (VStr "ab") Scenario.counter_store).2).2) =
    trace (world (setState (VStr "ab") Scenario.counter_store).2) ++
    [CalledNext (Subject.oid (Subject.make_observer (Subject.ArgNone 3)))
       (Subject.lastValue (subject (store (setState (VStr "ab") Scenario.counter_store).2)))] /\
  props (heap (world (setState (VStr "ab") Scenario.counter_store).2))
    (Subject.lastValue (subject (store (setState (VStr "ab") Scenario.counter_store).2)))
    = getState_props (setState (VStr "ab") Scenario.counter_store).2.
Proof.
  split; [reflexivity|].
  apply (store_subscribe_replays (VStr "ab") (Subject.ArgNone 3) Scenario.counter_store).
  reflexivity.
Defined.

End StoreMore2.

(** ** The [async] calls of the manager of the framework *)

Section CoreAsyncFacts.
Import Core CoreEffects CoreAsync.

Lemma last_removelast_tidy (st : list nat) (cur : option nat) :
  (cur = None -> st = []) ->
  last (st ++ match cur with Some c => [c] | None => [] end) = cur /\
  removelast (st ++ match cur with Some c => [c] | None => [] end) = st.
Proof.
  intros H. destruct cur as [c|].
  - by rewrite last_snoc, removelast_last.
  - by rewrite (H eq_refl).
Qed.

Lemma tidy_began w : tidy (began w).
Proof.
  split; [done|]. intros c [= <-]. simpl. rewrite lookup_insert_eq. eauto.
Qed.

Lemma tidy_empty_world : tidy empty_world.
Proof. split; [done|]. intros c H. discriminate H. Qed.

Lemma fresh_began_ne w : fresh (dom (contexts (began w))) <> fresh (dom (contexts w)).
Proof.
  intros E. pose proof (is_fresh (dom (contexts (began w)))) as Hf. rewrite E in Hf.
  apply Hf, elem_of_dom. simpl. rewrite lookup_insert_eq. eauto.
Qed.

(** Ending the transaction that [beginTransaction] opened in [w], after a
    balanced computation: the manager is back where it was. *)
Lemma finish_after_balanced s what verb w w2 :
  tidy w ->
  currentTransaction w2 = currentTransaction (began w) ->
  transactionStack w2 = transactionStack (began w) ->
  (forall c, is_Some (contexts (began w) !! c) -> is_Some (contexts w2 !! c)) ->
  exists w3,
    finish s what verb w2 = (Normal tt, w3) /\
    currentTransaction w3 = currentTransaction w /\
    transactionStack w3 = transactionStack w /\
    status <$> contexts w3 !! fresh (dom (contexts w)) = Some s /\
    (forall c, is_Some (contexts w !! c) -> is_Some (contexts w3 !! c)) /\
    (forall c, c <> fresh (dom (contexts w)) -> contexts w3 !! c = contexts w2 !! c).
Proof.
  intros [Ht1 Ht2] Hcur Hst Hctx.
  destruct (Hctx (fresh (dom (contexts w)))) as [cx Hcx];
    [simpl; rewrite lookup_insert_eq; eauto|].
  eexists. split.
  { apply (core_finish_eq s what verb (fresh (dom (contexts w))) cx); [by rewrite Hcur|done]. }
  destruct (last_removelast_tidy (transactionStack w) (currentTransaction w) Ht1) as [Hl Hr].
  simpl. rewrite Hst. simpl. rewrite Hl, Hr. repeat split.
  - by rewrite lookup_insert_eq.
  - intros c Hc. destruct (decide (fresh (dom (contexts w)) = c)) as [<-|Hne].
    + rewrite lookup_insert_eq. eauto.
    + rewrite lookup_insert_ne by done. apply Hctx. simpl. by rewrite lookup_insert_ne.
  - intros c Hne. by rewrite lookup_insert_ne.
Qed.

(** Whatever the action and the manager do, the promise of a call of
    [executeWithinTransaction] is settled after three jobs at most. *)
Lemma executeWithinTransaction_settles {S E : Type} (manager : S -> World)
    (set_manager : World -> S -> S) (raised : exn -> E)
    (action : S -> acted E * S) (s : S) :
  exists c,
    (CoreAsync.executeWithinTransaction manager set_manager raised action s).1 = Settled c.
Proof.
  unfold CoreAsync.executeWithinTransaction, call, rollback_then, on_manager.
  destruct (beginTransaction (manager s)) as [[t|e] w1]; cbn [fst snd]; [|by eexists].
  destruct (action (set_manager w1 s)) as [[v|[v|e]|e] s2]; cbn [settles step fst snd].
  - unfold on_manager.
    destruct (commit (manager s2)) as [[?|e] w3]; cbn [fst snd step]; [by eexists|].
    unfold rollback_then, on_manager.
    destruct (rollback _) as [[?|?] ?]; cbn [fst snd step]; by eexists.
  - unfold on_manager.
    destruct (commit (manager s2)) as [[?|e] w3]; cbn [fst snd step]; [by eexists|].
    unfold rollback_then, on_manager.
    destruct (rollback _) as [[?|?] ?]; cbn [fst snd step]; by eexists.
  - unfold rollback_then, on_manager.
    destruct (rollback _) as [[?|?] ?]; cbn [fst snd step]; by eexists.
  - destruct (rollback _) as [[?|?] ?]; cbn [fst snd step]; by eexists.
Qed.

Lemma alone_executeWithinTransaction_eq (action : Alone.Action) (w : World) :
  tidy w -> Alone.balanced action ->
  exists w3,
    Alone.executeWithinTransaction action w = (Settled (settles (action (began w)).1), w3) /\
    currentTransaction w3 = currentTransaction w /\
    transactionStack w3 = transactionStack w /\
    status <$> contexts w3 !! fresh (dom (contexts w))
      = Some (end_status (settles (action (began w)).1)) /\
    (forall c, is_Some (contexts w !! c) -> is_Some (contexts w3 !! c)).
Proof.
  intros Hw Hb. destruct (Hb (began w) (tidy_began w)) as (Hcur & Hst & Hctx).
  unfold Alone.executeWithinTransaction, CoreAsync.executeWithinTransaction, call,
    rollback_then, on_manager.
  rewrite core_beginTransaction_eq. cbn [fst snd].
  destruct (finish_after_balanced COMMITTED "commit" "committed" w _ Hw Hcur Hst Hctx)
    as (wc & Ec & Hc1 & Hc2 & Hc3 & Hc4 & _).
  destruct (finish_after_balanced ROLLED_BACK "roll back" "rolled back" w _ Hw Hcur Hst Hctx)
    as (wr & Er & Hr1 & Hr2 & Hr3 & Hr4 & _).
  destruct (action (began w)) as [[v|[v|e]|e] w2]; cbn [settles step fst snd] in *.
  - unfold on_manager, commit. rewrite Ec. cbn [fst snd step]. by exists wc.
  - unfold on_manager, commit. rewrite Ec. cbn [fst snd step]. by exists wc.
  - unfold rollback_then, on_manager, rollback. rewrite Er. cbn [fst snd step]. by exists wr.
  - unfold rollback. rewrite Er. cbn [fst snd step]. by exists wr.
Qed.

(** With a balanced action, an awaited call of
    [executeWithinTransaction] is settled with what the action gives; its
    transaction ends COMMITTED when the action succeeds and ROLLED_BACK when
    the action throws or its promise is rejected; and the current
    transaction and the stack of the manager are as they were. *)
Theorem executeWithinTransaction_restores_manager (action : Alone.Action) (w : World) :
  tidy w -> Alone.balanced action ->
  (Alone.executeWithinTransaction action w).1 = Settled (settles (action (began w)).1) /\
  currentTransaction (Alone.executeWithinTransaction action w).2 = currentTransaction w /\
  transactionStack (Alone.executeWithinTransaction action w).2 = transactionStack w /\
  status <$> contexts (Alone.executeWithinTransaction action w).2
               !! fresh (dom (contexts w))
    = Some (end_status (settles (action (began w)).1)).
Proof.
  intros Hw Hb.
  destruct (alone_executeWithinTransaction_eq action w Hw Hb) as (w3 & -> & ? & ? & ? & _).
  done.
Qed.

Lemma balanced_settled c : Alone.balanced (Alone.settled c).
Proof. intros w _. by simpl. Qed.

Lemma executeWithinTransaction_restores_manager_witness :
  tidy empty_world /\ Alone.balanced (Alone.settled (Rejected (ErrUser 7))) /\
  (Alone.executeWithinTransaction (Alone.settled (Rejected (ErrUser 7))) empty_world).1
    = Settled (settles (Alone.settled (Rejected (ErrUser 7)) (began empty_world)).1) /\
  currentTransaction
    (Alone.executeWithinTransaction (Alone.settled (Rejected (ErrUser 7))) empty_world).2
    = currentTransaction empty_world /\
  transactionStack
    (Alone.executeWithinTransaction (Alone.settled (Rejected (ErrUser 7))) empty_world).2
    = transactionStack empty_world /\
  status <$> contexts
      (Alone.executeWithinTransaction (Alone.settled (Rejected (ErrUser 7))) empty_world).2
               !! fresh (dom (contexts empty_world))
    = Some (end_status
              (settles (Alone.settled (Rejected (ErrUser 7)) (began empty_world)).1)).
Proof.
  split; [apply tidy_empty_world|]. split; [apply balanced_settled|].
  apply (executeWithinTransaction_restores_manager
           (Alone.settled (Rejected (ErrUser 7))) empty_world);
    [apply tidy_empty_world | apply balanced_settled].
Defined.

(** An action that awaits a call of [executeWithinTransaction] on a
    balanced action is balanced: the calls nest to any depth. *)
Theorem nested_calls_are_balanced (action : Alone.Action) :
  Alone.balanced action -> Alone.balanced (Alone.nested action).
Proof.
  intros Hb w Hw.
  destruct (alone_executeWithinTransaction_eq action w Hw Hb) as (w3 & E & H1 & H2 & _ & H3).
  unfold Alone.nested. rewrite E. done.
Qed.

Lemma nested_calls_are_balanced_witness :
  Alone.balanced (Alone.settled (Fulfilled (VNum 1))) /\
  Alone.balanced (Alone.nested (Alone.settled (Fulfilled (VNum 1)))).
Proof.
  split; [apply balanced_settled|].
  apply (nested_calls_are_balanced (Alone.settled (Fulfilled (VNum 1)))), balanced_settled.
Defined.

(** The awaited call agrees with [Core.executeWithinTransaction]. *)
Lemma executeWithinTransaction_of_M (action : M World value) w :
  Alone.executeWithinTransaction (Alone.of_M action) w
  = (Settled (Alone.of_completion (Core.executeWithinTransaction action w).1),
     (Core.executeWithinTransaction action w).2).
Proof.
  unfold Alone.executeWithinTransaction, CoreAsync.executeWithinTransaction,
    Core.executeWithinTransaction, call, rollback_then, on_manager, Alone.of_M,
    bind, try_catch, ret, throw.
  destruct (beginTransaction w) as [[c|e] w1]; cbn [fst snd step]; [|done].
  destruct (action w1) as [[v|e] w2]; cbn [fst snd settles step].
  - unfold on_manager. destruct (commit w2) as [[?|e] w3]; cbn [fst snd step]; [done|].
    unfold rollback_then, on_manager.
    by destruct (rollback w3) as [[?|?] ?].
  - by destruct (rollback w2) as [[?|?] ?].
Qed.

Lemma alone_call_settled c w : Alone.call (Alone.settled c) w = (AwaitAction c, began w).
Proof.
  unfold Alone.call, call, on_manager. rewrite core_beginTransaction_eq. reflexivity.
Qed.

(** Two calls of [executeWithinTransaction] of which the first is not
    awaited, on a manager that has no stack without a current transaction, with
    actions that do nothing but return a promise that is settled already
    (as an [async] function without [await] does), so that the
    continuations of the two calls run in turn, those of the first call
    first: the calls end each other's transaction.  When the promise of the
    first action is rejected and that of the second fulfilled, the
    transaction of the first call ends COMMITTED and the transaction of the
    second ends ROLLED_BACK, while the promise of the first call is
    rejected and that of the second fulfilled.  (With promises that settle
    later, the order in which they settle decides which call ends which
    transaction.) *)
Theorem unawaited_calls_swap_transactions (e : exn) (v : value) (w : World) :
  tidy w ->
  exists w',
    Alone.two_unawaited (Alone.settled (Rejected e)) (Alone.settled (Fulfilled v)) w
      = ((Settled (Rejected e), Settled (Fulfilled v)), w') /\
    status <$> contexts w' !! fresh (dom (contexts w)) = Some COMMITTED /\
    status <$> contexts w' !! fresh (dom (contexts (began w))) = Some ROLLED_BACK /\
    currentTransaction w' = currentTransaction w /\
    transactionStack w' = transactionStack w.
Proof.
  intros Hw. pose proof (fresh_began_ne w) as Hne.
  destruct (finish_after_balanced ROLLED_BACK "roll back" "rolled back"
              (began w) (began (began w)) (tidy_began w) eq_refl eq_refl (fun c H => H))
    as (w3 & E3 & Hc3 & Hs3 & Hst3 & Hk3 & Ho3).
  destruct (finish_after_balanced COMMITTED "commit" "committed" w w3 Hw Hc3 Hs3 Hk3)
    as (w4 & E4 & Hc4 & Hs4 & Hst4 & Hk4 & Ho4).
  exists w4. split.
  - unfold Alone.two_unawaited, two_unawaited.
    change (call (λ w, w) (λ w _, w) (λ e, e)) with Alone.call.
    rewrite !alone_call_settled.
    cbn [step]. unfold rollback_then, on_manager, rollback, commit.
    rewrite E3. cbn [fst snd]. rewrite E4. reflexivity.
  - repeat split; [done| |done|done].
    rewrite Ho4 by done. done.
Qed.

Lemma unawaited_calls_swap_transactions_witness :
  tidy empty_world /\
  exists w',
    Alone.two_unawaited (Alone.settled (Rejected (ErrUser 7)))
        (Alone.settled (Fulfilled (VNum 1))) empty_world
      = ((Settled (Rejected (ErrUser 7)), Settled (Fulfilled (VNum 1))), w') /\
    status <$> contexts w' !! fresh (dom (contexts empty_world)) = Some COMMITTED /\
    status <$> contexts w' !! fresh (dom (contexts (began empty_world)))
      = Some ROLLED_BACK /\
    currentTransaction w' = currentTransaction empty_world /\
    transactionStack w' = transactionStack empty_world.
Proof.
  split; [apply tidy_empty_world|].
  apply (unawaited_calls_swap_transactions (ErrUser 7) (VNum 1) empty_world),
    tidy_empty_world.
Defined.

End CoreAsyncFacts.

(** ** CRUD operations *)

Section CRUDFacts.
Import Core CoreEffects CoreAsync CRUD.

Lemma map_has_set k v m k' :
  map_has k' (map_set k v m) = bool_decide (k = k') || map_has k' m.
Proof.
  induction m as [|[k0 v0] m IH]; simpl.
  - by rewrite orb_false_r.
  - keys k0 k.
    + by destruct (bool_decide (k = k')).
    + rewrite IH. by destruct (bool_decide (k0 = k')), (bool_decide (k = k')).
Qed.

Lemma map_get_set k v m : map_get k (map_set k v m) = v.
Proof.
  induction m as [|[k0 v0] m IH]; simpl.
  - by rewrite bool_decide_eq_true_2.
  - keys k0 k; [by rewrite bool_decide_eq_true_2|].
    by rewrite bool_decide_eq_false_2.
Qed.

Lemma map_get_set_ne k v m k' : k <> k' -> map_get k' (map_set k v m) = map_get k' m.
Proof.
  intros Hne. induction m as [|[k0 v0] m IH]; simpl.
  - by rewrite bool_decide_eq_false_2.
  - keys k0 k.
    + by rewrite !bool_decide_eq_false_2.
    + by rewrite IH.
Qed.

Lemma map_values_set_new k v m :
  map_has k m = false -> map_values (map_set k v m) = map_values m ++ [v].
Proof.
  unfold map_values. induction m as [|[k0 v0] m IH]; csimpl; [done|].
  intros [H0 H1]%orb_false_iff. rewrite H0. csimpl. by rewrite IH.
Qed.

Lemma map_keys_set_old k v m :
  map_has k m = true -> (map_set k v m).*1 = m.*1.
Proof.
  induction m as [|[k0 v0] m IH]; csimpl; [done|].
  destruct (decide (k0 = k)) as [->|Hne].
  - by rewrite bool_decide_eq_true_2.
  - rewrite bool_decide_eq_false_2 by done. csimpl. intros H. by rewrite IH.
Qed.

Lemma map_delete_set_new k v m :
  map_has k m = false -> map_delete k (map_set k v m) = m.
Proof.
  induction m as [|[k0 v0] m IH]; simpl.
  - by rewrite bool_decide_eq_true_2.
  - intros [H0 H1]%orb_false_iff. rewrite H0. simpl. rewrite H0. by rewrite IH.
Qed.

Lemma map_has_delete k m k' :
  map_has k' (map_delete k m) = negb (bool_decide (k = k')) && map_has k' m.
Proof.
  induction m as [|[k0 v0] m IH]; simpl.
  - by rewrite andb_false_r.
  - keys k0 k.
    + rewrite IH. by destruct (bool_decide (k = k')).
    + rewrite IH. keys k0 k'.
      * by rewrite bool_decide_eq_false_2 by congruence.
      * by destruct (bool_decide (k = k')).
Qed.

Lemma map_get_delete k m : map_get k (map_delete k m) = VUndefined.
Proof.
  induction m as [|[k0 v0] m IH]; simpl; [done|].
  keys k0 k; [done|]. by rewrite bool_decide_eq_false_2.
Qed.

Lemma map_get_delete_ne k m k' : k <> k' -> map_get k' (map_delete k m) = map_get k' m.
Proof.
  intros Hne. induction m as [|[k0 v0] m IH]; simpl; [done|].
  keys k0 k.
  - by rewrite bool_decide_eq_false_2.
  - by rewrite IH.
Qed.

Lemma map_delete_absent k m : map_has k m = false -> map_delete k m = m.
Proof.
  induction m as [|[k0 v0] m IH]; simpl; [done|].
  intros [H0 H1]%orb_false_iff. rewrite H0. by rewrite IH.
Qed.

Lemma map_get_absent k m : map_has k m = false -> map_get k m = VUndefined.
Proof.
  induction m as [|[k0 v0] m IH]; simpl; [done|].
  intros [H0 H1]%orb_false_iff. rewrite H0. by apply IH.
Qed.

(** [notifyObservers] with observers that do not throw. *)
Lemma notify_quiet l name newData oldData c :
  Forall (fun o => update_throws o = false) l ->
  notify l name newData oldData c
  = (None, set_notified (notified c ++
             map (fun o => {| observer := oid o; propertyName := name;
                              newValue := newData; oldValue := oldData |}) l) c).
Proof.
  revert c. induction l as [|o l IH]; intros c Hq; simpl.
  - rewrite app_nil_r. by destruct c.
  - inversion Hq as [|? ? Ho Hl]; subst. rewrite Ho. rewrite IH by done.
    simpl. unfold set_notified. simpl. by rewrite <- app_assoc.
Qed.

(** [notifyObservers] when the observer [o] is the first that throws. *)
Lemma notify_throwing l1 o l2 name newData oldData c :
  Forall (fun o => update_throws o = false) l1 ->
  update_throws o = true ->
  notify (l1 ++ o :: l2) name newData oldData c
  = (Some (ThrownBy (oid o)),
     set_notified (notified c ++
       map (fun o => {| observer := oid o; propertyName := name;
                        newValue := newData; oldValue := oldData |}) (l1 ++ [o])) c).
Proof.
  revert c. induction l1 as [|x l1 IH]; intros c Hq Ho; simpl.
  - by rewrite Ho.
  - inversion Hq as [|? ? Hx Hl]; subst. rewrite Hx. rewrite IH by done.
    simpl. unfold set_notified. simpl. by rewrite <- app_assoc.
Qed.

Lemma notify_independent l name newData oldData w c :
  notify l name newData oldData (set_transactionManager w c)
  = ((notify l name newData oldData c).1,
     set_transactionManager w (notify l name newData oldData c).2).
Proof.
  revert c. induction l as [|o l IH]; intros c; simpl; [done|].
  destruct (update_throws o); [done|].
  apply (IH (set_notified _ c)).
Qed.

Lemma notify_and_return_independent name result w c :
  notify_and_return name result (set_transactionManager w c)
  = ((notify_and_return name result c).1,
     set_transactionManager w (notify_and_return name result c).2).
Proof.
  unfold notify_and_return, notifyObservers. simpl.
  rewrite notify_independent.
  by destruct (notify (observers c) name _ _ c) as [[e|] c'].
Qed.

Lemma create_action_independent data : independent (create_action data).
Proof.
  intros w c. unfold create_action. simpl.
  destruct data; try done;
    (destruct (negb (truthy _)); [done|];
     destruct (map_has _ _); [done|];
     apply (notify_and_return_independent _ _ w (set_dataStore _ c))).
Qed.

Lemma update_action_independent i data : independent (update_action i data).
Proof.
  intros w c. unfold update_action. simpl.
  destruct (negb (truthy _)); [done|].
  apply (notify_and_return_independent _ _ w (set_dataStore _ (set_objects _ c))).
Qed.

Lemma delete_action_independent i : independent (delete_action i).
Proof.
  intros w c. unfold delete_action. simpl.
  destruct (negb (map_has _ _)); [done|].
  apply (notify_and_return_independent _ _ w (set_dataStore _ c)).
Qed.

(** A call of [executeWithinTransaction] with an action that leaves the
    manager alone and does not throw. *)
Lemma within_eq action c :
  independent action ->
  (forall e, (action c).1 <> Threw e) ->
  within action c
  = (Settled (settles (action c).1),
     set_transactionManager
       (ended (end_status (settles (action c).1)) (transactionManager c))
       (action c).2).
Proof.
  intros Hi Hn. unfold within, executeWithinTransaction, call, on_manager.
  rewrite core_beginTransaction_eq. cbn [fst snd]. rewrite Hi.
  destruct (action c) as [a c2]. cbn [fst snd] in *.
  assert (forall s what verb,
    finish s what verb (began (transactionManager c))
    = (Normal tt, finished s verb (fresh (dom (contexts (transactionManager c))))
                    (new_context (transactionManager c)) (began (transactionManager c))))
    as Hf.
  { intros s what verb. apply core_finish_eq; [done|]. simpl. apply lookup_insert_eq. }
  destruct a as [v|[v|e]|e]; cbn [settles step]; [| | |by destruct (Hn e)].
  - unfold on_manager. cbn [transactionManager set_transactionManager].
    unfold commit. rewrite Hf. reflexivity.
  - unfold on_manager. cbn [transactionManager set_transactionManager].
    unfold commit. rewrite Hf. reflexivity.
  - unfold rollback_then, on_manager. cbn [transactionManager set_transactionManager].
    unfold rollback. rewrite Hf. reflexivity.
Qed.


Lemma create_action_never_throws data c e : (create_action data c).1 <> Threw e.
Proof.
  unfold create_action, notify_and_return.
  destruct data; try done;
    (destruct (negb (truthy _)); [done|]; destruct (map_has _ _); [done|];
     by destruct (notifyObservers _ _ _ _) as [[?|] ?]).
Qed.

Lemma update_action_never_throws i data c e : (update_action i data c).1 <> Threw e.
Proof.
  unfold update_action, notify_and_return.
  destruct (negb (truthy _)); [done|]. simpl.
  by destruct (notifyObservers _ _ _ _) as [[?|] ?].
Qed.

Lemma delete_action_never_throws i c e : (delete_action i c).1 <> Threw e.
Proof.
  unfold delete_action, notify_and_return.
  destruct (negb (map_has _ _)); [done|].
  by destruct (notifyObservers _ _ _ _) as [[?|] ?].
Qed.

Lemma create_eq data c :
  create data c
  = (Settled (settles (create_action data c).1),
     set_transactionManager
       (ended (end_status (settles (create_action data c).1)) (transactionManager c))
       (create_action data c).2).
Proof.
  apply within_eq; [apply create_action_independent|].
  intros e. apply create_action_never_throws.
Qed.

Lemma update_eq i data c :
  update i data c
  = (Settled (settles (update_action i data c).1),
     set_transactionManager
       (ended (end_status (settles (update_action i data c).1)) (transactionManager c))
       (update_action i data c).2).
Proof.
  apply within_eq; [apply update_action_independent|].
  intros e. apply update_action_never_throws.
Qed.

Lemma delete_eq i c :
  delete i c
  = (Settled (settles (delete_action i c).1),
     set_transactionManager
       (ended (end_status (settles (delete_action i c).1)) (transactionManager c))
       (delete_action i c).2).
Proof.
  apply within_eq; [apply delete_action_independent|].
  intros e. apply delete_action_never_throws.
Qed.

Lemma status_of_ended s c c' :
  status_of (next_transaction c) (set_transactionManager (ended s (transactionManager c)) c')
  = Some s.
Proof.
  unfold status_of, next_transaction, ended, finished. simpl.
  by rewrite lookup_insert_eq.
Qed.

(** The action of [create] for an object with a new, truthy id. *)
Lemma create_action_new data c :
  truthy (get (objects c) data "id") = true ->
  map_has (get (objects c) data "id") (dataStore c) = false ->
  create_action data c
  = notify_and_return "create" data
      (set_dataStore (map_set (get (objects c) data "id") data (dataStore c)) c).
Proof.
  intros Ht Hh. unfold create_action. rewrite Ht, Hh. simpl.
  destruct data; try done; by vm_compute in Ht.
Qed.

Lemma notify_and_return_quiet name result c :
  quiet c ->
  notify_and_return name result c
  = (ReturnedPromise (Fulfilled result),
     set_notified (notified c ++ notes (observers c) name (map_values (dataStore c))) c).
Proof.
  intros Hq. unfold notify_and_return, notifyObservers.
  by rewrite notify_quiet.
Qed.

(** [create] of an object with a truthy id that the store does not
    hold, with observers whose [update] does not throw and neither
    registers nor unregisters an observer nor calls the store: the promise
    is fulfilled with the object itself, [read] of the id gives it,
    [readAll] has it at the end, the other items are untouched, every
    observer is told once, in the order of registration, and the
    transaction is committed. *)
Theorem create_then_read (data : value) (c : CRUDOperations) :
  truthy (get (objects c) data "id") = true ->
  map_has (get (objects c) data "id") (dataStore c) = false ->
  quiet c ->
  (create data c).1 = Settled (Fulfilled data) /\
  read (get (objects c) data "id") (create data c).2 = data /\
  readAll (create data c).2 = readAll c ++ [data] /\
  (forall j, j <> get (objects c) data "id" -> read j (create data c).2 = read j c) /\
  notified (create data c).2
    = notified c ++ notes (observers c) "create" (readAll c ++ [data]) /\
  status_of (next_transaction c) (create data c).2 = Some COMMITTED.
Proof.
  intros Ht Hh Hq. rewrite create_eq, (create_action_new _ _ Ht Hh).
  rewrite notify_and_return_quiet by done. cbn [fst snd settles end_status].
  split; [done|]. unfold read, readAll. simpl.
  split; [apply map_get_set|].
  split; [by apply map_values_set_new|].
  split; [intros j Hj; by apply map_get_set_ne|].
  split; [by rewrite map_values_set_new|].
  apply (status_of_ended COMMITTED).
Qed.

Lemma quiet_example : quiet example.
Proof. repeat constructor. Qed.

Lemma create_then_read_witness :
  truthy (get (objects example) (VRef 0%nat) "id") = true /\
  map_has (get (objects example) (VRef 0%nat) "id") (dataStore example) = false /\
  quiet example /\
  (create (VRef 0%nat) example).1 = Settled (Fulfilled (VRef 0%nat)) /\
  read (get (objects example) (VRef 0%nat) "id") (create (VRef 0%nat) example).2 = VRef 0%nat /\
  readAll (create (VRef 0%nat) example).2 = readAll example ++ [VRef 0%nat] /\
  (forall j, j <> get (objects example) (VRef 0%nat) "id" ->
     read j (create (VRef 0%nat) example).2 = read j example) /\
  notified (create (VRef 0%nat) example).2
    = notified example ++ notes (observers example) "create" (readAll example ++ [VRef 0%nat]) /\
  status_of (next_transaction example) (create (VRef 0%nat) example).2 = Some COMMITTED.
Proof.
  split; [reflexivity|]. split; [reflexivity|]. split; [apply quiet_example|].
  apply (create_then_read (VRef 0%nat) example); [reflexivity|reflexivity|apply quiet_example].
Defined.

(** [create] of a value whose [id] is falsy (absent, [0], the empty
    string, ...) is rejected with 'Data must have an ID', and [create] of an
    object whose id the store holds already is rejected with 'Item with ID
    ... already exists'.  In both cases the store is as it was, no observer
    is told, and the transaction is rolled back. *)
Theorem create_rejects_without_storing (data : value) (c : CRUDOperations) :
  data <> VUndefined -> data <> VNull ->
  truthy (get (objects c) data "id") = false \/
    map_has (get (objects c) data "id") (dataStore c) = true ->
  (create data c).1
    = Settled (Rejected (if truthy (get (objects c) data "id")
                         then AlreadyExists (get (objects c) data "id")
                         else DataMustHaveId)) /\
  dataStore (create data c).2 = dataStore c /\
  notified (create data c).2 = notified c /\
  status_of (next_transaction c) (create data c).2 = Some ROLLED_BACK.
Proof.
  intros H1 H2 H. rewrite create_eq.
  assert (create_action data c
          = (ReturnedPromise
               (Rejected (if truthy (get (objects c) data "id")
                          then AlreadyExists (get (objects c) data "id")
                          else DataMustHaveId)), c)) as ->.
  { unfold create_action. destruct (truthy (get (objects c) data "id")) eqn:Ht.
    - destruct H as [H|H]; [done|]. rewrite H. by destruct data.
    - by destruct data. }
  cbn [fst snd settles end_status]. repeat split.
  apply (status_of_ended ROLLED_BACK).
Qed.

(** The id [0] is refused. *)
Lemma create_rejects_without_storing_witness :
  VRef 1%nat <> VUndefined /\ VRef 1%nat <> VNull /\
  (truthy (get (objects example) (VRef 1%nat) "id") = false \/
   map_has (get (objects example) (VRef 1%nat) "id") (dataStore example) = true) /\
  (create (VRef 1%nat) example).1
    = Settled (Rejected (if truthy (get (objects example) (VRef 1%nat) "id")
                         then AlreadyExists (get (objects example) (VRef 1%nat) "id")
                         else DataMustHaveId)) /\
  dataStore (create (VRef 1%nat) example).2 = dataStore example /\
  notified (create (VRef 1%nat) example).2 = notified example /\
  status_of (next_transaction example) (create (VRef 1%nat) example).2 = Some ROLLED_BACK.
Proof.
  split; [done|]. split; [done|]. split; [left; reflexivity|].
  apply (create_rejects_without_storing (VRef 1%nat) example); [done|done|].
  left. reflexivity.
Defined.

(** A second object with the id of a stored one is refused. *)
Example create_twice :
  (create (VRef 2%nat) (create (VRef 0%nat) example).2).1
    = Settled (Rejected (AlreadyExists (VNum 1))) /\
  readAll (create (VRef 2%nat) (create (VRef 0%nat) example).2).2 = [VRef 0%nat].
Proof. split; reflexivity. Qed.

(** When [update] of an observer throws during [create], the promise is
    rejected with what the observer threw and the transaction is rolled
    back, but the item stays in the store; the observers registered after
    the throwing one are not told. *)
Theorem create_keeps_item_when_observer_throws (data : value) (c : CRUDOperations)
    (l1 l2 : list Observer) (o : Observer) :
  truthy (get (objects c) data "id") = true ->
  map_has (get (objects c) data "id") (dataStore c) = false ->
  observers c = l1 ++ o :: l2 ->
  Forall (fun x => update_throws x = false) l1 ->
  update_throws o = true ->
  (create data c).1 = Settled (Rejected (ThrownBy (oid o))) /\
  status_of (next_transaction c) (create data c).2 = Some ROLLED_BACK /\
  read (get (objects c) data "id") (create data c).2 = data /\
  notified (create data c).2
    = notified c ++ notes (l1 ++ [o]) "create" (readAll c ++ [data]).
Proof.
  intros Ht Hh Ho Hq Hthrows. rewrite create_eq, (create_action_new _ _ Ht Hh).
  unfold notify_and_return, notifyObservers. cbn [observers set_dataStore].
  rewrite Ho, (notify_throwing l1 o l2) by done.
  cbn [fst snd settles end_status]. split; [done|].
  split; [apply (status_of_ended ROLLED_BACK)|].
  unfold read, readAll. simpl. split; [apply map_get_set|].
  by rewrite map_values_set_new.
Qed.

Lemma create_keeps_item_when_observer_throws_witness :
  truthy (get (objects example_throwing) (VRef 0%nat) "id") = true /\
  map_has (get (objects example_throwing) (VRef 0%nat) "id") (dataStore example_throwing)
    = false /\
  observers example_throwing
    = [{| oid := 0%nat; update_throws := false |}] ++
      {| oid := 1%nat; update_throws := true |} :: [{| oid := 2%nat; update_throws := false |}] /\
  Forall (fun x => update_throws x = false) [{| oid := 0%nat; update_throws := false |}] /\
  update_throws {| oid := 1%nat; update_throws := true |} = true /\
  (create (VRef 0%nat) example_throwing).1
    = Settled (Rejected (ThrownBy (oid {| oid := 1%nat; update_throws := true |}))) /\
  status_of (next_transaction example_throwing) (create (VRef 0%nat) example_throwing).2
    = Some ROLLED_BACK /\
  read (get (objects example_throwing) (VRef 0%nat) "id") (create (VRef 0%nat) example_throwing).2
    = VRef 0%nat /\
  notified (create (VRef 0%nat) example_throwing).2
    = notified example_throwing ++
      notes ([{| oid := 0%nat; update_throws := false |}] ++
             [{| oid := 1%nat; update_throws := true |}]) "create"
        (readAll example_throwing ++ [VRef 0%nat]).
Proof.
  split; [reflexivity|]. split; [reflexivity|]. split; [reflexivity|].
  split; [by repeat constructor|]. split; [reflexivity|].
  apply (create_keeps_item_when_observer_throws (VRef 0%nat) example_throwing
           [{| oid := 0%nat; update_throws := false |}]
           [{| oid := 2%nat; update_throws := false |}]
           {| oid := 1%nat; update_throws := true |});
    [reflexivity|reflexivity|reflexivity|by repeat constructor|reflexivity].
Defined.


Lemma truthy_get_has i m : truthy (map_get i m) = true -> map_has i m = true.
Proof.
  intros Ht. destruct (map_has i m) eqn:Hh; [done|].
  by rewrite (map_get_absent _ _ Hh) in Ht.
Qed.

(** [update] of an id whose item is there, with observers that do not
    throw: the promise is fulfilled with a new object that has the
    properties of the item overridden by those of [data]; [read] of the id
    gives the new object; the keys of the store and their order stay; and no
    object that existed before is changed, so that the references handed
    out by [create] and [read] keep the old properties. *)
Theorem update_installs_a_new_object (i data : value) (c : CRUDOperations) :
  truthy (read i c) = true ->
  quiet c ->
  (update i data c).1 = Settled (Fulfilled (VRef (fresh (dom (objects c))))) /\
  read i (update i data c).2 = VRef (fresh (dom (objects c))) /\
  objects (update i data c).2 !! fresh (dom (objects c))
    = Some (spread2 (objects c) (read i c) data) /\
  (forall l o, objects c !! l = Some o -> objects (update i data c).2 !! l = Some o) /\
  (dataStore (update i data c).2).*1 = (dataStore c).*1 /\
  (forall j, j <> i -> read j (update i data c).2 = read j c) /\
  status_of (next_transaction c) (update i data c).2 = Some COMMITTED.
Proof.
  intros Ht Hq. unfold read in *. rewrite update_eq.
  unfold update_action. rewrite Ht. cbn [negb alloc].
  rewrite notify_and_return_quiet by done. cbn [fst snd settles end_status].
  split; [done|]. simpl.
  split; [apply map_get_set|].
  split; [apply lookup_insert_eq|].
  split.
  { intros l o Hl. rewrite lookup_insert_ne; [done|].
    intros <-. apply (is_fresh (dom (objects c))), elem_of_dom. eauto. }
  split; [apply map_keys_set_old; by apply truthy_get_has|].
  split; [intros j Hj; apply map_get_set_ne; congruence|].
  apply (status_of_ended COMMITTED).
Qed.

Lemma update_installs_a_new_object_witness :
  truthy (read (VNum 1) (create (VRef 0%nat) example).2) = true /\
  quiet (create (VRef 0%nat) example).2 /\
  (update (VNum 1) (VRef 1%nat) (create (VRef 0%nat) example).2).1
    = Settled (Fulfilled (VRef (fresh (dom (objects (create (VRef 0%nat) example).2))))) /\
  read (VNum 1) (update (VNum 1) (VRef 1%nat) (create (VRef 0%nat) example).2).2
    = VRef (fresh (dom (objects (create (VRef 0%nat) example).2))) /\
  objects (update (VNum 1) (VRef 1%nat) (create (VRef 0%nat) example).2).2
    !! fresh (dom (objects (create (VRef 0%nat) example).2))
    = Some (spread2 (objects (create (VRef 0%nat) example).2)
              (read (VNum 1) (create (VRef 0%nat) example).2) (VRef 1%nat)) /\
  (forall l o, objects (create (VRef 0%nat) example).2 !! l = Some o ->
     objects (update (VNum 1) (VRef 1%nat) (create (VRef 0%nat) example).2).2 !! l
       = Some o) /\
  (dataStore (update (VNum 1) (VRef 1%nat) (create (VRef 0%nat) example).2).2).*1
    = (dataStore (create (VRef 0%nat) example).2).*1 /\
  (forall j, j <> VNum 1 ->
     read j (update (VNum 1) (VRef 1%nat) (create (VRef 0%nat) example).2).2
     = read j (create (VRef 0%nat) example).2) /\
  status_of (next_transaction (create (VRef 0%nat) example).2)
    (update (VNum 1) (VRef 1%nat) (create (VRef 0%nat) example).2).2 = Some COMMITTED.
Proof.
  split; [reflexivity|]. split; [by repeat constructor|].
  apply (update_installs_a_new_object (VNum 1) (VRef 1%nat) (create (VRef 0%nat) example).2);
    [reflexivity|by repeat constructor].
Defined.

(** [update] and [delete] of an id that the store does not hold change
    neither the store nor the heap and tell no observer; they are fulfilled
    with [undefined] and [false], and their transaction is committed all
    the same. *)
Theorem update_and_delete_of_a_missing_id (i data : value) (c : CRUDOperations) :
  map_has i (dataStore c) = false ->
  update i data c
    = (Settled (Fulfilled VUndefined),
       set_transactionManager (ended COMMITTED (transactionManager c)) c) /\
  delete i c
    = (Settled (Fulfilled (VBool false)),
       set_transactionManager (ended COMMITTED (transactionManager c)) c).
Proof.
  intros Hh. split.
  - rewrite update_eq. unfold update_action. by rewrite (map_get_absent _ _ Hh).
  - rewrite delete_eq. unfold delete_action. by rewrite Hh.
Qed.

Lemma update_and_delete_of_a_missing_id_witness :
  map_has (VNum 5) (dataStore example) = false /\
  update (VNum 5) (VRef 0%nat) example
    = (Settled (Fulfilled VUndefined),
       set_transactionManager (ended COMMITTED (transactionManager example)) example) /\
  delete (VNum 5) example
    = (Settled (Fulfilled (VBool false)),
       set_transactionManager (ended COMMITTED (transactionManager example)) example).
Proof.
  split; [reflexivity|].
  apply (update_and_delete_of_a_missing_id (VNum 5) (VRef 0%nat) example). reflexivity.
Defined.

(** [delete] of an id that the store holds, with observers that do not
    throw, is fulfilled with [true]; afterwards [read] of the id gives
    [undefined], the other items are as before, and a second [delete] of
    the id is fulfilled with [false]. *)
Theorem delete_removes_the_item (i : value) (c : CRUDOperations) :
  map_has i (dataStore c) = true ->
  quiet c ->
  (delete i c).1 = Settled (Fulfilled (VBool true)) /\
  read i (delete i c).2 = VUndefined /\
  (forall j, j <> i -> read j (delete i c).2 = read j c) /\
  (delete i (delete i c).2).1 = Settled (Fulfilled (VBool false)) /\
  status_of (next_transaction c) (delete i c).2 = Some COMMITTED.
Proof.
  intros Hh Hq.
  assert (delete i c
          = (Settled (Fulfilled (VBool true)),
             set_transactionManager (ended COMMITTED (transactionManager c))
               (set_notified (notified c ++
                  notes (observers c) "delete" (map_values (map_delete i (dataStore c))))
                  (set_dataStore (map_delete i (dataStore c)) c)))) as E.
  { rewrite delete_eq. unfold delete_action. rewrite Hh. cbn [negb].
    by rewrite notify_and_return_quiet. }
  rewrite E. cbn [fst snd]. split; [done|]. unfold read. simpl.
  split; [apply map_get_delete|].
  split; [intros j Hj; apply map_get_delete_ne; congruence|].
  split; [|apply (status_of_ended COMMITTED)].
  rewrite delete_eq. unfold delete_action. simpl.
  by rewrite map_has_delete, bool_decide_eq_true_2.
Qed.

Lemma delete_removes_the_item_witness :
  map_has (VNum 1) (dataStore (create (VRef 0%nat) example).2) = true /\
  quiet (create (VRef 0%nat) example).2 /\
  (delete (VNum 1) (create (VRef 0%nat) example).2).1 = Settled (Fulfilled (VBool true)) /\
  read (VNum 1) (delete (VNum 1) (create (VRef 0%nat) example).2).2 = VUndefined /\
  (forall j, j <> VNum 1 ->
     read j (delete (VNum 1) (create (VRef 0%nat) example).2).2
     = read j (create (VRef 0%nat) example).2) /\
  (delete (VNum 1) (delete (VNum 1) (create (VRef 0%nat) example).2).2).1
    = Settled (Fulfilled (VBool false)) /\
  status_of (next_transaction (create (VRef 0%nat) example).2)
    (delete (VNum 1) (create (VRef 0%nat) example).2).2 = Some COMMITTED.
Proof.
  split; [reflexivity|]. split; [by repeat constructor|].
  apply (delete_removes_the_item (VNum 1) (create (VRef 0%nat) example).2);
    [reflexivity|by repeat constructor].
Defined.

(** [delete] undoes [create]: after both, [readAll] gives what it gave
    before, element by element. *)
Theorem create_then_delete (data : value) (c : CRUDOperations) :
  truthy (get (objects c) data "id") = true ->
  map_has (get (objects c) data "id") (dataStore c) = false ->
  quiet c ->
  (delete (get (objects c) data "id") (create data c).2).1
    = Settled (Fulfilled (VBool true)) /\
  readAll (delete (get (objects c) data "id") (create data c).2).2 = readAll c.
Proof.
  intros Ht Hh Hq.
  rewrite create_eq, (create_action_new _ _ Ht Hh).
  rewrite notify_and_return_quiet by done. cbn [fst snd settles end_status].
  rewrite delete_eq. unfold delete_action. simpl.
  rewrite map_has_set, bool_decide_eq_true_2 by done. cbn [orb negb].
  rewrite notify_and_return_quiet by done. cbn [fst snd settles end_status].
  split; [done|]. unfold readAll. simpl. by rewrite map_delete_set_new.
Qed.

Lemma create_then_delete_witness :
  truthy (get (objects example) (VRef 0%nat) "id") = true /\
  map_has (get (objects example) (VRef 0%nat) "id") (dataStore example) = false /\
  quiet example /\
  (delete (get (objects example) (VRef 0%nat) "id") (create (VRef 0%nat) example).2).1
    = Settled (Fulfilled (VBool true)) /\
  readAll (delete (get (objects example) (VRef 0%nat) "id") (create (VRef 0%nat) example).2).2
    = readAll example.
Proof.
  split; [reflexivity|]. split; [reflexivity|]. split; [apply quiet_example|].
  apply (create_then_delete (VRef 0%nat) example);
    [reflexivity|reflexivity|apply quiet_example].
Defined.

Lemma notify_same l name data c :
  Forall same_old_and_new (notified c) ->
  Forall same_old_and_new (notified (notify l name data data c).2).
Proof.
  revert c. induction l as [|o l IH]; intros c Hc; simpl; [done|].
  assert (Forall same_old_and_new
            (notified c ++ [{| observer := oid o; propertyName := name;
                               newValue := data; oldValue := data |}])) as H.
  { apply Forall_app. split; [done|]. by repeat constructor. }
  destruct (update_throws o); [done|]. by apply IH.
Qed.

Lemma notify_and_return_same name result c :
  Forall same_old_and_new (notified c) ->
  Forall same_old_and_new (notified (notify_and_return name result c).2).
Proof.
  intros Hc. unfold notify_and_return, notifyObservers.
  pose proof (notify_same (observers c) name (map_values (dataStore c)) c Hc) as H.
  by destruct (notify _ _ _ _ c) as [[e|] c'].
Qed.

(** The observers never see the old data: in every call of [update] that
    [create], [update] and [delete] make, the array passed as the old value
    has the elements of the array passed as the new value. *)
Theorem observers_get_the_new_data_as_old (i data : value) (c : CRUDOperations) :
  Forall same_old_and_new (notified c) ->
  Forall same_old_and_new (notified (create data c).2) /\
  Forall same_old_and_new (notified (update i data c).2) /\
  Forall same_old_and_new (notified (delete i c).2).
Proof.
  intros Hc. rewrite create_eq, update_eq, delete_eq. cbn [snd].
  split; [|split]; cbn [notified set_transactionManager].
  - unfold create_action.
    destruct data; try done;
      (destruct (negb (truthy _)); [done|]; destruct (map_has _ _); [done|];
       by apply notify_and_return_same).
  - unfold update_action. destruct (negb (truthy _)); [done|]. simpl.
    by apply notify_and_return_same.
  - unfold delete_action. destruct (negb (map_has _ _)); [done|].
    by apply notify_and_return_same.
Qed.

Lemma observers_get_the_new_data_as_old_witness :
  Forall same_old_and_new (notified example) /\
  Forall same_old_and_new (notified (create (VRef 0%nat) example).2) /\
  Forall same_old_and_new (notified (update (VNum 1) (VRef 0%nat) example).2) /\
  Forall same_old_and_new (notified (delete (VNum 1) example).2).
Proof.
  split; [by constructor|].
  apply (observers_get_the_new_data_as_old (VNum 1) (VRef 0%nat) example). by constructor.
Defined.

Lemma includes_snoc o l : includes o (l ++ [o]) = true.
Proof.
  unfold includes. rewrite existsb_app. simpl. by rewrite Nat.eqb_refl, orb_true_r.
Qed.

Lemma remove_first_new o l :
  includes o l = false -> CRUD.remove_first o (l ++ [o]) = l.
Proof.
  unfold includes. induction l as [|x l IH]; simpl.
  - by rewrite Nat.eqb_refl.
  - intros [H0 H1]%orb_false_iff. rewrite H0. by rewrite IH.
Qed.

(** Registering an observer a second time changes nothing, and
    [unregisterObserver] undoes [registerObserver] of an observer that was
    not registered. *)
Theorem register_then_unregister (o : Observer) (c : CRUDOperations) :
  includes o (observers c) = false ->
  registerObserver o (registerObserver o c) = registerObserver o c /\
  observers (registerObserver o c) = observers c ++ [o] /\
  unregisterObserver o (registerObserver o c) = c.
Proof.
  intros Hi. unfold registerObserver at 2 3 4 5. rewrite Hi.
  split; [|split; [done|]].
  - unfold registerObserver. simpl. by rewrite includes_snoc.
  - unfold unregisterObserver. simpl. rewrite remove_first_new by done. by destruct c.
Qed.

Lemma register_then_unregister_witness :
  includes {| oid := 5%nat; update_throws := false |} (observers example) = false /\
  registerObserver {| oid := 5%nat; update_throws := false |}
    (registerObserver {| oid := 5%nat; update_throws := false |} example)
    = registerObserver {| oid := 5%nat; update_throws := false |} example /\
  observers (registerObserver {| oid := 5%nat; update_throws := false |} example)
    = observers example ++ [{| oid := 5%nat; update_throws := false |}] /\
  unregisterObserver {| oid := 5%nat; update_throws := false |}
    (registerObserver {| oid := 5%nat; update_throws := false |} example) = example.
Proof.
  split; [reflexivity|].
  apply (register_then_unregister {| oid := 5%nat; update_throws := false |} example).
  reflexivity.
Defined.

End CRUDFacts.

(** ** [executeTransaction] of the store *)

Section StoreTxFacts.
Import TM Store Effects StoreEffects Observed Invariant StoreObserved StoreTx.

(** For a body without effects on its caller, the two methods are those of
    the manager. *)
Lemma executeTransaction_over_world (fn : Body) (options : TransactionOptions) :
  ManagerOver.executeTransaction (fun _ m => m) (call_body fn)
    (fun n p d => setTimeout (Retry fn options n p) d) options
  = TM.executeTransaction fn options.
Proof. reflexivity. Qed.

Lemma with_sys_eq {A} (m : M Sys A) s r s' :
  m (sys s) = (r, s') ->
  with_sys m s = (r, {| sys := s'; retries := retries s |}).
Proof. intros H. unfold with_sys. by rewrite H. Qed.

Lemma with_manager_eq {A} (m : M World A) s r w' :
  m (world (sys s)) = (r, w') ->
  with_manager A m s
  = (r, {| sys := {| store := store (sys s); world := w' |}; retries := retries s |}).
Proof.
  intros H. unfold with_manager. apply with_sys_eq. by apply with_world_eq.
Qed.

(** What a sequence of [setState] calls leaves alone, and what it tells the
    observers. *)
Lemma setStates_world ps s :
  Subject._isClosed (subject (store s)) = false ->
  exists s',
    setStates ps s = (Normal tt, s') /\ frame s s' /\
    transactionLogs (world s') = transactionLogs (world s) /\
    now (world s') = now (world s) /\
    body_calls (trace (world s')) = body_calls (trace (world s)) /\
    length (next_calls (trace (world s')))
      = (length (next_calls (trace (world s)))
         + length ps * length (Subject.observers (subject (store s))))%nat.
Proof.
  revert s. induction ps as [|p ps IH]; intros s Hc.
  - exists s. by repeat split.
  - destruct (setState_frame p s Hc) as (s1 & E1 & F1).
    pose proof E1 as E1'. rewrite (setState_eq p s Hc) in E1'. injection E1' as E1'.
    destruct (IH s1) as (s2 & E2 & F2 & L2 & N2 & B2 & C2); [apply F1|].
    exists s2. split; [simpl; unfold bind; by rewrite E1|].
    split; [by eapply frame_trans|].
    destruct F1 as (_ & _ & _ & _ & Hobs).
    rewrite L2, N2, B2, C2, Hobs. subst s1. simpl.
    split; [done|]. split; [done|]. split.
    + unfold body_calls. rewrite filter_app.
      rewrite length_app.
      assert (forall f t m l, filter is_body_call
                (Subject.deliver (fun o => CalledNext o f) t m l) = []) as Hd.
      { intros f t m l. induction l as [|o l IHl]; [done|]. simpl.
        destruct (t o); simpl; rewrite ?filter_cons; simpl; exact IHl. }
      by rewrite Hd, Nat.add_0_r.
    + rewrite next_calls_app, length_app, next_calls_deliver, length_map. lia.
Qed.


(** The closure up to its [try]: the snapshot is taken and stored in the
    context. *)
Lemma snapshot_taken ctx cx s :
  contexts (world (sys s)) !! ctx = Some cx ->
  exists s1 d snap,
    take_snapshot ctx s = (Normal tt, s1) /\
    store (sys s1) = store (sys s) /\
    heap (world (sys s)) ⊆ heap (world (sys s1)) /\
    heap (world (sys s1)) !! d = Some {["snapshot" := VRef snap]} /\
    heap (world (sys s1)) !! snap = Some (getState_props (sys s)) /\
    contexts (world (sys s1)) = <[ctx := set_data (VRef d) cx]> (contexts (world (sys s))) /\
    activeTransactions (world (sys s1)) = activeTransactions (world (sys s)) /\
    transactionLogs (world (sys s1)) = transactionLogs (world (sys s)) /\
    now (world (sys s1)) = now (world (sys s)) /\
    trace (world (sys s1)) = trace (world (sys s)) /\
    retries s1 = retries s.
Proof.
  intros Hc. rewrite getState_props_eq.
  destruct s as [[st w] rs]. simpl in Hc.
  set (snap := fresh (dom (heap w))).
  set (h1 := <[snap := props (heap w) (VRef (state st))]> (heap w)).
  set (d := fresh (dom h1)).
  eexists. exists d, snap. split.
  { unfold take_snapshot, bind at 1, gets. unfold bind at 1.
    rewrite (with_sys_eq _ _ _ _ (literal_eq _ _)).
    unfold bind at 1. rewrite (with_sys_eq _ _ _ _ (literal_eq _ _)).
    unfold with_sys, assign_data, with_world. simpl. rewrite Hc. reflexivity. }
  simpl. repeat split.
  - etrans; [apply insert_fresh_subseteq|]. apply insert_fresh_subseteq.
  - apply lookup_insert_eq.
  - rewrite lookup_insert_ne; [apply lookup_insert_eq|]. apply fresh_insert_ne.
Qed.


(** [fn(context)] *)
Lemma call_fn_eq fn ctx s :
  Subject._isClosed (subject (store (sys s))) = false ->
  exists s2,
    call_fn fn ctx s = (ends (attempt fn s), s2) /\
    heap (world (sys s)) ⊆ heap (world (sys s2)) /\
    contexts (world (sys s2)) = contexts (world (sys s)) /\
    activeTransactions (world (sys s2)) = activeTransactions (world (sys s)) /\
    transactionLogs (world (sys s2)) = transactionLogs (world (sys s)) /\
    now (world (sys s2)) = now (world (sys s)) /\
    Subject._isClosed (subject (store (sys s2))) = false /\
    Subject.observers (subject (store (sys s2)))
      = Subject.observers (subject (store (sys s))) /\
    next_count s2
      = (next_count s + length (sets (attempt fn s))
                        * length (Subject.observers (subject (store (sys s)))))%nat /\
    body_calls (trace (world (sys s2))) = S (body_calls (trace (world (sys s)))) /\
    retries s2 = retries s /\
    ((forall p l, p ∈ sets (attempt fn s) -> p = VRef l ->
        is_Some (heap (world (sys s)) !! l)) ->
     getState_props (sys s2)
       = merged (heap (world (sys s))) (getState_props (sys s)) (sets (attempt fn s)) /\
     (sets (attempt fn s) <> [] -> last_told s2 (getState_props (sys s2)))).
Proof.
  intros Hc. destruct s as [[st w] rs]. simpl in Hc.
  destruct (setStates_world (sets (fn (body_calls (trace w))))
              {| store := st; world := set_trace (trace w ++ [BodyCalled ctx]) w |} Hc)
    as (s2 & E2 & (F1 & F2 & F3 & F4 & F5) & L2 & N2 & B2 & C2).
  exists {| sys := s2; retries := rs |}. split.
  { unfold call_fn, bind at 1, gets. unfold bind at 1. cbn [sys world trace].
    unfold with_manager, with_sys at 1, with_world, modify. cbn [fst snd sys world store retries].
    unfold bind at 1. unfold with_sys. cbn [sys retries]. rewrite E2. reflexivity. }
  unfold next_count, attempt. simpl in *.
  rewrite next_calls_app in C2. simpl in C2. rewrite app_nil_r in C2.
  rewrite body_calls_snoc in B2. repeat split; try done.
  - destruct (setStates_merged (sets (fn (body_calls (trace w))))
                {| store := st; world := set_trace (trace w ++ [BodyCalled ctx]) w |} Hc)
      as (s2' & E2' & G & _); [done|].
    rewrite E2 in E2'. injection E2' as <-. rewrite G. by rewrite !getState_props_eq.
  - intros Hne.
    destruct (setStates_merged (sets (fn (body_calls (trace w))))
                {| store := st; world := set_trace (trace w ++ [BodyCalled ctx]) w |} Hc)
      as (s2' & E2' & _ & G); [done|].
    rewrite E2 in E2'. injection E2' as <-. exact (G Hne).
Qed.

Lemma merged_weaken (h h' : gmap loc obj) (o : obj) (ps : list value) :
  h ⊆ h' ->
  (forall p l, p ∈ ps -> p = VRef l -> is_Some (h !! l)) ->
  merged h' o ps = merged h o ps.
Proof.
  intros Hh Hps. apply merged_ext. intros q Hq. apply props_stable; [done|].
  intros l ->. by apply (Hps (VRef l) l).
Qed.

Lemma last_told_weaken s s' o :
  Subject.lastValue (subject (store (sys s'))) = Subject.lastValue (subject (store (sys s))) ->
  heap (world (sys s)) ⊆ heap (world (sys s')) ->
  last_told s o -> last_told s' o.
Proof.
  intros Hl Hh (l & E & Ho). exists l. split; [by rewrite Hl|].
  by apply (lookup_weaken _ _ _ _ Ho).
Qed.

Lemma merged_at_snapshot s s1 ps :
  store (sys s1) = store (sys s) ->
  heap (world (sys s)) ⊆ heap (world (sys s1)) ->
  exist_in s ps ->
  (forall p l, p ∈ ps -> p = VRef l -> is_Some (heap (world (sys s1)) !! l)) /\
  merged (heap (world (sys s1))) (getState_props (sys s1)) ps
  = merged (heap (world (sys s))) (getState_props (sys s)) ps.
Proof.
  intros Hst Hh [Hs Hps]. split.
  - intros p l Hp ->. apply (lookup_weaken_is_Some _ _ _ (Hps _ l Hp eq_refl) Hh).
  - rewrite (merged_weaken _ _ _ _ Hh Hps). f_equal.
    rewrite !getState_props_eq, Hst. apply props_stable; [done|]. by intros l [= <-].
Qed.

Lemma transaction_body_throws fn ctx cx s e :
  contexts (world (sys s)) !! ctx = Some cx ->
  Subject._isClosed (subject (store (sys s))) = false ->
  ends (attempt fn s) = Throw e ->
  exists s' d,
    transaction_body fn ctx s = (Throw e, s') /\
    getState_props (sys s') = getState_props (sys s) /\
    heap (world (sys s)) ⊆ heap (world (sys s')) /\
    contexts (world (sys s')) = <[ctx := set_data (VRef d) cx]> (contexts (world (sys s))) /\
    activeTransactions (world (sys s')) = activeTransactions (world (sys s)) /\
    transactionLogs (world (sys s')) = transactionLogs (world (sys s)) /\
    now (world (sys s')) = now (world (sys s)) /\
    next_count s'
      = (next_count s + length (sets (attempt fn s))
                        * length (Subject.observers (subject (store (sys s)))))%nat /\
    retries s' = retries s /\
    (exist_in s (sets (attempt fn s)) -> sets (attempt fn s) <> [] ->
     last_told s' (merged (heap (world (sys s))) (getState_props (sys s))
                     (sets (attempt fn s)))).
Proof.
  intros Hctx Hc He.
  destruct (snapshot_taken ctx cx s Hctx)
    as (s1 & d & snap & E1 & Hst & Hh1 & Hd & Hsnap & Hc1 & Ha1 & Hl1 & Hn1 & Ht1 & Hr1).
  assert (Subject._isClosed (subject (store (sys s1))) = false) as Hc1' by (by rewrite Hst).
  destruct (call_fn_eq fn ctx s1 Hc1')
    as (s2 & E2 & Hh2 & Hc2 & Ha2 & Hl2 & Hn2 & Hcl2 & Ho2 & Hk2 & Hb2 & Hr2 & Hm2).
  assert (attempt fn s1 = attempt fn s) as Hat by (unfold attempt; by rewrite Ht1).
  rewrite Hat in *. rewrite He in E2.
  assert (contexts (world (sys s2)) !! ctx = Some (set_data (VRef d) cx)) as Hctx2.
  { rewrite Hc2, Hc1. apply lookup_insert_eq. }
  pose proof (restore_snapshot (sys s2) ctx (set_data (VRef d) cx) d snap Hctx2 eq_refl
                (lookup_weaken _ _ _ _ Hd Hh2)) as E3.
  eexists. exists d. split.
  { unfold transaction_body. unfold bind at 1. rewrite E1.
    unfold try_catch, bind at 1. rewrite E2.
    unfold bind at 1. rewrite (with_sys_eq _ _ _ _ E3). reflexivity. }
  cbn [sys retries]. rewrite getState_props_eq. simpl.
  rewrite lookup_insert_eq.
  split; [by apply (props_weaken _ _ _ _ Hh2)|].
  split; [etrans; [exact Hh1|]; etrans; [exact Hh2|]; apply insert_fresh_subseteq|].
  rewrite Hc2, Ha2, Hl2, Hn2, Hr2, Hc1, Ha1, Hl1, Hn1, Hr1.
  split; [done|]. split; [done|]. split; [done|]. split; [done|].
  split; [unfold next_count in *; simpl; rewrite Hk2; by rewrite Hst, Ht1|].
  split; [done|].
  intros Hex Hne.
  destruct (merged_at_snapshot s s1 (sets (attempt fn s)) Hst Hh1 Hex) as [Hex1 Hmg].
  destruct (Hm2 Hex1) as [Hg2 Ht2]. rewrite <- Hmg, <- Hg2.
  refine (last_told_weaken s2 _ _ _ _ (Ht2 Hne)); [reflexivity|].
  simpl. apply insert_fresh_subseteq.
Qed.


Lemma transaction_body_returns fn ctx cx s v :
  contexts (world (sys s)) !! ctx = Some cx ->
  Subject._isClosed (subject (store (sys s))) = false ->
  ends (attempt fn s) = Normal v ->
  exists s' d l,
    transaction_body fn ctx s = (Normal v, s') /\
    heap (world (sys s)) ⊆ heap (world (sys s')) /\
    contexts (world (sys s')) = <[ctx := set_data (VRef d) cx]> (contexts (world (sys s))) /\
    activeTransactions (world (sys s')) = activeTransactions (world (sys s)) /\
    transactionLogs (world (sys s'))
      = append_operation (id (metadata cx))
          {| type := update; target := "store"; op_data := Some (VRef l);
             timestamp := now (world (sys s)) |}
          (transactionLogs (world (sys s))) /\
    props (heap (world (sys s'))) (VRef l) = getState_props (sys s') /\
    now (world (sys s')) = now (world (sys s)) /\
    next_count s'
      = (next_count s + length (sets (attempt fn s))
                        * length (Subject.observers (subject (store (sys s)))))%nat /\
    retries s' = retries s /\
    heap (world (sys s)) !! l = None /\
    (exist_in s (sets (attempt fn s)) ->
     getState_props (sys s')
       = merged (heap (world (sys s))) (getState_props (sys s)) (sets (attempt fn s)) /\
     (sets (attempt fn s) <> [] -> last_told s' (getState_props (sys s')))).
Proof.
  intros Hctx Hc He.
  destruct (snapshot_taken ctx cx s Hctx)
    as (s1 & d & snap & E1 & Hst & Hh1 & Hd & Hsnap & Hc1 & Ha1 & Hl1 & Hn1 & Ht1 & Hr1).
  assert (Subject._isClosed (subject (store (sys s1))) = false) as Hc1' by (by rewrite Hst).
  destruct (call_fn_eq fn ctx s1 Hc1')
    as (s2 & E2 & Hh2 & Hc2 & Ha2 & Hl2 & Hn2 & Hcl2 & Ho2 & Hk2 & Hb2 & Hr2 & Hm2).
  assert (attempt fn s1 = attempt fn s) as Hat by (unfold attempt; by rewrite Ht1).
  rewrite Hat in *. rewrite He in E2.
  assert (contexts (world (sys s2)) !! ctx = Some (set_data (VRef d) cx)) as Hctx2.
  { rewrite Hc2, Hc1. apply lookup_insert_eq. }
  eexists. exists d, (fresh (dom (heap (world (sys s2))))). split.
  { unfold transaction_body. unfold bind at 1. rewrite E1.
    unfold try_catch, bind at 1. rewrite E2.
    unfold bind at 1, metadata_id, bind at 1, gets. rewrite Hctx2. unfold ret at 1.
    unfold bind at 1. rewrite (with_sys_eq _ _ _ _ (getState_eq _)).
    unfold bind at 1, gets. unfold bind at 1.
    unfold with_manager, with_sys, with_world, logOperation, modify.
    cbn [fst snd sys world retries]. reflexivity. }
  cbn [sys retries world store allocated set_logs heap contexts activeTransactions
       transactionLogs now set_heap set_data metadata].
  split; [etrans; [exact Hh1|]; etrans; [exact Hh2|]; apply insert_fresh_subseteq|].
  rewrite Hc2, Ha2, Hl2, Hn2, Hr2, Hc1, Ha1, Hl1, Hn1, Hr1.
  split; [done|]. split; [done|]. split; [done|].
  split.
  { rewrite getState_props_eq. cbn [heap world store set_heap set_logs].
    unfold props at 1. rewrite lookup_insert_eq. cbn [default].
    symmetry. apply props_insert_copy, fresh_lookup. }
  split; [done|].
  split; [unfold next_count in *; cbn [sys world trace set_logs set_heap];
          rewrite Hk2; by rewrite Hst, Ht1|].
  split; [done|].
  split.
  { apply (lookup_weaken_None _ (heap (world (sys s2)))); [apply fresh_lookup|].
    by etrans. }
  intros Hex.
  destruct (merged_at_snapshot s s1 (sets (attempt fn s)) Hst Hh1 Hex) as [Hex1 Hmg].
  destruct (Hm2 Hex1) as [Hg2 Ht2]. rewrite <- Hmg, <- Hg2.
  match goal with |- ?x = _ /\ _ => assert (x = getState_props (sys s2)) as Hsame end.
  { rewrite !getState_props_eq. cbn [heap world store set_heap set_logs allocated].
    apply props_insert_copy, fresh_lookup. }
  split; [exact Hsame|]. intros Hne.
  refine (last_told_weaken s2 _ _ _ _ _); [reflexivity| |].
  - simpl. apply insert_fresh_subseteq.
  - rewrite Hsame. exact (Ht2 Hne).
Qed.

Lemma begin_for_store options s :
  with_manager _ (TM.beginTransaction options) s
  = (Normal (next_context s),
     {| sys := {| store := store (sys s); world := began options (world (sys s)) |};
        retries := retries s |}).
Proof. apply with_manager_eq, beginTransaction_eq. Qed.

Lemma getState_props_began options st w :
  getState_props {| store := st; world := began options w |}
  = getState_props {| store := st; world := w |}.
Proof.
  rewrite !getState_props_eq. simpl. apply props_insert_empty, fresh_lookup.
Qed.

(** For a body that calls [setState] any number of times and then throws,
    and does nothing else (it ends no transaction of the manager), with
    observers whose callbacks do not call back into the store, and with
    [autoRetry] not asked for: [executeTransaction] of the store throws what
    the body threw; the state has the properties again that it had before
    the call; the observers were told of every [setState] of the body and
    are not told of the restoration, so that the value they were told last
    is the state as the body left it; the transaction is ROLLED_BACK and
    nothing is logged. *)
Theorem executeTransaction_restores_on_failure (fn : StoreBody)
    (options : TransactionOptions) (s : SysR) (e : exn) :
  Subject._isClosed (subject (store (sys s))) = false ->
  ends (attempt fn s) = Throw e ->
  retry_enabled options = false ->
  exists s',
    StoreTx.executeTransaction fn options s = (Throw e, s') /\
    getState_props (sys s') = getState_props (sys s) /\
    next_count s'
      = (next_count s + length (sets (attempt fn s))
                        * length (Subject.observers (subject (store (sys s)))))%nat /\
    (status ∘ metadata) <$> contexts (world (sys s')) !! next_context s
      = Some ROLLED_BACK /\
    activeTransactions (world (sys s')) !! next_id s = None /\
    transactionLogs (world (sys s')) = transactionLogs (world (sys s)) /\
    heap (world (sys s)) ⊆ heap (world (sys s')) /\
    retries s' = retries s /\
    (exist_in s (sets (attempt fn s)) -> sets (attempt fn s) <> [] ->
     last_told s' (merged (heap (world (sys s))) (getState_props (sys s))
                     (sets (attempt fn s)))).
Proof.
  intros Hc He Hr. destruct s as [[st w] rs]. cbn [sys store world retries] in *.
  set (s1 := {| sys := {| store := st; world := began options w |}; retries := rs |}).
  destruct (transaction_body_throws fn (fresh (dom (contexts w))) (new_context options w)
              s1 e) as (s2 & d & E2 & Hg & Hh & Hctx & Ha & Hl & Hn & Hk & Hrs & Hm).
  { simpl. apply lookup_insert_eq. }
  { done. }
  { done. }
  assert (finish ROLLED_BACK (fresh (dom (contexts w))) (world (sys s2))
          = (Normal tt,
             finished ROLLED_BACK (uuid w) (fresh (dom (contexts w)))
               (set_data (VRef d) (new_context options w)) (world (sys s2)))) as E3.
  { apply (finish_ok ROLLED_BACK _ (set_data (VRef d) (new_context options w))
             (fresh (dom (contexts w))) (set_data (VRef d) (new_context options w))).
    - rewrite Hctx. apply lookup_insert_eq.
    - rewrite Ha. simpl. apply lookup_insert_eq.
    - rewrite Hctx. apply lookup_insert_eq.
    - done. }
  eexists. split.
  { unfold StoreTx.executeTransaction, ManagerOver.executeTransaction.
    unfold bind at 1. rewrite begin_for_store. unfold next_context.
    cbn [sys world store retries].
    fold s1. unfold try_catch, bind at 1. rewrite E2.
    unfold bind at 1, TM.rollbackTransaction. rewrite (with_manager_eq _ _ _ _ E3).
    rewrite Hr. reflexivity. }
  cbn [sys world retries store]. unfold next_context, next_id. cbn [sys world].
  split.
  { transitivity (getState_props (sys s2)); [by rewrite !getState_props_eq|].
    rewrite Hg. apply getState_props_began. }
  split; [exact Hk|].
  split; [simpl; by rewrite lookup_insert_eq|].
  split; [simpl; apply lookup_delete_eq|].
  split; [simpl; by rewrite Hl|].
  split; [simpl; etrans; [|exact Hh]; simpl; apply insert_fresh_subseteq|].
  split; [done|].
  intros Hex Hne.
  destruct (merged_at_snapshot {| sys := {| store := st; world := w |}; retries := rs |}
              s1 (sets (attempt fn s1)) eq_refl (insert_fresh_subseteq _ _) Hex)
    as [Hex1 Hmg].
  assert (exist_in s1 (sets (attempt fn s1))) as Hex'.
  { split; [|exact Hex1]. destruct Hex as [Hs _].
    apply (lookup_weaken_is_Some _ _ _ Hs), insert_fresh_subseteq. }
  destruct (Hm Hex' Hne) as (l & El & Ho). exists l. split; [exact El|].
  simpl. rewrite Ho. f_equal. exact Hmg.
Qed.

Lemma exist_in_subscribed : exist_in subscribed [ninety_nine].
Proof.
  split; [vm_compute; eauto|].
  intros p l Hp ->. apply list_elem_of_singleton in Hp. injection Hp as ->.
  vm_compute. eauto.
Defined.

Lemma executeTransaction_restores_on_failure_witness :
  Subject._isClosed (subject (store (sys subscribed))) = false /\
  ends (attempt sets_and_throws subscribed) = Throw (ErrUser 0) /\
  retry_enabled no_options = false /\
  exists s',
    StoreTx.executeTransaction sets_and_throws no_options subscribed
      = (Throw (ErrUser 0), s') /\
    getState_props (sys s') = getState_props (sys subscribed) /\
    next_count s'
      = (next_count subscribed
         + length (sets (attempt sets_and_throws subscribed))
           * length (Subject.observers (subject (store (sys subscribed)))))%nat /\
    (status ∘ metadata) <$> contexts (world (sys s')) !! next_context subscribed
      = Some ROLLED_BACK /\
    activeTransactions (world (sys s')) !! next_id subscribed = None /\
    transactionLogs (world (sys s')) = transactionLogs (world (sys subscribed)) /\
    heap (world (sys subscribed)) ⊆ heap (world (sys s')) /\
    retries s' = retries subscribed /\
    exist_in subscribed (sets (attempt sets_and_throws subscribed)) /\
    sets (attempt sets_and_throws subscribed) <> [] /\
    last_told s' (merged (heap (world (sys subscribed))) (getState_props (sys subscribed))
                    (sets (attempt sets_and_throws subscribed))).
Proof.
  split; [reflexivity|]. split; [reflexivity|]. split; [reflexivity|].
  destruct (executeTransaction_restores_on_failure sets_and_throws no_options subscribed
              (ErrUser 0) eq_refl eq_refl eq_refl)
    as (s' & E & H1 & H2 & H3 & H4 & H5 & H6 & H7 & H8).
  exists s'. do 8 (split; [assumption|]).
  split; [apply exist_in_subscribed|]. split; [done|].
  apply H8; [apply exist_in_subscribed|done].
Defined.

(** The same, evaluated: the body sets [count] to 99 and throws; the
    observer 7 was told 99 once, and the state has [count = 0] again. *)
Example failed_transaction_of_the_store :
  (StoreTx.executeTransaction sets_and_throws no_options subscribed).1
    = Throw (ErrUser 0) /\
  getState_props (sys subscribed) !! "count" = Some (VNum 0) /\
  merged (heap (world (sys subscribed))) (getState_props (sys subscribed))
    (sets (attempt sets_and_throws subscribed)) !! "count" = Some (VNum 99) /\
  notified 7 "count"
    (sys (StoreTx.executeTransaction sets_and_throws no_options subscribed).2)
    = [VNum 99] /\
  getState_props (sys (StoreTx.executeTransaction sets_and_throws no_options subscribed).2)
    !! "count" = Some (VNum 0).
Proof. vm_compute. done. Qed.

(** For a body that calls [setState] any number of times and then returns,
    and does nothing else (it ends no transaction of the manager), with
    observers whose callbacks do not call back into the store:
    [executeTransaction] of the store returns what the body returned; the
    transaction is COMMITTED; one [update] operation is added to the
    operations logged under the id of the transaction, and none to those of
    another id; the operation holds a new object with the properties of the
    state, which is the state before the call merged with the arguments of
    the body's [setState] calls in order; and the observers are told of
    every [setState] of the body and of nothing else: the commit publishes
    nothing. *)
Theorem executeTransaction_logs_on_success (fn : StoreBody)
    (options : TransactionOptions) (s : SysR) (v : value) :
  Subject._isClosed (subject (store (sys s))) = false ->
  ends (attempt fn s) = Normal v ->
  exists s' l,
    StoreTx.executeTransaction fn options s = (Normal (RValue v), s') /\
    (status ∘ metadata) <$> contexts (world (sys s')) !! next_context s
      = Some COMMITTED /\
    activeTransactions (world (sys s')) !! next_id s = None /\
    transactionLogs (world (sys s'))
      = append_operation (next_id s)
          {| type := update; target := "store"; op_data := Some (VRef l);
             timestamp := now (world (sys s)) |}
          (transactionLogs (world (sys s))) /\
    props (heap (world (sys s'))) (VRef l) = getState_props (sys s') /\
    next_count s'
      = (next_count s + length (sets (attempt fn s))
                        * length (Subject.observers (subject (store (sys s)))))%nat /\
    retries s' = retries s /\
    operations_of (next_id s) (transactionLogs (world (sys s')))
      = operations_of (next_id s) (transactionLogs (world (sys s)))
        ++ [{| type := update; target := "store"; op_data := Some (VRef l);
               timestamp := now (world (sys s)) |}] /\
    (forall j, j <> next_id s ->
       operations_of j (transactionLogs (world (sys s')))
       = operations_of j (transactionLogs (world (sys s)))) /\
    heap (world (sys s)) !! l = None /\
    (exist_in s (sets (attempt fn s)) ->
     getState_props (sys s')
       = merged (heap (world (sys s))) (getState_props (sys s)) (sets (attempt fn s)) /\
     (sets (attempt fn s) <> [] -> last_told s' (getState_props (sys s')))).
Proof.
  intros Hc He. destruct s as [[st w] rs]. cbn [sys store world retries] in *.
  set (s1 := {| sys := {| store := st; world := began options w |}; retries := rs |}).
  destruct (transaction_body_returns fn (fresh (dom (contexts w))) (new_context options w)
              s1 v)
    as (s2 & d & l & E2 & Hh & Hctx & Ha & Hl & Hp & Hn & Hk & Hrs & Hfr & Hm).
  { simpl. apply lookup_insert_eq. }
  { done. }
  { done. }
  assert (finish COMMITTED (fresh (dom (contexts w))) (world (sys s2))
          = (Normal tt,
             finished COMMITTED (uuid w) (fresh (dom (contexts w)))
               (set_data (VRef d) (new_context options w)) (world (sys s2)))) as E3.
  { apply (finish_ok COMMITTED _ (set_data (VRef d) (new_context options w))
             (fresh (dom (contexts w))) (set_data (VRef d) (new_context options w))).
    - rewrite Hctx. apply lookup_insert_eq.
    - rewrite Ha. simpl. apply lookup_insert_eq.
    - rewrite Hctx. apply lookup_insert_eq.
    - done. }
  eexists. exists l. split.
  { unfold StoreTx.executeTransaction, ManagerOver.executeTransaction.
    unfold bind at 1. rewrite begin_for_store. unfold next_context.
    cbn [sys world store retries].
    fold s1. unfold try_catch, bind at 1. rewrite E2.
    unfold bind at 1, TM.commitTransaction. rewrite (with_manager_eq _ _ _ _ E3).
    reflexivity. }
  cbn [sys world retries store]. unfold next_context, next_id. cbn [sys world].
  split; [simpl; by rewrite lookup_insert_eq|].
  split; [simpl; apply lookup_delete_eq|].
  split; [simpl; by rewrite Hl|].
  split.
  { rewrite getState_props_eq in Hp |- *. exact Hp. }
  split; [exact Hk|]. split; [done|].
  split; [simpl; rewrite Hl; apply operations_of_append_same|].
  split; [intros j Hj; simpl; rewrite Hl; by apply operations_of_append_other|].
  split.
  { apply (lookup_weaken_None _ (heap (began options w))); [exact Hfr|].
    simpl. apply insert_fresh_subseteq. }
  intros Hex.
  destruct (merged_at_snapshot {| sys := {| store := st; world := w |}; retries := rs |}
              s1 (sets (attempt fn s1)) eq_refl (insert_fresh_subseteq _ _) Hex)
    as [Hex1 Hmg].
  assert (exist_in s1 (sets (attempt fn s1))) as Hex'.
  { split; [|exact Hex1]. destruct Hex as [Hs _].
    apply (lookup_weaken_is_Some _ _ _ Hs), insert_fresh_subseteq. }
  destruct (Hm Hex') as [Hg Ht]. cbn [sys world] in Hmg.
  split.
  - transitivity (getState_props (sys s2)); [by rewrite !getState_props_eq|].
    rewrite Hg. exact Hmg.
  - intros Hne. destruct (Ht Hne) as (l' & El & Ho). exists l'. split; [exact El|].
    simpl. by rewrite Ho.
Qed.

Lemma executeTransaction_logs_on_success_witness :
  Subject._isClosed (subject (store (sys subscribed))) = false /\
  ends (attempt sets_and_returns subscribed) = Normal (VNum 1) /\
  exists s' l,
    StoreTx.executeTransaction sets_and_returns no_options subscribed
      = (Normal (RValue (VNum 1)), s') /\
    (status ∘ metadata) <$> contexts (world (sys s')) !! next_context subscribed
      = Some COMMITTED /\
    activeTransactions (world (sys s')) !! next_id subscribed = None /\
    transactionLogs (world (sys s'))
      = append_operation (next_id subscribed)
          {| type := update; target := "store"; op_data := Some (VRef l);
             timestamp := now (world (sys subscribed)) |}
          (transactionLogs (world (sys subscribed))) /\
    props (heap (world (sys s'))) (VRef l) = getState_props (sys s') /\
    next_count s'
      = (next_count subscribed
         + length (sets (attempt sets_and_returns subscribed))
           * length (Subject.observers (subject (store (sys subscribed)))))%nat /\
    retries s' = retries subscribed /\
    operations_of (next_id subscribed) (transactionLogs (world (sys s')))
      = operations_of (next_id subscribed) (transactionLogs (world (sys subscribed)))
        ++ [{| type := update; target := "store"; op_data := Some (VRef l);
               timestamp := now (world (sys subscribed)) |}] /\
    (forall j, j <> next_id subscribed ->
       operations_of j (transactionLogs (world (sys s')))
       = operations_of j (transactionLogs (world (sys subscribed)))) /\
    heap (world (sys subscribed)) !! l = None /\
    exist_in subscribed (sets (attempt sets_and_returns subscribed)) /\
    getState_props (sys s')
      = merged (heap (world (sys subscribed))) (getState_props (sys subscribed))
          (sets (attempt sets_and_returns subscribed)) /\
    sets (attempt sets_and_returns subscribed) <> [] /\
    last_told s' (getState_props (sys s')).
Proof.
  split; [reflexivity|]. split; [reflexivity|].
  destruct (executeTransaction_logs_on_success sets_and_returns no_options subscribed
              (VNum 1) eq_refl eq_refl)
    as (s' & l & E & H1 & H2 & H3 & H4 & H5 & H6 & H7 & H8 & H9 & H10).
  exists s', l. do 10 (split; [assumption|]).
  split; [apply exist_in_subscribed|].
  destruct (H10 exist_in_subscribed) as [H11 H12].
  split; [exact H11|]. split; [done|]. by apply H12.
Defined.

(** The same, evaluated: the body sets [count] to 99 and returns 1; the
    observer 7 was told 99 once, the state has [count = 99], and the
    operations logged under the id 0 are one [update] of the store. *)
Example committed_transaction_of_the_store :
  (StoreTx.executeTransaction sets_and_returns no_options subscribed).1
    = Normal (RValue (VNum 1)) /\
  notified 7 "count"
    (sys (StoreTx.executeTransaction sets_and_returns no_options subscribed).2)
    = [VNum 99] /\
  getState_props (sys (StoreTx.executeTransaction sets_and_returns no_options subscribed).2)
    !! "count" = Some (VNum 99) /\
  map (fun op => (type op, target op))
    (operations_of 0
       (transactionLogs
          (world (sys (StoreTx.executeTransaction sets_and_returns no_options
                         subscribed).2))))
    = [(update, "store")].
Proof. vm_compute. done. Qed.

End StoreTxFacts.
